(** * Purchase release (POST /compras/:id/release) of loiro_das_milhas

    A shallow embedding of the release route handler: the helpers
    [clampPts], [toProgramKey] and [computeProgramDeltas], and the handler
    [POST] itself, run against an explicit model of the Prisma store.

    Modelling choices.
    - A JavaScript number is an IEEE-754 binary64 value: Rocq's primitive
      [float], whose [+], [-] and [<] are the ones JavaScript uses.
    - A JavaScript value of type [any] is a [jsval]: undefined, null, a
      boolean, a number or a string (what a Prisma row field or a JSON scalar
      can hold).  A string is a Rocq [string]: the code units of the
      JavaScript string under an encoding that sends every ASCII character
      to the byte of its code and no other character to bytes below 128
      (UTF-8 for one), so that [===] on strings is equality.
    - What the runtime does to strings and numbers is an interface,
      [JSRuntime]: the two conversions between strings and numbers
      (StringToNumber, Number::toString) and the methods [toUpperCase],
      [toLowerCase] and [trim] of String.prototype, which follow Unicode.
      Of the three methods the interface fixes what ECMAScript fixes on
      ASCII text, and that they are idempotent and that trimming commutes
      with the two case conversions; it says nothing else of them.
    - The store is a record of tables; a transaction is a computation in a
      state-and-exception monad that commits on return and rolls back on
      throw.  Storage failures are injected by an oracle of the [World], which
      also carries the clock, the external routine [recomputeCompra] and the
      writes other requests commit between two awaits of the handler. *)

From Stdlib Require Import ZArith Floats Lia Bool Ascii String DecimalString List Permutation.
From stdpp Require Import gmap strings.
Import ListNotations.

Local Open Scope Z_scope.

(* ===================================================================== *)
(** ** JavaScript numbers *)
(* ===================================================================== *)

Module JSNum.

(** The integral part of a binary64 value, towards zero, on the Standard
    Library's specification of the format: a finite [m * 2^e] with [e < 0]
    loses its [-e] low bits; the sign is kept, also on a zero result. *)
Definition SFtrunc (x : spec_float) : spec_float :=
  match x with
  | S754_finite s m e =>
      if 0 <=? e then x
      else binary_normalize prec emax (cond_Zopp s (Z.pos m / 2 ^ (- e))) 0 s
  | _ => x
  end.

(** [Math.trunc]. *)
Definition Math_trunc (x : float) : float := SF2Prim (SFtrunc (Prim2SF x)).

(** [Math.max] of two numbers: NaN if either is NaN, and [+0] is larger
    than [-0]. *)
Definition Math_max (x y : float) : float :=
  if is_nan x || is_nan y then nan
  else if PrimFloat.ltb x y then y
  else if PrimFloat.ltb y x then x
  else if get_sign x then y else x.

(** [Number.isFinite] on a number. *)
Definition Number_isFinite (n : float) : bool := is_finite n.

(** The number an integer denotes, rounded to binary64 when it does not
    fit (it fits whenever [|z| <= 2^53]). *)
Definition of_Z (z : Z) : float := SF2Prim (binary_normalize prec emax z 0 false).

(** The exact value of a finite number as a fraction [num / den] with
    [den] a power of two. *)
Definition num (x : float) : Z :=
  match Prim2SF x with
  | S754_finite s m e => cond_Zopp s (Z.pos m * 2 ^ Z.max e 0)
  | _ => 0
  end.

Definition den (x : float) : Z :=
  match Prim2SF x with
  | S754_finite s m e => 2 ^ Z.max (- e) 0
  | _ => 1
  end.

(** [to_Z x = Some z] when [x] is finite and its value is the integer [z]. *)
Definition to_Z (x : float) : option Z :=
  if is_finite x then
    if num x mod den x =? 0 then Some (num x / den x) else None
  else None.

(** 2^53: up to here every integer is a binary64 value. *)
Definition safe_bound : Z := 9007199254740992.

End JSNum.

Export JSNum.

(* ===================================================================== *)
(** ** JavaScript values and coercions *)
(* ===================================================================== *)

Inductive jsval : Type :=
  | VUndefined
  | VNull
  | VBool (b : bool)
  | VNum (n : float)
  | VStr (s : string).

(** What the three string methods do to ASCII text. *)
Module JSString.

Definition upper_ascii (c : ascii) : ascii :=
  let n := nat_of_ascii c in
  if ((97 <=? n) && (n <=? 122))%nat then ascii_of_nat (n - 32) else c.

Definition lower_ascii (c : ascii) : ascii :=
  let n := nat_of_ascii c in
  if ((65 <=? n) && (n <=? 90))%nat then ascii_of_nat (n + 32) else c.

Fixpoint ascii_toUpperCase (s : string) : string :=
  match s with
  | EmptyString => EmptyString
  | String c r => String (upper_ascii c) (ascii_toUpperCase r)
  end.

Fixpoint ascii_toLowerCase (s : string) : string :=
  match s with
  | EmptyString => EmptyString
  | String c r => String (lower_ascii c) (ascii_toLowerCase r)
  end.

(** The white space and the line terminators of ASCII: TAB, LF, VT, FF,
    CR, SP. *)
Definition is_white (c : ascii) : bool :=
  let n := nat_of_ascii c in
  ((9 <=? n) && (n <=? 13) || (n =? 32))%nat.

Fixpoint ascii_trimStart (s : string) : string :=
  match s with
  | String c r => if is_white c then ascii_trimStart r else s
  | EmptyString => EmptyString
  end.

Fixpoint ascii_trimEnd (s : string) : string :=
  match s with
  | EmptyString => EmptyString
  | String c r =>
      match ascii_trimEnd r with
      | EmptyString => if is_white c then EmptyString else String c EmptyString
      | r' => String c r'
      end
  end.

Definition ascii_trim (s : string) : string := ascii_trimEnd (ascii_trimStart s).

(** Every character of [s] is an ASCII character. *)
Fixpoint is_ascii (s : string) : bool :=
  match s with
  | EmptyString => true
  | String c r => (nat_of_ascii c <? 128)%nat && is_ascii r
  end.

End JSString.

Export JSString.

(** The part of the runtime that the code relies on: the conversions
    between strings and numbers, and [s.toUpperCase()], [s.toLowerCase()]
    and [s.trim()].  The three methods work on ASCII text as ASCII has it,
    whatever the locale; [trim] takes white space and line terminators, which
    have no case and which no case conversion produces, off the two ends. *)
Class JSRuntime : Type := {
  StringToNumber : string -> float;
  NumberToString : float -> string;
  toUpperCase : string -> string;
  toLowerCase : string -> string;
  trim : string -> string;
  toUpperCase_ascii :
    forall s, is_ascii s = true -> toUpperCase s = ascii_toUpperCase s;
  toLowerCase_ascii :
    forall s, is_ascii s = true -> toLowerCase s = ascii_toLowerCase s;
  trim_ascii :
    forall s, is_ascii s = true -> trim s = ascii_trim s;
  trim_upper : forall s, trim (toUpperCase s) = toUpperCase (trim s);
  trim_lower : forall s, trim (toLowerCase s) = toLowerCase (trim s);
  trim_idem : forall s, trim (trim s) = trim s;
  toUpperCase_idem : forall s, toUpperCase (toUpperCase s) = toUpperCase s;
  toLowerCase_idem : forall s, toLowerCase (toLowerCase s) = toLowerCase s;
}.

Section Coercions.
Context `{RT : JSRuntime}.

(** [Number(v)]. *)
Definition Number (v : jsval) : float :=
  match v with
  | VUndefined => nan
  | VNull => PrimFloat.zero
  | VBool true => PrimFloat.one
  | VBool false => PrimFloat.zero
  | VNum n => n
  | VStr s => StringToNumber s
  end.

(** [String(v)]. *)
Definition String_ (v : jsval) : string :=
  match v with
  | VUndefined => "undefined"
  | VNull => "null"
  | VBool true => "true"
  | VBool false => "false"
  | VNum n => NumberToString n
  | VStr s => s
  end.

(** ToBoolean. *)
Definition truthy (v : jsval) : bool :=
  match v with
  | VUndefined | VNull => false
  | VBool b => b
  | VNum n => negb (is_zero n || is_nan n)
  | VStr s => negb (String.eqb s "")
  end.

(** [v || d]. *)
Definition js_or (v d : jsval) : jsval := if truthy v then v else d.

Definition nullish (v : jsval) : bool :=
  match v with
  | VUndefined | VNull => true
  | _ => false
  end.

(** [v ?? d]. *)
Definition coalesce (v d : jsval) : jsval := if nullish v then d else v.

(** [function clampPts(v: any)]. *)
Definition clampPts (v : jsval) : float :=
  let n := Number v in
  if negb (Number_isFinite n) then PrimFloat.zero
  else Math_max PrimFloat.zero (Math_trunc n).

End Coercions.

Infix "??" := coalesce (at level 68, right associativity).

(* ===================================================================== *)
(** ** Program keys and per-program records *)
(* ===================================================================== *)

(** [type ProgramKey]. *)
Inductive ProgramKey : Type :=
  | K_latam | K_smiles | K_livelo | K_esfera | K_azul
  | K_iberia | K_aa | K_tap | K_flyingBlue.

#[global] Instance ProgramKey_eq_dec : EqDecision ProgramKey.
Proof. solve_decision. Defined.

Definition all_keys : list ProgramKey :=
  [K_latam; K_smiles; K_livelo; K_esfera; K_azul; K_iberia; K_aa; K_tap; K_flyingBlue].

(** The four programs that have a [saldoPrevisto*] column. *)
Definition legacy (k : ProgramKey) : bool :=
  match k with
  | K_latam | K_smiles | K_livelo | K_esfera => true
  | _ => false
  end.

(** An object with one field per program: [Record<ProgramKey, number>] at
    [float], the [saldosAplicados] object of the request body at [jsval]. *)
Record PerProgram (A : Type) : Type := mkPerProgram {
  latam : A; smiles : A; livelo : A; esfera : A; azul : A;
  iberia : A; aa : A; tap : A; flyingBlue : A;
}.
Arguments mkPerProgram {A}.
Arguments latam {A}. Arguments smiles {A}. Arguments livelo {A}.
Arguments esfera {A}. Arguments azul {A}. Arguments iberia {A}.
Arguments aa {A}. Arguments tap {A}. Arguments flyingBlue {A}.

(** [r[k]]. *)
Definition get {A} (r : PerProgram A) (k : ProgramKey) : A :=
  match k with
  | K_latam => latam r | K_smiles => smiles r | K_livelo => livelo r
  | K_esfera => esfera r | K_azul => azul r | K_iberia => iberia r
  | K_aa => aa r | K_tap => tap r | K_flyingBlue => flyingBlue r
  end.

(** [r[k] = f(r[k])]. *)
Definition upd {A} (r : PerProgram A) (k : ProgramKey) (f : A -> A) : PerProgram A :=
  let '(mkPerProgram a b c d e g h i j) := r in
  match k with
  | K_latam => mkPerProgram (f a) b c d e g h i j
  | K_smiles => mkPerProgram a (f b) c d e g h i j
  | K_livelo => mkPerProgram a b (f c) d e g h i j
  | K_esfera => mkPerProgram a b c (f d) e g h i j
  | K_azul => mkPerProgram a b c d (f e) g h i j
  | K_iberia => mkPerProgram a b c d e (f g) h i j
  | K_aa => mkPerProgram a b c d e g (f h) i j
  | K_tap => mkPerProgram a b c d e g h (f i) j
  | K_flyingBlue => mkPerProgram a b c d e g h i (f j)
  end.

Definition per_program {A} (x : A) : PerProgram A :=
  mkPerProgram x x x x x x x x x.

(** One line of a purchase, as the handler reads it. *)
Record PurchaseItem : Type := mkItem {
  item_id : string;
  purchaseId : string;
  status : jsval;
  programTo : jsval;
  programFrom : jsval;
  pointsFinal : jsval;
  pointsDebitedFromOrigin : jsval;
}.

Section DeltaResolver.
Context `{RT : JSRuntime}.

(** [function toProgramKey(v: any): ProgramKey | null]. *)
Definition toProgramKey (v : jsval) : option ProgramKey :=
  let up := toUpperCase (trim (String_ (js_or v (VStr "")))) in
  if String.eqb up "LATAM" then Some K_latam
  else if String.eqb up "SMILES" then Some K_smiles
  else if String.eqb up "LIVELO" then Some K_livelo
  else if String.eqb up "ESFERA" then Some K_esfera
  else if String.eqb up "AZUL" then Some K_azul
  else if String.eqb up "IBERIA" then Some K_iberia
  else if String.eqb up "AA" then Some K_aa
  else if String.eqb up "TAP" then Some K_tap
  else if String.eqb up "FLYING_BLUE" then Some K_flyingBlue
  else None.

(** The test that skips an item: its status, upper-cased, is CANCELED. *)
Definition is_canceled (it : PurchaseItem) : bool :=
  String.eqb (toUpperCase (String_ (js_or (status it) (VStr "")))) "CANCELED".

(** [out[programTo] += clampPts(it.pointsFinal)]. *)
Definition credit (out : PerProgram float) (it : PurchaseItem) : PerProgram float :=
  match toProgramKey (programTo it) with
  | Some k => upd out k (fun x => PrimFloat.add x (clampPts (pointsFinal it)))
  | None => out
  end.

(** [out[programFrom] -= clampPts(it.pointsDebitedFromOrigin)]. *)
Definition debit (out : PerProgram float) (it : PurchaseItem) : PerProgram float :=
  match toProgramKey (programFrom it) with
  | Some k => upd out k (fun x => PrimFloat.sub x (clampPts (pointsDebitedFromOrigin it)))
  | None => out
  end.

(** The body of the loop of [computeProgramDeltas]. *)
Definition delta_step (out : PerProgram float) (it : PurchaseItem) : PerProgram float :=
  if is_canceled it then out else debit (credit out it) it.

(** [function computeProgramDeltas(items: any[])]. *)
Definition computeProgramDeltas (items : list PurchaseItem) : PerProgram float :=
  fold_left delta_step items (per_program PrimFloat.zero).

End DeltaResolver.

(* ===================================================================== *)
(** ** The store *)
(* ===================================================================== *)

Record Cedente : Type := mkCedente {
  cedente_id : string;
  pontosLatam : float;
  pontosSmiles : float;
  pontosLivelo : float;
  pontosEsfera : float;
  pontosAzul : float;
  pontosIberia : float;
  pontosAA : float;
  pontosTAP : float;
  pontosFlyingBlue : float;
}.

Record Purchase : Type := mkPurchase {
  purchase_id : string;
  cedenteId : option string;
  purchase_status : string;
  saldoPrevistoLatam : jsval;
  saldoPrevistoSmiles : jsval;
  saldoPrevistoLivelo : jsval;
  saldoPrevistoEsfera : jsval;
  saldoAplicadoLatam : jsval;
  saldoAplicadoSmiles : jsval;
  saldoAplicadoLivelo : jsval;
  saldoAplicadoEsfera : jsval;
  cedentePayCents : jsval;
  liberadoEm : option Z;
  liberadoPorId : option string;
}.

Record CedenteCommission : Type := mkCommission {
  commission_cedenteId : option string;
  commission_purchaseId : string;
  amountCents : float;
  commission_status : string;
  generatedById : string;
  generatedAt : Z;
  paidAt : option Z;
  paidById : option string;
}.

(** The tables.  [purchases] and [cedentes] are keyed by their [id];
    [commissions] by [purchaseId], its unique key. *)
Record DB : Type := mkDB {
  purchases : gmap string Purchase;
  cedentes : gmap string Cedente;
  purchaseItems : list PurchaseItem;
  commissions : gmap string CedenteCommission;
}.

(** A purchase row with the relations an [include] asks for. *)
Record PurchaseView : Type := mkView {
  row : Purchase;
  cedente : option Cedente;
  items : list PurchaseItem;
}.

Definition is_str (v : jsval) (s : string) : bool :=
  match v with
  | VStr s' => String.eqb s' s
  | _ => false
  end.

Definition items_of (id : string) (db : DB) : list PurchaseItem :=
  filter (fun it => purchaseId it = id) (purchaseItems db).

(** [purchase.findUnique({ where: { id }, include: { cedente: true, items } })]. *)
Definition purchase_findUnique (with_items : bool) (id : string) (db : DB)
  : option PurchaseView :=
  match purchases db !! id with
  | None => None
  | Some p =>
      Some {| row := p;
              cedente := match cedenteId p with
                         | Some c => cedentes db !! c
                         | None => None
                         end;
              items := if with_items then items_of id db else [] |}
  end.

(* ===================================================================== *)
(** ** The world around the handler *)
(* ===================================================================== *)

(** The store operations of the handler, each of which may fail. *)
Inductive StoreOp : Type :=
  | Op_findBase | Op_findCompra
  | Op_txFind | Op_cedenteUpdate | Op_itemUpdateMany
  | Op_purchaseUpdate | Op_commissionUpsert.

(** What the handler does not control:
    - [now]: the clock read by [new Date()];
    - [recomputeCompra]: the routine of lib/compras, which is not part of the
      sources at hand; it returns the store it leaves and the message of the
      exception it throws, if any;
    - [concurrent k]: what other requests commit at the [k]-th await of the
      handler (the identity when the handler runs alone);
    - [storage_fault op]: the message of the error the store raises at [op],
      if it does. *)
Record World : Type := mkWorld {
  now : Z;
  recomputeCompra : string -> DB -> DB * option string;
  concurrent : nat -> DB -> DB;
  storage_fault : StoreOp -> option string;
}.

(* ===================================================================== *)
(** ** Transactions *)
(* ===================================================================== *)

(** A computation inside [prisma.$transaction]: it reads and writes the
    transaction's view of the store and may throw. *)
Definition Tx (A : Type) : Type := DB -> string + (A * DB).

#[global] Instance Tx_ret : MRet Tx := fun A a db => inr (a, db).

#[global] Instance Tx_bind : MBind Tx := fun A B f m db =>
  match m db with
  | inl e => inl e
  | inr (a, db') => f a db'
  end.

Definition throw {A} (e : string) : Tx A := fun _ => inl e.
Definition read : Tx DB := fun db => inr (db, db).
Definition write (db : DB) : Tx unit := fun _ => inr (tt, db).

(** [prisma.$transaction(f)]: commit what [f] wrote if it returns, keep the
    store as it was if it throws; the exception is passed on. *)
Definition transaction {A} (f : Tx A) (db : DB) : (string + A) * DB :=
  match f db with
  | inl e => (inl e, db)
  | inr (a, db') => (inr a, db')
  end.

(** The store raises its error, if any, before the operation takes effect. *)
Definition attempt (w : World) (op : StoreOp) : Tx unit :=
  match storage_fault w op with
  | Some e => throw e
  | None => mret tt
  end.

(* ===================================================================== *)
(** ** The handler *)
(* ===================================================================== *)

(** The optional request body: [{ saldosAplicados?: { latam?, ... } }].  A
    key that is missing holds [VUndefined]. *)
Record Body : Type := mkBody {
  saldosAplicados : option (PerProgram jsval);
}.

(** What reaches the handler: the [id] of the route, the [id] of the
    session ([session?.id]) and the parsed body. *)
Record Request : Type := mkRequest {
  param_id : string;
  session_id : jsval;
  body : Body;
}.

Record ReleaseResult : Type := mkResult {
  compra : PurchaseView;
  commission : option CedenteCommission;
}.

(** The four replies of lib/api. *)
Inductive Response : Type :=
  | ok (data : ReleaseResult)
  | badRequest (msg : string)
  | notFound (msg : string)
  | serverError (msg : string) (detail : string).

(** Modelled from the spec: lib/api is not part of the sources at hand; the
    HTTP status of each reply is the one section 6 of the specification
    gives (400 for precondition failures, 404 for not-found, 500 for
    unexpected failures). *)
Definition http_status (r : Response) : Z :=
  match r with
  | ok _ => 200
  | badRequest _ => 400
  | notFound _ => 404
  | serverError _ _ => 500
  end.

Definition set_points (c : Cedente) (a : PerProgram float) : Cedente :=
  {| cedente_id := cedente_id c;
     pontosLatam := latam a;
     pontosSmiles := smiles a;
     pontosLivelo := livelo a;
     pontosEsfera := esfera a;
     pontosAzul := azul a;
     pontosIberia := iberia a;
     pontosAA := aa a;
     pontosTAP := tap a;
     pontosFlyingBlue := flyingBlue a |}.

Definition points (c : Cedente) : PerProgram float :=
  {| latam := pontosLatam c;
     smiles := pontosSmiles c;
     livelo := pontosLivelo c;
     esfera := pontosEsfera c;
     azul := pontosAzul c;
     iberia := pontosIberia c;
     aa := pontosAA c;
     tap := pontosTAP c;
     flyingBlue := pontosFlyingBlue c |}.

Definition set_status (it : PurchaseItem) (s : jsval) : PurchaseItem :=
  {| item_id := item_id it;
     purchaseId := purchaseId it;
     status := s;
     programTo := programTo it;
     programFrom := programFrom it;
     pointsFinal := pointsFinal it;
     pointsDebitedFromOrigin := pointsDebitedFromOrigin it |}.

(** The effect of [updateMany({ where: { purchaseId: id, status: "PENDING" },
    data: { status: "RELEASED" } })] on one row. *)
Definition release_item (id : string) (it : PurchaseItem) : PurchaseItem :=
  if String.eqb (purchaseId it) id && is_str (status it) "PENDING"
  then set_status it (VStr "RELEASED")
  else it.

(** The [data] of the [purchase.update] that closes the purchase. *)
Definition close_purchase (p : Purchase) (at_ : Z) (userId : string)
    (a : PerProgram float) : Purchase :=
  {| purchase_id := purchase_id p;
     cedenteId := cedenteId p;
     purchase_status := "CLOSED";
     saldoPrevistoLatam := saldoPrevistoLatam p;
     saldoPrevistoSmiles := saldoPrevistoSmiles p;
     saldoPrevistoLivelo := saldoPrevistoLivelo p;
     saldoPrevistoEsfera := saldoPrevistoEsfera p;
     saldoAplicadoLatam := VNum (latam a);
     saldoAplicadoSmiles := VNum (smiles a);
     saldoAplicadoLivelo := VNum (livelo a);
     saldoAplicadoEsfera := VNum (esfera a);
     cedentePayCents := cedentePayCents p;
     liberadoEm := Some at_;
     liberadoPorId := Some userId |}.

(** The [create] and [update] branches of the commission upsert. *)
Definition create_commission (p : Purchase) (amount : float) (userId : string)
    (at_ : Z) : CedenteCommission :=
  {| commission_cedenteId := cedenteId p;
     commission_purchaseId := purchase_id p;
     amountCents := amount;
     commission_status := "PENDING";
     generatedById := userId;
     generatedAt := at_;
     paidAt := None;
     paidById := None |}.

Definition update_commission (c : CedenteCommission) (amount : float)
    (userId : string) : CedenteCommission :=
  {| commission_cedenteId := commission_cedenteId c;
     commission_purchaseId := commission_purchaseId c;
     amountCents := amount;
     commission_status := "PENDING";
     generatedById := userId;
     generatedAt := generatedAt c;
     paidAt := None;
     paidById := None |}.

Definition with_cedentes (db : DB) (m : gmap string Cedente) : DB :=
  {| purchases := purchases db; cedentes := m;
     purchaseItems := purchaseItems db; commissions := commissions db |}.

Definition with_items (db : DB) (l : list PurchaseItem) : DB :=
  {| purchases := purchases db; cedentes := cedentes db;
     purchaseItems := l; commissions := commissions db |}.

Definition with_purchases (db : DB) (m : gmap string Purchase) : DB :=
  {| purchases := m; cedentes := cedentes db;
     purchaseItems := purchaseItems db; commissions := commissions db |}.

Definition with_commissions (db : DB) (m : gmap string CedenteCommission) : DB :=
  {| purchases := purchases db; cedentes := cedentes db;
     purchaseItems := purchaseItems db; commissions := m |}.

(** What the store throws when the row of an [update] is missing.  The
    handler only updates rows it has just read, so the text plays no part. *)
Definition not_found_error : string := "Record to update not found.".

Section Handler.
Context `{RT : JSRuntime}.
Variable w : World.

(** [body?.saldosAplicados?.k]. *)
Definition override (b : Body) (f : PerProgram jsval -> jsval) : jsval :=
  match saldosAplicados b with
  | Some o => f o
  | None => VUndefined
  end.

(** [const current = { latam: clampPts(stillOpen.cedente.pontosLatam), ... }]. *)
Definition current_balances (c : Cedente) : PerProgram float :=
  {| latam := clampPts (VNum (pontosLatam c));
     smiles := clampPts (VNum (pontosSmiles c));
     livelo := clampPts (VNum (pontosLivelo c));
     esfera := clampPts (VNum (pontosEsfera c));
     azul := clampPts (VNum (pontosAzul c));
     iberia := clampPts (VNum (pontosIberia c));
     aa := clampPts (VNum (pontosAA c));
     tap := clampPts (VNum (pontosTAP c));
     flyingBlue := clampPts (VNum (pontosFlyingBlue c)) |}.

(** [const applied = { ... }]: the nine chains of [??], as written. *)
Definition applied_balances (b : Body) (stillOpen : Purchase)
    (current deltas : PerProgram float) : PerProgram float :=
  {| latam := clampPts (override b latam ?? saldoPrevistoLatam stillOpen
                ?? VNum (latam current + latam deltas)%float);
     smiles := clampPts (override b smiles ?? saldoPrevistoSmiles stillOpen
                ?? VNum (smiles current + smiles deltas)%float);
     livelo := clampPts (override b livelo ?? saldoPrevistoLivelo stillOpen
                ?? VNum (livelo current + livelo deltas)%float);
     esfera := clampPts (override b esfera ?? saldoPrevistoEsfera stillOpen
                ?? VNum (esfera current + esfera deltas)%float);
     azul := clampPts (override b azul ?? VNum (azul current + azul deltas)%float);
     iberia := clampPts (override b iberia ?? VNum (iberia current + iberia deltas)%float);
     aa := clampPts (override b aa ?? VNum (aa current + aa deltas)%float);
     tap := clampPts (override b tap ?? VNum (tap current + tap deltas)%float);
     flyingBlue := clampPts (override b flyingBlue
                ?? VNum (flyingBlue current + flyingBlue deltas)%float) |}.

(** [tx.purchase.findUnique({ where: { id }, include: { cedente: true, items: true } })]. *)
Definition tx_purchase_findUnique (id : string) : Tx (option PurchaseView) :=
  attempt w Op_txFind ;;
  db ← read;
  mret (purchase_findUnique true id db).

(** [tx.cedente.update({ where: { id: stillOpen.cedenteId }, data })]. *)
Definition tx_cedente_update (cid : option string) (a : PerProgram float) : Tx unit :=
  attempt w Op_cedenteUpdate ;;
  db ← read;
  match cid with
  | None => throw not_found_error
  | Some c =>
      match cedentes db !! c with
      | None => throw not_found_error
      | Some ced => write (with_cedentes db (<[c := set_points ced a]> (cedentes db)))
      end
  end.

(** [tx.purchaseItem.updateMany(...)]. *)
Definition tx_purchaseItem_updateMany (id : string) : Tx unit :=
  attempt w Op_itemUpdateMany ;;
  db ← read;
  write (with_items db (map (release_item id) (purchaseItems db))).

(** [tx.purchase.update({ where: { id }, data, include })]. *)
Definition tx_purchase_update (id userId : string) (a : PerProgram float)
  : Tx PurchaseView :=
  attempt w Op_purchaseUpdate ;;
  db ← read;
  match purchases db !! id with
  | None => throw not_found_error
  | Some p =>
      let db' := with_purchases db (<[id := close_purchase p (now w) userId a]> (purchases db)) in
      write db' ;;
      match purchase_findUnique true id db' with
      | Some v => mret v
      | None => throw not_found_error
      end
  end.

(** [tx.cedenteCommission.upsert({ where: { purchaseId }, create, update })]. *)
Definition tx_cedenteCommission_upsert (p : Purchase) (amount : float)
    (userId : string) : Tx CedenteCommission :=
  attempt w Op_commissionUpsert ;;
  db ← read;
  let c := match commissions db !! purchase_id p with
           | None => create_commission p amount userId (now w)
           | Some old => update_commission old amount userId
           end in
  write (with_commissions db (<[purchase_id p := c]> (commissions db))) ;;
  mret c.

(** The callback given to [prisma.$transaction]. *)
Definition release_tx (id userId : string) (b : Body) : Tx ReleaseResult :=
  found ← tx_purchase_findUnique id;
  match found with
  | None => throw "Compra não encontrada."
  | Some stillOpen =>
      if negb (String.eqb (purchase_status (row stillOpen)) "OPEN")
      then throw "Compra já não está OPEN (possível dupla liberação)."
      else
        match cedente stillOpen with
        | None => throw "Cedente não encontrado na compra."
        | Some ced =>
            let current := current_balances ced in
            let deltas := computeProgramDeltas (items stillOpen) in
            let applied := applied_balances b (row stillOpen) current deltas in
            tx_cedente_update (cedenteId (row stillOpen)) applied ;;
            tx_purchaseItem_updateMany id ;;
            closedPurchase ← tx_purchase_update id userId applied;
            let amount := Number (js_or (cedentePayCents (row closedPurchase))
                                        (VNum 0%float)) in
            commission ←
              (if (0 <? amount)%float
               then c ← tx_cedenteCommission_upsert (row closedPurchase) amount userId;
                    mret (Some c)
               else mret None);
            mret {| compra := closedPurchase; commission := commission |}
        end
  end.

Definition release_failed (detail : string) : Response :=
  serverError "Falha ao liberar compra." detail.

(** A [findUnique] outside the transaction: it may fail too. *)
Definition prisma_purchase_findUnique (op : StoreOp) (id : string) (db : DB)
  : string + option PurchaseView :=
  match storage_fault w op with
  | Some e => inl e
  | None => inr (purchase_findUnique false id db)
  end.

(** The store at the second read of the handler and at the start of its
    transaction, when it gets that far: what [recomputeCompra] and the
    other requests made of [db]. *)
Definition state_at_reread (id : string) (db : DB) : DB :=
  concurrent w 2 (fst (recomputeCompra w id (concurrent w 1 db))).

Definition state_before_tx (id : string) (db : DB) : DB :=
  concurrent w 3 (state_at_reread id db).

(** [const userId = String(session?.id || "")]. *)
Definition userId_of (req : Request) : string :=
  String_ (js_or (session_id req) (VStr "")).

(** [export async function POST(req, ctx)]: the reply and the store it
    leaves. *)
Definition POST (req : Request) (db : DB) : Response * DB :=
  let id := param_id req in
  if String.eqb id "" then (badRequest "id é obrigatório.", db) else
  let userId := userId_of req in
  if String.eqb userId "" then
    (badRequest "Sessão inválida: faça login novamente.", db) else
  match prisma_purchase_findUnique Op_findBase id db with
  | inl e => (release_failed e, db)
  | inr None => (notFound "Compra não encontrada.", db)
  | inr (Some compraBase) =>
      if negb (String.eqb (purchase_status (row compraBase)) "OPEN")
      then (badRequest "Só pode liberar compra OPEN.", db)
      else
        let db1 := concurrent w 1 db in
        match recomputeCompra w id db1 with
        | (db1', Some e) => (release_failed e, db1')
        | (db1', None) =>
            let db2 := concurrent w 2 db1' in
            match prisma_purchase_findUnique Op_findCompra id db2 with
            | inl e => (release_failed e, db2)
            | inr None => (notFound "Compra não encontrada (pós-recompute).", db2)
            | inr (Some compra) =>
                if negb (String.eqb (purchase_status (row compra)) "OPEN")
                then (badRequest "Só pode liberar compra OPEN.", db2)
                else
                  match cedente compra with
                  | None => (badRequest "Cedente não encontrado na compra.", db2)
                  | Some _ =>
                      let db3 := concurrent w 3 db2 in
                      match transaction (release_tx id userId (body req)) db3 with
                      | (inl e, db') => (release_failed e, db')
                      | (inr result, db') => (ok result, db')
                      end
                  end
            end
        end
  end.

End Handler.

(* ===================================================================== *)
(** ** The specification's reading of the handler *)
(* ===================================================================== *)

(** The definitions of this part follow the words of the specification;
    the theorems compare them with the code above. *)

(** A non-negative integer, as a number. *)
Definition is_nonneg_int (x : float) : bool :=
  match to_Z x with
  | Some z => 0 <=? z
  | None => false
  end.

(** The wire form of each program key. *)
Definition wire_name (k : ProgramKey) : string :=
  match k with
  | K_latam => "LATAM" | K_smiles => "SMILES" | K_livelo => "LIVELO"
  | K_esfera => "ESFERA" | K_azul => "AZUL" | K_iberia => "IBERIA"
  | K_aa => "AA" | K_tap => "TAP" | K_flyingBlue => "FLYING_BLUE"
  end.

(** The stored predicted balance of a program; only the four legacy
    programs have one. *)
Definition predicted (p : Purchase) (k : ProgramKey) : jsval :=
  match k with
  | K_latam => saldoPrevistoLatam p
  | K_smiles => saldoPrevistoSmiles p
  | K_livelo => saldoPrevistoLivelo p
  | K_esfera => saldoPrevistoEsfera p
  | _ => VUndefined
  end.

Section SpecSide.
Context `{RT : JSRuntime}.

(** clamp(v) of section 4.1: coerce to a number; 0 if not finite;
    otherwise truncate toward zero and floor at 0.  The value is exact:
    [num / den] is the number itself. *)
Definition clamp_spec (v : jsval) : Z :=
  let n := Number v in
  if is_finite n then Z.max 0 (Z.quot (num n) (den n)) else 0.

(** The override the caller supplied for a program. *)
Definition override_of (b : Body) (k : ProgramKey) : jsval :=
  override b (fun o => get o k).

(** The three tiers of section 4.2, step 4, highest first. *)
Definition resolved_balance (b : Body) (p : Purchase)
    (current deltas : PerProgram float) (k : ProgramKey) : jsval :=
  if negb (nullish (override_of b k)) then override_of b k
  else if legacy k && negb (nullish (predicted p k)) then predicted p k
  else VNum (get current k + get deltas k)%float.

(** What one item does to the delta of program [k], given the delta [d]
    accumulated so far. *)
Definition item_effect (it : PurchaseItem) (k : ProgramKey) (d : float) : float :=
  if is_canceled it then d
  else
    let d1 := match toProgramKey (programTo it) with
              | Some k' => if decide (k' = k)
                           then (d + clampPts (pointsFinal it))%float else d
              | None => d
              end in
    match toProgramKey (programFrom it) with
    | Some k' => if decide (k' = k)
                 then (d1 - clampPts (pointsDebitedFromOrigin it))%float else d1
    | None => d1
    end.

(** The same computation on exact integers. *)
Definition delta_stepZ (out : PerProgram Z) (it : PurchaseItem) : PerProgram Z :=
  if is_canceled it then out
  else
    let out1 := match toProgramKey (programTo it) with
                | Some k => upd out k (fun x => x + clamp_spec (pointsFinal it))
                | None => out
                end in
    match toProgramKey (programFrom it) with
    | Some k => upd out1 k (fun x => x - clamp_spec (pointsDebitedFromOrigin it))
    | None => out1
    end.

Definition exact_deltas (l : list PurchaseItem) : PerProgram Z :=
  fold_left delta_stepZ l (per_program 0).

(** The points an item moves: what it credits plus what it debits. *)
Definition moved (it : PurchaseItem) : Z :=
  if is_canceled it then 0
  else
    match toProgramKey (programTo it) with
    | Some _ => clamp_spec (pointsFinal it)
    | None => 0
    end
    + match toProgramKey (programFrom it) with
      | Some _ => clamp_spec (pointsDebitedFromOrigin it)
      | None => 0
      end.

Definition volume (l : list PurchaseItem) : Z :=
  fold_right (fun it acc => moved it + acc) 0 l.

(** The purchase is there and OPEN in [db], as a read would see it. *)
Definition open_view (id : string) (db : DB) (v : PurchaseView) : Prop :=
  purchase_findUnique false id db = Some v
  /\ purchase_status (row v) = "OPEN".

(** The handler gets as far as its second read: the request has an id and
    a session, the purchase is OPEN at the first read, and neither that
    read, [recomputeCompra] nor the second read fails. *)
Definition reaches_reread (w : World) (req : Request) (db : DB) : Prop :=
  param_id req <> ""
  /\ userId_of req <> ""
  /\ storage_fault w Op_findBase = None
  /\ (exists v, open_view (param_id req) db v)
  /\ snd (recomputeCompra w (param_id req) (concurrent w 1 db)) = None
  /\ storage_fault w Op_findCompra = None.

(** The handler gets as far as its transaction: the second read finds the
    purchase OPEN, with its cedente. *)
Definition reaches_tx (w : World) (req : Request) (db : DB) : Prop :=
  reaches_reread w req db
  /\ exists v, open_view (param_id req) (state_at_reread w (param_id req) db) v
               /\ is_Some (cedente v).

End SpecSide.

(** Every entry is at most [B] in absolute value. *)
Definition bounded_by (B : Z) (r : PerProgram Z) : Prop :=
  forall k, Z.abs (get r k) <= B.

(** [pp_map f r]: [f] on each field. *)
Definition pp_map {A B} (f : A -> B) (r : PerProgram A) : PerProgram B :=
  mkPerProgram (f (latam r)) (f (smiles r)) (f (livelo r)) (f (esfera r))
    (f (azul r)) (f (iberia r)) (f (aa r)) (f (tap r)) (f (flyingBlue r)).

(* ===================================================================== *)
(** ** Binary64 representations of small integers *)
(* ===================================================================== *)

Module Repr.

(** [q * 2^k] for [k >= 0]. *)
Definition shiftl_pos (q : positive) (k : Z) : positive :=
  match k with
  | Zpos d => Pos.iter xO q d
  | _ => q
  end.

(** The number of binary digits of a mantissa. *)
Definition digits (q : positive) : Z := Zpos (digits2_pos q).

(** The canonical representation of [+-q] when [q < 2^53]: a 53-bit
    mantissa. *)
Definition canon (s : bool) (q : positive) : spec_float :=
  S754_finite s (shiftl_pos q (53 - digits q)) (digits q - 53).

Definition SF_of_Z (v : Z) : spec_float :=
  match v with
  | Z0 => S754_zero false
  | Zpos q => canon false q
  | Zneg q => canon true q
  end.

Definition signed (s : bool) (q : positive) : Z := cond_Zopp s (Zpos q).

(** A shift record with nothing shifted out. *)
Definition exact_rec (m : positive) : shr_record :=
  {| shr_m := Zpos m; shr_r := false; shr_s := false |}.

End Repr.

(* ===================================================================== *)
(** ** A sample store, for the examples *)
(* ===================================================================== *)

Module Sample.
Local Open Scope string_scope.

(** A small runtime: it reads strings of decimal digits (the empty string
    is 0, anything else is NaN), prints integers in decimal, and takes every
    string for ASCII text. *)
Definition decimal_runtime : JSRuntime.
Proof.
  refine {| StringToNumber := fun s =>
              match NilEmpty.uint_of_string s with
              | Some u => of_Z (Z.of_uint u)
              | None => nan
              end;
            NumberToString := fun n =>
              match to_Z n with
              | Some z => NilZero.string_of_int (Z.to_int z)
              | None => "NaN"
              end;
            toUpperCase := ascii_toUpperCase;
            toLowerCase := ascii_toLowerCase;
            trim := ascii_trim |}.
  - reflexivity.
  - reflexivity.
  - reflexivity.
  - abstract (
      assert (Hw : forall c, is_white (upper_ascii c) = is_white c)
        by (intros [[] [] [] [] [] [] [] []]; reflexivity);
      assert (Hs : forall s, ascii_trimStart (ascii_toUpperCase s)
                             = ascii_toUpperCase (ascii_trimStart s))
        by (induction s as [|c s IH]; [reflexivity|];
            cbn [ascii_toUpperCase ascii_trimStart]; rewrite Hw;
            destruct (is_white c); [exact IH | reflexivity]);
      assert (He : forall s, ascii_trimEnd (ascii_toUpperCase s)
                             = ascii_toUpperCase (ascii_trimEnd s))
        by (induction s as [|c s IH]; [reflexivity|];
            cbn [ascii_toUpperCase ascii_trimEnd]; rewrite IH;
            destruct (ascii_trimEnd s); cbn [ascii_toUpperCase]; [|reflexivity];
            rewrite Hw; destruct (is_white c); reflexivity);
      intros s; unfold ascii_trim; rewrite Hs, He; reflexivity).
  - abstract (
      assert (Hw : forall c, is_white (lower_ascii c) = is_white c)
        by (intros [[] [] [] [] [] [] [] []]; reflexivity);
      assert (Hs : forall s, ascii_trimStart (ascii_toLowerCase s)
                             = ascii_toLowerCase (ascii_trimStart s))
        by (induction s as [|c s IH]; [reflexivity|];
            cbn [ascii_toLowerCase ascii_trimStart]; rewrite Hw;
            destruct (is_white c); [exact IH | reflexivity]);
      assert (He : forall s, ascii_trimEnd (ascii_toLowerCase s)
                             = ascii_toLowerCase (ascii_trimEnd s))
        by (induction s as [|c s IH]; [reflexivity|];
            cbn [ascii_toLowerCase ascii_trimEnd]; rewrite IH;
            destruct (ascii_trimEnd s); cbn [ascii_toLowerCase]; [|reflexivity];
            rewrite Hw; destruct (is_white c); reflexivity);
      intros s; unfold ascii_trim; rewrite Hs, He; reflexivity).
  - abstract (
      assert (Hh : forall s, match ascii_trimStart s with
                             | String c _ => is_white c = false
                             | EmptyString => True
                             end)
        by (induction s as [|c s IH]; [exact I|]; cbn [ascii_trimStart];
            destruct (is_white c) eqn:E; [exact IH | exact E]);
      assert (He : forall s, ascii_trimEnd (ascii_trimEnd s) = ascii_trimEnd s)
        by (induction s as [|c s IH]; [reflexivity|]; cbn [ascii_trimEnd];
            destruct (ascii_trimEnd s) as [|c' r] eqn:E;
            [destruct (is_white c) eqn:Ew; [reflexivity|];
             cbn [ascii_trimEnd]; rewrite Ew; reflexivity
            |change (ascii_trimEnd (String c (String c' r))) with
               (match ascii_trimEnd (String c' r) with
                | EmptyString => if is_white c then EmptyString else String c EmptyString
                | r' => String c r'
                end); rewrite IH; reflexivity]);
      intros s; unfold ascii_trim;
      assert (Hf : ascii_trimStart (ascii_trimEnd (ascii_trimStart s))
                   = ascii_trimEnd (ascii_trimStart s))
        by (specialize (Hh s); destruct (ascii_trimStart s) as [|c r]; [reflexivity|];
            cbn [ascii_trimEnd]; destruct (ascii_trimEnd r);
            rewrite ?Hh; cbn [ascii_trimStart]; rewrite Hh; reflexivity);
      rewrite Hf; apply He).
  - abstract (
      induction s as [|c s IH]; [reflexivity|]; cbn [ascii_toUpperCase]; rewrite IH;
      f_equal; destruct c as [[] [] [] [] [] [] [] []]; reflexivity).
  - abstract (
      induction s as [|c s IH]; [reflexivity|]; cbn [ascii_toLowerCase]; rewrite IH;
      f_equal; destruct c as [[] [] [] [] [] [] [] []]; reflexivity).
Defined.

(** The handler runs alone and the store never fails. *)
Definition quiet : World :=
  {| now := 1767225600000;
     recomputeCompra := fun _ db => (db, None);
     concurrent := fun _ db => db;
     storage_fault := fun _ => None |}.

(** The store fails at the bulk update of the items. *)
Definition failing_items : World :=
  {| now := 1767225600000;
     recomputeCompra := fun _ db => (db, None);
     concurrent := fun _ db => db;
     storage_fault := fun op =>
       match op with
       | Op_itemUpdateMany => Some "connection lost"
       | _ => None
       end |}.

Definition ana : Cedente :=
  mkCedente "c1" 100 10 0 0 7 0 0 0 0.

(** An OPEN purchase of Ana: 150 predicted for LATAM, 5000 cents to pay. *)
Definition compra1 : Purchase :=
  mkPurchase "p1" (Some "c1") "OPEN"
    (VNum 150) VNull VNull VNull VNull VNull VNull VNull
    (VNum 5000) None None.

(** The same purchase with nothing to pay. *)
Definition compra1_free : Purchase :=
  mkPurchase "p1" (Some "c1") "OPEN"
    (VNum 150) VNull VNull VNull VNull VNull VNull VNull
    (VNum 0) None None.

Definition item1 : PurchaseItem :=
  mkItem "i1" "p1" (VStr "PENDING") (VStr "LATAM") (VStr "SMILES") (VNum 20) (VNum 50).
Definition item2 : PurchaseItem :=
  mkItem "i2" "p1" (VStr "CANCELED") (VStr "AZUL") VNull (VNum 900) (VNum 0).
Definition item3 : PurchaseItem :=
  mkItem "i3" "p2" (VStr "PENDING") (VStr "TAP") VNull (VNum 5) (VNum 0).
Definition item4 : PurchaseItem :=
  mkItem "i4" "p1" (VStr "PENDING") (VStr "azul") (VStr "unknown") (VNum 3) (VNum 9).

(** A purchase of Ana released earlier. *)
Definition compra2 : Purchase :=
  mkPurchase "p2" (Some "c1") "CLOSED"
    VNull VNull VNull VNull (VNum 100) (VNum 10) (VNum 0) (VNum 0)
    (VNum 0) (Some 1767000000000) (Some "u1").

(** An item whose programs do not resolve. *)
Definition item5 : PurchaseItem :=
  mkItem "i5" "p1" (VStr "PENDING") (VStr "milhas") VNull (VNum 40) (VNum 40).

Definition store : DB :=
  {| purchases := {[ "p1" := compra1; "p2" := compra2 ]};
     cedentes := {[ "c1" := ana ]};
     purchaseItems := [item1; item2; item3; item4];
     commissions := ∅ |}.

Definition store_free : DB :=
  {| purchases := {[ "p1" := compra1_free ]};
     cedentes := {[ "c1" := ana ]};
     purchaseItems := [item1; item2; item3; item4];
     commissions := ∅ |}.

(** A commission of 100 cents for the purchase, already paid. *)
Definition paid : CedenteCommission :=
  mkCommission (Some "c1") "p1" 100 "PAID" "u0" 1766000000000
    (Some 1766500000000) (Some "u0").

Definition store_paid : DB :=
  {| purchases := {[ "p1" := compra1; "p2" := compra2 ]};
     cedentes := {[ "c1" := ana ]};
     purchaseItems := [item1; item2; item3; item4];
     commissions := {[ "p1" := paid ]} |}.

Definition no_overrides : Body := {| saldosAplicados := None |}.

Definition latam_999 : Body :=
  {| saldosAplicados := Some (upd (per_program VUndefined) K_latam (fun _ => VNum 999)) |}.

Definition request : Request :=
  {| param_id := "p1"; session_id := VStr "u1"; body := no_overrides |}.

Definition request2 : Request :=
  {| param_id := "p2"; session_id := VStr "u1"; body := no_overrides |}.

(** Between the second read and the transaction, another request takes
    the cedente off the purchase. *)
Definition unlink (db : DB) : DB :=
  with_purchases db
    (<["p1" := mkPurchase "p1" None "OPEN"
                 (VNum 150) VNull VNull VNull VNull VNull VNull VNull
                 (VNum 5000) None None]> (purchases db)).

Definition racing : World :=
  {| now := 1767225600000;
     recomputeCompra := fun _ db => (db, None);
     concurrent := fun k db => if Nat.eqb k 3 then unlink db else db;
     storage_fault := fun _ => None |}.

(** A store whose purchase has no cedente. *)
Definition store_unlinked : DB := unlink store.

(** Three credits to LATAM, one of them of 2^53 points. *)
Definition huge : PurchaseItem :=
  mkItem "h1" "p9" (VStr "PENDING") (VStr "LATAM") VNull (VNum 9007199254740992) (VNum 0).
Definition one : PurchaseItem :=
  mkItem "h2" "p9" (VStr "PENDING") (VStr "LATAM") VNull (VNum 1) (VNum 0).

End Sample.

(* ===================================================================== *)
(** ** Credits and debits of a list of items *)
(* ===================================================================== *)

Section DeltaSums.
Context `{RT : JSRuntime}.

(** The points one item credits to program [k], and the points it debits
    from it, as exact integers. *)
Definition credit_of (it : PurchaseItem) (k : ProgramKey) : Z :=
  if is_canceled it then 0
  else match toProgramKey (programTo it) with
       | Some k' => if decide (k' = k) then clamp_spec (pointsFinal it) else 0
       | None => 0
       end.

Definition debit_of (it : PurchaseItem) (k : ProgramKey) : Z :=
  if is_canceled it then 0
  else match toProgramKey (programFrom it) with
       | Some k' => if decide (k' = k) then clamp_spec (pointsDebitedFromOrigin it) else 0
       | None => 0
       end.

Definition credited (l : list PurchaseItem) (k : ProgramKey) : Z :=
  fold_right (fun it acc => credit_of it k + acc) 0 l.

Definition debited (l : list PurchaseItem) (k : ProgramKey) : Z :=
  fold_right (fun it acc => debit_of it k + acc) 0 l.

(** The points the items move on program [k]: what they credit to it plus
    what they debit from it. *)
Definition volume_on (l : list PurchaseItem) (k : ProgramKey) : Z :=
  credited l k + debited l k.

(** An item the loop of [computeProgramDeltas] passes over: it is CANCELED,
    or neither of its programs resolves. *)
Definition inert (it : PurchaseItem) : bool :=
  is_canceled it
  || match toProgramKey (programTo it), toProgramKey (programFrom it) with
     | None, None => true
     | _, _ => false
     end.

End DeltaSums.

(* ===================================================================== *)
(** ** More worlds for the examples *)
(* ===================================================================== *)

#[global] Instance StoreOp_eq_dec : EqDecision StoreOp.
Proof. solve_decision. Defined.

Module Sample2.
Import Sample.
Local Open Scope string_scope.

(** The store fails at one operation of the handler. *)
Definition failing_at (op0 : StoreOp) : World :=
  {| now := 1767225600000;
     recomputeCompra := fun _ db => (db, None);
     concurrent := fun _ db => db;
     storage_fault := fun op =>
       if decide (op = op0) then Some "connection lost" else None |}.

(** [recomputeCompra] throws. *)
Definition recompute_throws : World :=
  {| now := 1767225600000;
     recomputeCompra := fun _ db => (db, Some "recompute failed");
     concurrent := fun _ db => db;
     storage_fault := fun _ => None |}.

(** Another request releases the purchase, or deletes it. *)
Definition close_p1 (db : DB) : DB :=
  with_purchases db
    (<["p1" := mkPurchase "p1" (Some "c1") "CLOSED"
                 (VNum 150) VNull VNull VNull (VNum 150) (VNum 0) (VNum 0) (VNum 0)
                 (VNum 5000) (Some 1767225500000) (Some "u2")]> (purchases db)).

Definition drop_p1 (db : DB) : DB :=
  with_purchases db (delete "p1" (purchases db)).

(** The other request commits [f] at the [k]-th await of the handler. *)
Definition interleaved (k : nat) (f : DB -> DB) : World :=
  {| now := 1767225600000;
     recomputeCompra := fun _ db => (db, None);
     concurrent := fun n db => if Nat.eqb n k then f db else db;
     storage_fault := fun _ => None |}.

(** A cedente whose stored balances are not all non-negative integers. *)
Definition bia : Cedente :=
  mkCedente "c2" 0 12.75 0 0 (-30) 0 0 0 0.

(** An OPEN purchase of Bia, with no predicted balance and nothing to pay. *)
Definition compra3 : Purchase :=
  mkPurchase "p3" (Some "c2") "OPEN"
    VNull VNull VNull VNull VNull VNull VNull VNull
    (VNum 0) None None.

Definition item6 : PurchaseItem :=
  mkItem "i6" "p3" (VStr "PENDING") (VStr "AZUL") (VStr "SMILES") (VNum 3) (VNum 50).

Definition store3 : DB :=
  {| purchases := {[ "p3" := compra3 ]};
     cedentes := {[ "c2" := bia ]};
     purchaseItems := [item6];
     commissions := ∅ |}.

Definition request3 : Request :=
  {| param_id := "p3"; session_id := VStr "u1"; body := no_overrides |}.

(** Three credits of 2^52 points, each to a program of its own. *)
Definition half_latam : PurchaseItem :=
  mkItem "h3" "p9" (VStr "PENDING") (VStr "LATAM") VNull (VNum 4503599627370496) (VNum 0).
Definition half_smiles : PurchaseItem :=
  mkItem "h4" "p9" (VStr "PENDING") (VStr "SMILES") VNull (VNum 4503599627370496) (VNum 0).
Definition half_azul : PurchaseItem :=
  mkItem "h5" "p9" (VStr "PENDING") (VStr "AZUL") VNull (VNum 4503599627370496) (VNum 0).

Definition anonymous : Request :=
  {| param_id := "p1"; session_id := VNull; body := no_overrides |}.

End Sample2.

(* ===================================================================== *)
(** * The cedentes list (client component)

    The pure helpers of the page that lists the cedentes: the mask of a
    CPF, the WhatsApp link of a phone number, and the two updates of the
    selection, a [Set<string>] held as a [gset string]. *)
(* ===================================================================== *)

Module CedentesList.
Local Open Scope string_scope.

Definition is_digit (c : ascii) : bool :=
  let n := nat_of_ascii c in
  ((48 <=? n) && (n <=? 57))%nat.

(** [s.replace(/\D+/g, "")]: the digits of [s], in order. *)
Fixpoint digits_of (s : string) : string :=
  match s with
  | EmptyString => EmptyString
  | String c r => if is_digit c then String c (digits_of r) else digits_of r
  end.

(** [s.slice(i, j)], for [0 <= i <= j]. *)
Definition slice (s : string) (i j : nat) : string := substring i (j - i) s.

(** [function maskCpf(cpf: string)]. *)
Definition maskCpf (cpf : string) : string :=
  let v := digits_of cpf in
  if negb (Nat.eqb (String.length v) 11)
  then (if String.eqb cpf "" then "-" else cpf)
  else "***.***." ++ slice v 6 9 ++ "-" ++ slice v 9 11.

(** [while (d.startsWith("00")) d = d.slice(2)]. *)
Fixpoint strip00 (d : string) : string :=
  match d with
  | String a (String b r) =>
      if Ascii.eqb a "0" && Ascii.eqb b "0" then strip00 r else d
  | _ => d
  end.

(** [function whatsappHref(telefone?: string | null)]; [None] is [null]
    or [undefined], on both sides. *)
Definition whatsappHref (telefone : option string) : option string :=
  let d := digits_of (default "" telefone) in
  if String.eqb d "" then None
  else
    let d := strip00 d in
    let d := if Nat.eqb (String.length d) 10 || Nat.eqb (String.length d) 11
             then "55" ++ d else d in
    if Nat.ltb (String.length d) 12 then None
    else Some ("https://wa.me/" ++ d).

(** [function toggleOne(id: string)], as the update of the selection. *)
Definition toggleOne (id : string) (prev : gset string) : gset string :=
  if decide (id ∈ prev) then prev ∖ {[ id ]} else prev ∪ {[ id ]}.

(** [function toggleAll(ids: string[])], as the update of the selection. *)
Definition toggleAll (ids : list string) (prev : gset string) : gset string :=
  if Nat.eqb (length ids) 0 then ∅
  else if Nat.eqb (size prev) (length ids) then ∅
  else list_to_set ids.

(** Every character of [s] is a digit. *)
Fixpoint all_digits (s : string) : bool :=
  match s with
  | EmptyString => true
  | String c r => is_digit c && all_digits r
  end.

End CedentesList.

Export CedentesList.

(* ===================================================================== *)
(** * The session route (app/api/auth/route.ts)

    The route that seeds the users, logs them in and out, and sets their
    passwords, run against the table of users.

    Modelling choices.
    - The table of users is a finite map keyed by [login], the unique key
      of every query of the route.
    - [sha256] is an interface, as the conversions of numbers are: the hash
      of node:crypto, of which nothing is assumed.
    - Every query may fail: an oracle of the [AuthWorld] says which one
      does, gives the ids the store draws for new rows, and the messages of
      the two errors the route can raise by itself (an update of a missing
      row, a method called on a value that has none).  A failed query
      writes nothing; what was written before it stays, since the route
      opens no transaction.
    - One request runs at a time.
    - The session cookie is kept as its payload, before
      [b64urlEncode(JSON.stringify(payload))]; the headers of the replies
      and the console are left out. *)
(* ===================================================================== *)

Class Crypto : Type := {
  sha256 : string -> string;
}.

Module Auth.
Local Open Scope string_scope.

(** A row of the table; [user_id] is its [id]. *)
Record User : Type := mkUser {
  user_id : string;
  login : string;
  name : string;
  email : option string;
  team : string;
  role : string;
  passwordHash : string;
}.

(** [type SessionCookie]. *)
Record SessionCookie : Type := mkSession {
  cookie_id : string;
  cookie_login : string;
  cookie_role : string;
  cookie_team : string;
}.

(** The queries of the route that are not wrapped in a [try] of their own. *)
Inductive AuthOp : Type :=
  | Op_seedFind | Op_seedCreate | Op_seedUpdate | Op_loginFind | Op_setPassword.

Record AuthWorld : Type := mkAuthWorld {
  new_id : gmap string User -> string;
  delete_fails : string -> bool;
  fault : AuthOp -> option string;
  missing_row : string;
  not_a_function : string;
}.

(** A sequence of queries: it reads and writes the table and may throw;
    what it wrote before it threw stays written. *)
Definition IO (A : Type) : Type :=
  gmap string User -> (string + A) * gmap string User.

#[global] Instance IO_ret : MRet IO := fun A a db => (inr a, db).

#[global] Instance IO_bind : MBind IO := fun A B f m db =>
  match m db with
  | (inl e, db') => (inl e, db')
  | (inr a, db') => f a db'
  end.

Definition raise {A} (e : string) : IO A := fun db => (inl e, db).
Definition get_users : IO (gmap string User) := fun db => (inr db, db).
Definition put_users (db : gmap string User) : IO unit := fun _ => (inr tt, db).

Definition attempt (w : AuthWorld) (op : AuthOp) : IO unit :=
  match fault w op with
  | Some e => raise e
  | None => mret tt
  end.

Definition TEAM : string := "@loiro_das_milhas".

Definition OLD_SEED_LOGINS : list string := ["jephesson"; "lucas"; "paola"; "eduarda"].

Record SeedUser : Type := mkSeed {
  seed_login : string;
  seed_name : string;
  seed_email : option string;
  seed_role : string;
  seed_password : string;
}.

Definition SEED_USERS : list SeedUser :=
  [ mkSeed "rafael" "Rafael Nascimento" None "admin" "1234" ].

Section Norm.
Context `{RT : JSRuntime}.

(** [(s ?? "").trim().toLowerCase()] on a string. *)
Definition norm_str (s : string) : string := toLowerCase (trim s).

(** [const norm = (s) => (s ?? "").trim().toLowerCase()]: a value that is
    neither nullish nor a string has no [trim] to call. *)
Definition norm (w : AuthWorld) (s : jsval) : string + string :=
  match s with
  | VUndefined | VNull => inr (norm_str "")
  | VStr s => inr (norm_str s)
  | VBool _ | VNum _ => inl (not_a_function w)
  end.

End Norm.

Section Route.
Context `{RT : JSRuntime} `{CR : Crypto}.
Variable w : AuthWorld.

(** One turn of the loop of [pruneOldSeedUsers]: the [delete] and its
    [catch], which swallows every failure. *)
Definition delete_quietly (db : gmap string User) (l : string) : gmap string User :=
  if delete_fails w l then db else delete l db.

(** [async function pruneOldSeedUsers()]. *)
Definition pruneOldSeedUsers (db : gmap string User) : gmap string User :=
  fold_left delete_quietly OLD_SEED_LOGINS db.

(** One turn of the loop of [seedUsersToDb]. *)
Definition seed_one (u : SeedUser) : IO unit :=
  let l := norm_str (seed_login u) in
  attempt w Op_seedFind ;;
  db ← get_users;
  match db !! l with
  | None =>
      attempt w Op_seedCreate ;;
      put_users (<[l := {| user_id := new_id w db;
                           login := l;
                           name := seed_name u;
                           email := seed_email u;
                           team := TEAM;
                           role := seed_role u;
                           passwordHash := sha256 (seed_password u) |}]> db)
  | Some existing =>
      attempt w Op_seedUpdate ;;
      put_users (<[l := {| user_id := user_id existing;
                           login := login existing;
                           name := seed_name u;
                           email := seed_email u;
                           team := TEAM;
                           role := seed_role u;
                           passwordHash := passwordHash existing |}]> db)
  end.

Fixpoint for_each {A} (f : A -> IO unit) (l : list A) : IO unit :=
  match l with
  | [] => mret tt
  | x :: r => f x ;; for_each f r
  end.

(** [async function seedUsersToDb()]. *)
Definition seedUsersToDb : IO unit :=
  (db ← get_users; put_users (pruneOldSeedUsers db)) ;;
  for_each seed_one SEED_USERS.

(** The JSON of a reply: [{ ok: true }], [{ ok: true, ping: true }],
    [{ ok: true, message }] or [{ ok: false, error }]. *)
Inductive Json : Type :=
  | J_ok
  | J_ping
  | J_message (message : string)
  | J_error (error : string).

(** What a reply does to the cookie [tm.session]. *)
Inductive CookieOp : Type :=
  | NoCookie
  | SetSession (payload : SessionCookie)
  | ClearSession.

Record Reply : Type := mkReply {
  status : Z;
  json : Json;
  cookie : CookieOp;
}.

Definition refuse (s : Z) (e : string) : Reply := mkReply s (J_error e) NoCookie.

(** [export async function GET()]: it has no [try], so a failure of the
    seeding leaves the handler as an exception. *)
Definition GET (db : gmap string User)
  : (string + Reply) * gmap string User :=
  match seedUsersToDb db with
  | (inl e, db') => (inl e, db')
  | (inr _, db') => (inr (mkReply 200 J_ping NoCookie), db')
  end.

(** A request body that is an object: its three fields, [VUndefined] when
    missing. *)
Record ApiBody : Type := mkApiBody {
  action : jsval;
  body_login : jsval;
  body_password : jsval;
}.

(** [function isApiBody(v: unknown)]; [None] is a body that is no object,
    [null] included. *)
Definition isApiBody (v : option ApiBody) : bool :=
  match v with
  | None => false
  | Some b =>
      is_str (action b) "login" || is_str (action b) "setPassword"
      || is_str (action b) "resetSeed" || is_str (action b) "logout"
  end.

Definition session_of (u : User) : SessionCookie :=
  {| cookie_id := user_id u;
     cookie_login := login u;
     cookie_role := role u;
     cookie_team := team u |}.

Definition set_hash (u : User) (h : string) : User :=
  {| user_id := user_id u;
     login := login u;
     name := name u;
     email := email u;
     team := team u;
     role := role u;
     passwordHash := h |}.

(** The branch [raw.action === "login"]. *)
Definition do_login (raw : ApiBody) : IO Reply :=
  seedUsersToDb ;;
  match norm w (body_login raw) with
  | inl e => raise e
  | inr l =>
      let password := String_ (body_password raw ?? VStr "") in
      if String.eqb l "" || String.eqb password ""
      then mret (refuse 400 "Campos obrigatórios ausentes")
      else
        attempt w Op_loginFind ;;
        db ← get_users;
        match db !! l with
        | None => mret (refuse 401 "Usuário não encontrado")
        | Some dbUser =>
            if negb (String.eqb (passwordHash dbUser) (sha256 password))
            then mret (refuse 401 "Senha inválida")
            else mret (mkReply 200 J_ok (SetSession (session_of dbUser)))
        end
  end.

(** The branch [raw.action === "setPassword"]. *)
Definition do_setPassword (raw : ApiBody) : IO Reply :=
  seedUsersToDb ;;
  match norm w (body_login raw) with
  | inl e => raise e
  | inr l =>
      let password := String_ (body_password raw ?? VStr "") in
      if String.eqb l "" || String.eqb password ""
      then mret (refuse 400 "Campos obrigatórios ausentes")
      else
        attempt w Op_setPassword ;;
        db ← get_users;
        match db !! l with
        | None => raise (missing_row w)
        | Some u =>
            put_users (<[l := set_hash u (sha256 password)]> db) ;;
            mret (mkReply 200 J_ok NoCookie)
        end
  end.

(** The body of the [try] of [POST], past the test of [isApiBody]. *)
Definition dispatch (raw : ApiBody) : IO Reply :=
  if is_str (action raw) "resetSeed" then
    seedUsersToDb ;; mret (mkReply 200 (J_message "Seed restaurado") NoCookie)
  else if is_str (action raw) "login" then do_login raw
  else if is_str (action raw) "setPassword" then do_setPassword raw
  else if is_str (action raw) "logout" then mret (mkReply 200 J_ok ClearSession)
  else mret (refuse 400 "Ação desconhecida").

(** [export async function POST(req)]: [raw] is what [req.json()] gave,
    [None] when it failed or gave no object. *)
Definition POST (raw : option ApiBody) (db : gmap string User)
  : Reply * gmap string User :=
  match raw with
  | Some b =>
      if negb (isApiBody raw) then (refuse 400 "Ação inválida", db)
      else
        match dispatch b db with
        | (inl e, db') => (refuse 500 e, db')
        | (inr r, db') => (r, db')
        end
  | None => (refuse 400 "Ação inválida", db)
  end.

End Route.

(** The table once [seedUsersToDb] has run, whether it returned or threw. *)
Definition seeded `{RT : JSRuntime} `{CR : Crypto} (w : AuthWorld)
    (db : gmap string User)
  : gmap string User :=
  snd (seedUsersToDb w db).

(** The store answers every query that is not a delete. *)
Definition no_faults (w : AuthWorld) : Prop := forall op, fault w op = None.

End Auth.

(* ===================================================================== *)
(** ** A sample table of users, for the examples *)
(* ===================================================================== *)

Module AuthSample.
Import Auth.
Local Open Scope string_scope.

(** A stand-in for the hash: it tags its argument. *)
Definition tagging : Crypto := {| sha256 := fun s => "sha256:" ++ s |}.

(** The store answers every query. *)
Definition calm : AuthWorld :=
  {| new_id := fun _ => "u-new";
     delete_fails := fun _ => false;
     fault := fun _ => None;
     missing_row := "Record to update not found.";
     not_a_function := "trim is not a function" |}.

(** The deletes fail, as they do when other rows point to the old users. *)
Definition blocked : AuthWorld :=
  {| new_id := fun _ => "u-new";
     delete_fails := fun _ => true;
     fault := fun _ => None;
     missing_row := "Record to update not found.";
     not_a_function := "trim is not a function" |}.

(** Nothing answers: every query and every delete fails. *)
Definition stalled : AuthWorld :=
  {| new_id := fun _ => "u-other";
     delete_fails := fun _ => true;
     fault := fun _ => Some "connection lost";
     missing_row := "Record to update not found.";
     not_a_function := "trim is not a function" |}.

Definition maria : User :=
  mkUser "u7" "maria" "Maria" None TEAM "staff" "sha256:segredo".

(** A user under an old seed login. *)
Definition lucas : User :=
  mkUser "u2" "lucas" "Lucas" None TEAM "admin" "sha256:abcd".

Definition users : gmap string User := {[ "maria" := maria; "lucas" := lucas ]}.

Definition login_as (l p : string) : ApiBody :=
  mkApiBody (VStr "login") (VStr l) (VStr p).

Definition set_password (l p : string) : ApiBody :=
  mkApiBody (VStr "setPassword") (VStr l) (VStr p).

End AuthSample.

(* ===================================================================== *)
(** * Facts *)
(* ===================================================================== *)

Import Repr.

(* ===================================================================== *)
(** ** Binary64 arithmetic on small integers *)
(* ===================================================================== *)

Lemma SFeqb_refl x : SFeqb x x = match x with S754_nan => false | _ => true end.
Proof.
  destruct x as [s|s| |s m e]; try (destruct s; reflexivity); try reflexivity.
  unfold SFeqb, SFcompare.
  destruct s; rewrite Z.compare_refl, Pos.compare_cont_refl; reflexivity.
Qed.

Lemma is_nan_SF x : is_nan x = match Prim2SF x with S754_nan => true | _ => false end.
Proof.
  unfold is_nan. rewrite FloatAxioms.eqb_spec, SFeqb_refl. destruct (Prim2SF x); reflexivity.
Qed.

Lemma is_infinity_SF x :
  is_infinity x = match Prim2SF x with S754_infinity _ => true | _ => false end.
Proof.
  unfold is_infinity. rewrite FloatAxioms.eqb_spec, FloatAxioms.abs_spec.
  change (Prim2SF infinity) with (S754_infinity false).
  destruct (Prim2SF x) as [s|s| |s m e]; reflexivity.
Qed.

Lemma is_finite_SF x :
  is_finite x = match Prim2SF x with S754_zero _ | S754_finite _ _ _ => true | _ => false end.
Proof.
  unfold is_finite. rewrite is_nan_SF, is_infinity_SF.
  destruct (Prim2SF x); reflexivity.
Qed.

Lemma ltb_zero_SF x :
  PrimFloat.ltb PrimFloat.zero x =
  match Prim2SF x with
  | S754_finite false _ _ | S754_infinity false => true
  | _ => false
  end.
Proof.
  rewrite FloatAxioms.ltb_spec. change (Prim2SF PrimFloat.zero) with (S754_zero false).
  destruct (Prim2SF x) as [s|s| |s m e]; try destruct s; reflexivity.
Qed.

Lemma ltb_x_zero_SF x :
  PrimFloat.ltb x PrimFloat.zero =
  match Prim2SF x with
  | S754_finite true _ _ | S754_infinity true => true
  | _ => false
  end.
Proof.
  rewrite FloatAxioms.ltb_spec. change (Prim2SF PrimFloat.zero) with (S754_zero false).
  destruct (Prim2SF x) as [s|s| |s m e]; try destruct s; reflexivity.
Qed.

Lemma Math_max_zero y :
  Math_max PrimFloat.zero y =
  if is_nan y then nan else if PrimFloat.ltb PrimFloat.zero y then y else PrimFloat.zero.
Proof.
  unfold Math_max.
  change (is_nan PrimFloat.zero) with false. simpl.
  destruct (is_nan y); [reflexivity|].
  destruct (PrimFloat.ltb PrimFloat.zero y); [reflexivity|].
  change (get_sign PrimFloat.zero) with false.
  destruct (PrimFloat.ltb y PrimFloat.zero); reflexivity.
Qed.

Lemma digits_pos q : 1 <= digits q.
Proof. unfold digits. lia. Qed.

Lemma digits_bounds q : 2 ^ (digits q - 1) <= Zpos q < 2 ^ digits q.
Proof.
  unfold digits.
  induction q as [q IH|q IH|]; simpl digits2_pos; rewrite ?Pos2Z.inj_succ.
  - replace (Z.succ (Zpos (digits2_pos q)) - 1) with (Z.succ (Zpos (digits2_pos q) - 1)) by lia.
    rewrite !Z.pow_succ_r by lia. lia.
  - replace (Z.succ (Zpos (digits2_pos q)) - 1) with (Z.succ (Zpos (digits2_pos q) - 1)) by lia.
    rewrite !Z.pow_succ_r by lia. lia.
  - simpl. lia.
Qed.

Lemma digits_le q n : 0 <= n -> Zpos q < 2 ^ n -> digits q <= n.
Proof.
  intros Hn Hq. destruct (Z.le_gt_cases (digits q) n) as [|Hgt]; [assumption|].
  pose proof (digits_bounds q) as [Hlo _].
  assert (2 ^ n <= 2 ^ (digits q - 1)) by (apply Z.pow_le_mono_r; lia).
  lia.
Qed.

Lemma iter_xO_val q d : Zpos (Pos.iter xO q d) = Zpos q * 2 ^ Zpos d.
Proof.
  induction d as [|d IH] using Pos.peano_ind.
  - simpl. lia.
  - rewrite Pos.iter_succ, Pos2Z.inj_succ, Z.pow_succ_r by lia.
    rewrite Pos2Z.inj_xO, IH. lia.
Qed.

Lemma shiftl_pos_val q k : 0 <= k -> Zpos (shiftl_pos q k) = Zpos q * 2 ^ k.
Proof.
  intros Hk. destruct k as [|d|d]; simpl shiftl_pos; [simpl; lia | apply iter_xO_val | lia].
Qed.

Lemma digits_iter_xO q d : digits2_pos (Pos.iter xO q d) = (digits2_pos q + d)%positive.
Proof.
  induction d as [|d IH] using Pos.peano_ind.
  - simpl. lia.
  - rewrite Pos.iter_succ. simpl digits2_pos. rewrite IH. lia.
Qed.

Lemma digits_shiftl_pos q k : 0 <= k -> digits (shiftl_pos q k) = digits q + k.
Proof.
  intros Hk. unfold digits. destruct k as [|d|d]; simpl shiftl_pos; [lia | | lia].
  rewrite digits_iter_xO. lia.
Qed.

Lemma shiftl_pos_add q a b :
  0 <= a -> 0 <= b -> shiftl_pos (shiftl_pos q a) b = shiftl_pos q (a + b).
Proof.
  intros Ha Hb. apply Pos2Z.inj. rewrite !shiftl_pos_val by lia.
  rewrite Z.pow_add_r by lia. lia.
Qed.

Lemma shl_align_shiftl mx ex ex' :
  shl_align mx ex ex' = (shiftl_pos mx (ex - ex'), Z.min ex ex').
Proof.
  unfold shl_align.
  destruct (ex' - ex) as [|d|d] eqn:E.
  - replace (ex - ex') with 0 by lia. simpl. f_equal. lia.
  - replace (ex - ex') with (Zneg d) by lia. simpl. f_equal. lia.
  - replace (ex - ex') with (Zpos d) by lia. simpl. f_equal. lia.
Qed.

Lemma iter_pos_iter {A} (f : A -> A) n x : SpecFloat.iter_pos f n x = Pos.iter f x n.
Proof.
  revert x. induction n as [n IH|n IH|]; intros x; simpl.
  - rewrite !IH. rewrite <- Pos.iter_swap. rewrite <- Pos.iter_swap. reflexivity.
  - rewrite !IH. reflexivity.
  - reflexivity.
Qed.

Lemma shr_1_exact m : shr_1 (exact_rec (xO m)) = exact_rec m.
Proof. reflexivity. Qed.

Lemma iter_shr_1_exact q d :
  Pos.iter shr_1 (exact_rec (Pos.iter xO q d)) d = exact_rec q.
Proof.
  revert q. induction d as [|d IH] using Pos.peano_ind; intros q.
  - reflexivity.
  - rewrite Pos.iter_succ_r. rewrite Pos.iter_succ. rewrite shr_1_exact. apply IH.
Qed.

Lemma shr_exact q k e n :
  0 <= n <= k ->
  shr (exact_rec (shiftl_pos q k)) e n = (exact_rec (shiftl_pos q (k - n)), e + n).
Proof.
  intros H. unfold shr. destruct n as [|d|d]; [| |lia].
  - rewrite Z.sub_0_r, Z.add_0_r. reflexivity.
  - rewrite iter_pos_iter.
    replace (shiftl_pos q k) with (shiftl_pos (shiftl_pos q (k - Zpos d)) (Zpos d)).
    + simpl shiftl_pos at 1. rewrite iter_shr_1_exact. reflexivity.
    + rewrite shiftl_pos_add by lia. f_equal. lia.
Qed.

Lemma fexp_digits d : 1 <= d <= 53 -> fexp prec emax d = d - 53.
Proof. unfold fexp, SpecFloat.emin, prec, emax. lia. Qed.

Lemma binary_round_aux_exact s q k :
  digits q <= 53 -> 53 - digits q <= k ->
  binary_round_aux prec emax s (Zpos (shiftl_pos q k)) (- k) loc_Exact = canon s q.
Proof.
  intros Hd Hk. pose proof (digits_pos q) as Hq.
  unfold binary_round_aux, shr_fexp.
  change (Zdigits2 (Zpos (shiftl_pos q k))) with (digits (shiftl_pos q k)).
  rewrite digits_shiftl_pos by lia.
  replace (digits q + k + - k) with (digits q) by lia.
  rewrite fexp_digits by lia.
  change (shr_record_of_loc (Zpos (shiftl_pos q k)) loc_Exact) with (exact_rec (shiftl_pos q k)).
  rewrite shr_exact by lia.
  replace (k - (digits q - 53 - - k)) with (53 - digits q) by lia.
  replace (- k + (digits q - 53 - - k)) with (digits q - 53) by lia.
  cbn [exact_rec shr_m loc_of_shr_record round_nearest_even shr_r shr_s].
  change (Zdigits2 (Zpos (shiftl_pos q (53 - digits q)))) with (digits (shiftl_pos q (53 - digits q))).
  rewrite digits_shiftl_pos by lia.
  replace (digits q + (53 - digits q) + (digits q - 53)) with (digits q) by lia.
  rewrite fexp_digits by lia.
  change (shr_record_of_loc (Zpos (shiftl_pos q (53 - digits q))) loc_Exact)
    with (exact_rec (shiftl_pos q (53 - digits q))).
  rewrite shr_exact by lia.
  cbn [exact_rec shr_m].
  replace (digits q - 53 + (digits q - 53 - (digits q - 53))) with (digits q - 53) by lia.
  replace (53 - digits q - (digits q - 53 - (digits q - 53))) with (53 - digits q) by lia.
  destruct (Z.leb_spec (digits q - 53) (emax - prec)) as [_|H]; [reflexivity|].
  unfold emax, prec in H. lia.
Qed.

Lemma binary_round_exact s q k :
  digits q <= 53 -> 0 <= k ->
  binary_round prec emax s (shiftl_pos q k) (- k) = canon s q.
Proof.
  intros Hd Hk. pose proof (digits_pos q) as Hq.
  unfold binary_round.
  change (Zpos (digits2_pos (shiftl_pos q k))) with (digits (shiftl_pos q k)).
  rewrite digits_shiftl_pos by lia.
  replace (digits q + k + - k) with (digits q) by lia.
  rewrite fexp_digits by lia.
  rewrite shl_align_shiftl.
  destruct (Z.le_gt_cases (53 - digits q) k) as [Hle|Hgt].
  - replace (- k - (digits q - 53)) with (- (k - (53 - digits q))) by lia.
    assert (Hid : shiftl_pos (shiftl_pos q k) (- (k - (53 - digits q))) = shiftl_pos q k).
    { destruct (k - (53 - digits q)) eqn:E; try reflexivity. lia. }
    rewrite Hid. replace (Z.min (- k) (digits q - 53)) with (- k) by lia.
    apply binary_round_aux_exact; lia.
  - rewrite shiftl_pos_add by lia.
    replace (Z.min (- k) (digits q - 53)) with (- (53 - digits q)) by lia.
    replace (k + (- k - (digits q - 53))) with (53 - digits q) by lia.
    apply binary_round_aux_exact; lia.
Qed.

Lemma binary_normalize_exact v k :
  Z.abs v < 2 ^ 53 -> 0 <= k ->
  binary_normalize prec emax (v * 2 ^ k) (- k) false = SF_of_Z v.
Proof.
  intros Hv Hk. destruct v as [|q|q]; simpl SF_of_Z.
  - reflexivity.
  - rewrite <- shiftl_pos_val by lia. simpl binary_normalize.
    apply binary_round_exact; [apply digits_le; lia | lia].
  - change (Zneg q) with (- Zpos q). rewrite Z.mul_opp_l, <- shiftl_pos_val by lia.
    simpl binary_normalize.
    apply binary_round_exact; [apply digits_le; lia | lia].
Qed.

Lemma canon_valid s q : digits q <= 53 -> valid_binary (canon s q) = true.
Proof.
  intros Hd. pose proof (digits_pos q) as Hq.
  unfold canon, SpecFloat.valid_binary, bounded, canonical_mantissa.
  change (Zpos (digits2_pos (shiftl_pos q (53 - digits q)))) with (digits (shiftl_pos q (53 - digits q))).
  rewrite digits_shiftl_pos by lia.
  replace (digits q + (53 - digits q) + (digits q - 53)) with (digits q) by lia.
  rewrite fexp_digits by lia.
  rewrite Z.eqb_refl. simpl. apply Z.leb_le. unfold emax, prec. lia.
Qed.

Lemma SF_of_Z_valid v : Z.abs v < 2 ^ 53 -> valid_binary (SF_of_Z v) = true.
Proof.
  intros Hv. destruct v as [|q|q]; cbn [SF_of_Z]; [reflexivity| |];
    apply canon_valid, digits_le; lia.
Qed.

Lemma Prim2SF_of_Z v : Z.abs v < 2 ^ 53 -> Prim2SF (of_Z v) = SF_of_Z v.
Proof.
  intros Hv. unfold of_Z.
  pose proof (binary_normalize_exact v 0 Hv (Z.le_refl 0)) as H.
  rewrite Z.pow_0_r, Z.mul_1_r in H. change (- 0) with 0 in H. rewrite H.
  apply Prim2SF_SF2Prim, SF_of_Z_valid, Hv.
Qed.

Lemma SF_of_Z_signed s q : SF_of_Z (signed s q) = canon s q.
Proof. destruct s; reflexivity. Qed.

Lemma signed_shift s q k : 0 <= k -> cond_Zopp s (Zpos (shiftl_pos q k)) = signed s q * 2 ^ k.
Proof.
  intros Hk. rewrite shiftl_pos_val by lia. destruct s; simpl; lia.
Qed.

Lemma aligned_canon q ez :
  digits q <= 53 -> ez <= digits q - 53 ->
  fst (shl_align (shiftl_pos q (53 - digits q)) (digits q - 53) ez) = shiftl_pos q (- ez).
Proof.
  intros Hd He. rewrite shl_align_shiftl. cbn [fst].
  rewrite shiftl_pos_add by lia. f_equal. lia.
Qed.

Lemma SFadd_canon sa qa sb qb :
  digits qa <= 53 -> digits qb <= 53 ->
  Z.abs (signed sa qa + signed sb qb) < 2 ^ 53 ->
  SFadd prec emax (canon sa qa) (canon sb qb) = SF_of_Z (signed sa qa + signed sb qb).
Proof.
  intros Ha Hb Hs. unfold SFadd, canon.
  set (ez := Z.min (digits qa - 53) (digits qb - 53)).
  rewrite !aligned_canon by lia.
  rewrite !signed_shift by lia.
  rewrite <- Z.mul_add_distr_r.
  pose proof (binary_normalize_exact (signed sa qa + signed sb qb) (- ez)) as H.
  rewrite Z.opp_involutive in H. apply H; lia.
Qed.

Lemma SFsub_canon sa qa sb qb :
  digits qa <= 53 -> digits qb <= 53 ->
  Z.abs (signed sa qa - signed sb qb) < 2 ^ 53 ->
  SFsub prec emax (canon sa qa) (canon sb qb) = SF_of_Z (signed sa qa - signed sb qb).
Proof.
  intros Ha Hb Hs. unfold SFsub, canon.
  set (ez := Z.min (digits qa - 53) (digits qb - 53)).
  rewrite !aligned_canon by lia.
  rewrite !signed_shift by lia.
  rewrite <- Z.mul_sub_distr_r.
  pose proof (binary_normalize_exact (signed sa qa - signed sb qb) (- ez)) as H.
  rewrite Z.opp_involutive in H. apply H; lia.
Qed.

Lemma Z_as_signed v : v <> 0 -> exists s q, v = signed s q.
Proof.
  destruct v as [|q|q]; intros H; [congruence | exists false, q | exists true, q]; reflexivity.
Qed.

Lemma signed_digits s q : Z.abs (signed s q) < 2 ^ 53 -> digits q <= 53.
Proof. intros H. apply digits_le; [lia|]. destruct s; simpl in H; lia. Qed.

Lemma SFadd_exact a b :
  Z.abs a < 2 ^ 53 -> Z.abs b < 2 ^ 53 -> Z.abs (a + b) < 2 ^ 53 ->
  SFadd prec emax (SF_of_Z a) (SF_of_Z b) = SF_of_Z (a + b).
Proof.
  intros Ha Hb Hs.
  destruct (Z.eq_dec a 0) as [->|Na].
  { destruct b; reflexivity. }
  destruct (Z.eq_dec b 0) as [->|Nb].
  { rewrite Z.add_0_r. destruct a; reflexivity. }
  destruct (Z_as_signed a Na) as (sa & qa & ->).
  destruct (Z_as_signed b Nb) as (sb & qb & ->).
  rewrite !SF_of_Z_signed.
  apply SFadd_canon; eauto using signed_digits.
Qed.

Lemma SFsub_exact a b :
  Z.abs a < 2 ^ 53 -> Z.abs b < 2 ^ 53 -> Z.abs (a - b) < 2 ^ 53 ->
  SFsub prec emax (SF_of_Z a) (SF_of_Z b) = SF_of_Z (a - b).
Proof.
  intros Ha Hb Hs.
  destruct (Z.eq_dec b 0) as [->|Nb].
  { rewrite Z.sub_0_r. destruct a; reflexivity. }
  destruct (Z.eq_dec a 0) as [->|Na].
  { destruct b; reflexivity. }
  destruct (Z_as_signed a Na) as (sa & qa & ->).
  destruct (Z_as_signed b Nb) as (sb & qb & ->).
  rewrite !SF_of_Z_signed.
  apply SFsub_canon; eauto using signed_digits.
Qed.

Lemma of_Z_add a b :
  Z.abs a < 2 ^ 53 -> Z.abs b < 2 ^ 53 -> Z.abs (a + b) < 2 ^ 53 ->
  PrimFloat.add (of_Z a) (of_Z b) = of_Z (a + b).
Proof.
  intros Ha Hb Hs. apply Prim2SF_inj.
  rewrite add_spec, !Prim2SF_of_Z by assumption.
  apply SFadd_exact; assumption.
Qed.

Lemma of_Z_sub a b :
  Z.abs a < 2 ^ 53 -> Z.abs b < 2 ^ 53 -> Z.abs (a - b) < 2 ^ 53 ->
  PrimFloat.sub (of_Z a) (of_Z b) = of_Z (a - b).
Proof.
  intros Ha Hb Hs. apply Prim2SF_inj.
  rewrite sub_spec, !Prim2SF_of_Z by assumption.
  apply SFsub_exact; assumption.
Qed.

Lemma valid_finite s m e :
  valid_binary (S754_finite s m e) = true ->
  digits m <= 53 /\ fexp prec emax (digits m + e) = e /\ e <= 971.
Proof.
  unfold SpecFloat.valid_binary, bounded, canonical_mantissa.
  rewrite andb_true_iff, Z.eqb_eq, Z.leb_le. fold (digits m).
  intros [Hc He]. unfold emax, prec in He. repeat split; [|assumption|lia].
  revert Hc. unfold fexp, prec. lia.
Qed.

Lemma Prim2SF_finite_valid n s m e :
  Prim2SF n = S754_finite s m e ->
  digits m <= 53 /\ fexp prec emax (digits m + e) = e /\ e <= 971.
Proof.
  intros E. apply (valid_finite s). rewrite <- E. apply Prim2SF_valid.
Qed.

Lemma Math_trunc_SF n :
  Math_trunc n =
  match Prim2SF n with
  | S754_finite s m e =>
      if 0 <=? e then n
      else SF2Prim (binary_normalize prec emax (cond_Zopp s (Zpos m / 2 ^ (- e))) 0 s)
  | _ => n
  end.
Proof.
  unfold Math_trunc, SFtrunc.
  destruct (Prim2SF n) as [s|s| |s m e] eqn:E; try (rewrite <- E; apply SF2Prim_Prim2SF).
  destruct (0 <=? e); [rewrite <- E; apply SF2Prim_Prim2SF | reflexivity].
Qed.

Lemma Math_max_zero_SF y :
  Math_max PrimFloat.zero y =
  match Prim2SF y with
  | S754_nan => nan
  | S754_finite false _ _ | S754_infinity false => y
  | _ => PrimFloat.zero
  end.
Proof.
  rewrite Math_max_zero, is_nan_SF, ltb_zero_SF.
  destruct (Prim2SF y) as [s|s| |s m e]; try destruct s; reflexivity.
Qed.

Lemma div_pow2_bound m k : 0 <= k -> 0 <= Zpos m / 2 ^ k <= Zpos m.
Proof.
  intros Hk. assert (0 < 2 ^ k) by (apply Z.pow_pos_nonneg; lia).
  split; [apply Z.div_pos; lia|].
  apply Z.div_le_upper_bound; [lia|]. nia.
Qed.

Lemma binary_round_exact0 s q :
  digits q <= 53 -> binary_round prec emax s q 0 = canon s q.
Proof. intros Hd. exact (binary_round_exact s q 0 Hd (Z.le_refl 0)). Qed.

Lemma of_Z_pos_canon q : digits q <= 53 -> of_Z (Zpos q) = SF2Prim (canon false q).
Proof.
  intros Hd. unfold of_Z. cbn [binary_normalize].
  rewrite binary_round_exact0 by assumption. reflexivity.
Qed.

Section ClampFacts.
Context `{RT : JSRuntime}.

Lemma clampPts_cases v :
  clampPts v =
  match Prim2SF (Number v) with
  | S754_finite false m e =>
      if 0 <=? e then Number v else of_Z (Zpos m / 2 ^ (- e))
  | _ => PrimFloat.zero
  end.
Proof.
  unfold clampPts, Number_isFinite. rewrite is_finite_SF.
  set (n := Number v).
  destruct (Prim2SF n) as [s|s| |s m e] eqn:E; cbn [negb]; try reflexivity.
  - rewrite Math_trunc_SF, E, Math_max_zero_SF, E. reflexivity.
  - rewrite Math_trunc_SF, E.
    destruct (Prim2SF_finite_valid _ _ _ _ E) as (Hd & _ & _).
    destruct (Z.leb_spec 0 e) as [He|He].
    + rewrite Math_max_zero_SF, E. destruct s; reflexivity.
    + pose proof (div_pow2_bound m (- e) ltac:(lia)) as [Hq0 Hqm].
      destruct (Zpos m / 2 ^ (- e)) as [|q|q] eqn:Q; [| |lia].
      * assert (Hz : Prim2SF (SF2Prim (S754_zero s)) = S754_zero s)
          by (apply Prim2SF_SF2Prim; reflexivity).
        replace (cond_Zopp s 0) with 0 by (destruct s; reflexivity).
        cbn [binary_normalize]. rewrite Math_max_zero_SF, Hz.
        destruct s; reflexivity.
      * assert (Hdq : digits q <= 53).
        { apply digits_le; [lia|]. pose proof (digits_bounds m) as [_ Hm].
          assert (2 ^ digits m <= 2 ^ 53) by (apply Z.pow_le_mono_r; lia). lia. }
        assert (Hn : binary_normalize prec emax (cond_Zopp s (Zpos q)) 0 s = canon s q).
        { rewrite <- (binary_round_exact0 s q Hdq). destruct s; reflexivity. }
        rewrite Hn, Math_max_zero_SF.
        rewrite (Prim2SF_SF2Prim _ (canon_valid s q Hdq)).
        unfold canon at 1. destruct s; [reflexivity|].
        symmetry. apply of_Z_pos_canon, Hdq.
Qed.
End ClampFacts.

Lemma to_Z_SF x :
  to_Z x =
  match Prim2SF x with
  | S754_zero _ => Some 0
  | S754_finite s m e =>
      if 0 <=? e then Some (cond_Zopp s (Zpos m * 2 ^ e))
      else if Zpos m mod 2 ^ (- e) =? 0 then Some (cond_Zopp s (Zpos m / 2 ^ (- e)))
      else None
  | _ => None
  end.
Proof.
  unfold to_Z, num, den. rewrite is_finite_SF.
  destruct (Prim2SF x) as [s|s| |s m e]; try reflexivity.
  destruct (Z.leb_spec 0 e) as [He|He].
  - rewrite Z.max_l, Z.max_r by lia. rewrite Z.pow_0_r, Z.mod_1_r, Z.div_1_r. reflexivity.
  - rewrite Z.max_r, Z.max_l by lia. rewrite Z.pow_0_r, Z.mul_1_r.
    assert (Hp : 0 < 2 ^ (- e)) by (apply Z.pow_pos_nonneg; lia).
    destruct s; cbn [cond_Zopp]; [|reflexivity].
    destruct (Z.eqb_spec (Zpos m mod 2 ^ (- e)) 0) as [Hz|Hz].
    + rewrite Z.mod_opp_l_z by lia. rewrite Z.div_opp_l_z by lia. reflexivity.
    + destruct (Z.eqb_spec (- Zpos m mod 2 ^ (- e)) 0) as [Hz'|Hz']; [|reflexivity].
      exfalso. apply Hz. apply Z.mod_divide in Hz'; [|lia].
      apply Z.mod_divide; [lia|]. apply Z.divide_opp_r in Hz'. exact Hz'.
Qed.

Lemma to_Z_of_Z z : Z.abs z < 2 ^ 53 -> to_Z (of_Z z) = Some z.
Proof.
  intros Hz. rewrite to_Z_SF, Prim2SF_of_Z by assumption.
  destruct (Z.eq_dec z 0) as [->|Nz]; [reflexivity|].
  destruct (Z_as_signed z Nz) as (s & q & ->).
  rewrite SF_of_Z_signed. unfold canon.
  pose proof (signed_digits s q Hz) as Hd. pose proof (digits_pos q) as Hq.
  rewrite shiftl_pos_val by lia.
  destruct (Z.leb_spec 0 (digits q - 53)) as [He|He].
  - replace (digits q - 53) with 0 by lia. replace (53 - digits q) with 0 by lia.
    rewrite Z.pow_0_r, !Z.mul_1_r. reflexivity.
  - replace (- (digits q - 53)) with (53 - digits q) by lia.
    assert (Hp : 0 < 2 ^ (53 - digits q)) by (apply Z.pow_pos_nonneg; lia).
    rewrite Z.mod_mul, Z.div_mul by lia. reflexivity.
Qed.

Lemma num_den_SF x :
  (num x, den x) =
  match Prim2SF x with
  | S754_finite s m e => (cond_Zopp s (Zpos m * 2 ^ Z.max e 0), 2 ^ Z.max (- e) 0)
  | _ => (0, 1)
  end.
Proof. unfold num, den. destruct (Prim2SF x); reflexivity. Qed.

Section ClampValue.
Context `{RT : JSRuntime}.

Lemma clamp_spec_nonneg v : 0 <= clamp_spec v.
Proof. unfold clamp_spec. destruct (is_finite (Number v)); lia. Qed.

(** The number [clampPts] returns is the integer of the specification. *)
Lemma to_Z_clampPts v : to_Z (clampPts v) = Some (clamp_spec v).
Proof.
  rewrite clampPts_cases. unfold clamp_spec. rewrite is_finite_SF.
  pose proof (num_den_SF (Number v)) as Hnd.
  destruct (Prim2SF (Number v)) as [s|s| |s m e] eqn:E;
    injection Hnd as Hn Hd; try reflexivity.
  - rewrite Hn, Hd. reflexivity.
  - rewrite Hn, Hd.
    destruct (Prim2SF_finite_valid _ _ _ _ E) as (Hdig & _ & _).
    assert (Hp1 : 0 < 2 ^ Z.max e 0) by (apply Z.pow_pos_nonneg; lia).
    assert (Hp2 : 0 < 2 ^ Z.max (- e) 0) by (apply Z.pow_pos_nonneg; lia).
    destruct s; cbn [cond_Zopp].
    + change (to_Z PrimFloat.zero) with (Some 0). f_equal.
      rewrite Z.quot_opp_l by lia.
      assert (0 <= Zpos m * 2 ^ Z.max e 0 ÷ 2 ^ Z.max (- e) 0)
        by (apply Z.quot_pos; lia).
      lia.
    + destruct (Z.leb_spec 0 e) as [He|He].
      * rewrite to_Z_SF, E. destruct (Z.leb_spec 0 e); [|lia].
        cbn [cond_Zopp]. f_equal.
        rewrite (Z.max_l e 0), (Z.max_r (- e) 0) by lia.
        rewrite Z.pow_0_r, Z.quot_1_r.
        assert (0 < 2 ^ e) by (apply Z.pow_pos_nonneg; lia). lia.
      * pose proof (div_pow2_bound m (- e) ltac:(lia)) as [Hq0 Hqm].
        rewrite to_Z_of_Z.
        -- f_equal. rewrite (Z.max_r e 0), (Z.max_l (- e) 0) by lia.
           rewrite Z.pow_0_r, Z.mul_1_r.
           rewrite Z.quot_div_nonneg by lia. lia.
        -- pose proof (digits_bounds m) as [_ Hm].
           assert (2 ^ digits m <= 2 ^ 53) by (apply Z.pow_le_mono_r; lia). lia.
Qed.

Lemma clampPts_nonneg_int v : is_nonneg_int (clampPts v) = true.
Proof.
  unfold is_nonneg_int. rewrite to_Z_clampPts.
  apply Z.leb_le, clamp_spec_nonneg.
Qed.

(** Below 2^53 the number is the canonical one of its integer. *)
Lemma clampPts_small v : clamp_spec v < 2 ^ 53 -> clampPts v = of_Z (clamp_spec v).
Proof.
  intros Hs. pose proof (to_Z_clampPts v) as Hz. pose proof (clamp_spec_nonneg v) as H0.
  revert Hz. rewrite clampPts_cases.
  destruct (Prim2SF (Number v)) as [s|s| |s m e] eqn:E;
    try (change (to_Z PrimFloat.zero) with (Some 0); intros [= <-]; reflexivity).
  destruct s; try (change (to_Z PrimFloat.zero) with (Some 0); intros [= <-]; reflexivity).
  destruct (Z.leb_spec 0 e) as [He|He].
  - rewrite to_Z_SF, E. destruct (Z.leb_spec 0 e); [|lia]. cbn [cond_Zopp].
    intros [= Hv].
    destruct (Prim2SF_finite_valid _ _ _ _ E) as (Hdig & Hfe & _).
    pose proof (digits_bounds m) as [Hlo _].
    assert (Hd53 : digits m = 53).
    { revert Hfe. unfold fexp, SpecFloat.emin, prec, emax. lia. }
    assert (e = 0).
    { destruct (Z.eq_dec e 0) as [|Ne]; [assumption|exfalso].
      assert (2 ^ 1 <= 2 ^ e) by (apply Z.pow_le_mono_r; lia).
      rewrite Hd53 in Hlo. change (2 ^ (53 - 1)) with 4503599627370496 in Hlo.
      change (2 ^ 1) with 2 in *. change (2 ^ 53) with 9007199254740992 in Hs. nia. }
    subst e. rewrite Z.pow_0_r, Z.mul_1_r in Hv. rewrite <- Hv.
    apply Prim2SF_inj. rewrite E, Prim2SF_of_Z by (rewrite Hv; lia).
    cbn [SF_of_Z]. unfold canon. rewrite Hd53. reflexivity.
  - intros Hz. f_equal.
    pose proof (div_pow2_bound m (- e) ltac:(lia)) as [Hq0 Hqm].
    destruct (Prim2SF_finite_valid _ _ _ _ E) as (Hdig & _ & _).
    pose proof (digits_bounds m) as [_ Hm].
    assert (2 ^ digits m <= 2 ^ 53) by (apply Z.pow_le_mono_r; lia).
    rewrite to_Z_of_Z in Hz by lia. congruence.
Qed.

End ClampValue.

(** Per-program records *)

Lemma get_upd_eq {A} (r : PerProgram A) k f : get (upd r k f) k = f (get r k).
Proof. destruct r, k; reflexivity. Qed.

Lemma get_upd_ne {A} (r : PerProgram A) k k' f : k <> k' -> get (upd r k f) k' = get r k'.
Proof. destruct r, k, k'; intros H; (reflexivity || congruence). Qed.

Lemma get_upd {A} (r : PerProgram A) k k' f :
  get (upd r k f) k' = if decide (k = k') then f (get r k') else get r k'.
Proof.
  destruct (decide (k = k')) as [<-|Hne]; [apply get_upd_eq | apply get_upd_ne, Hne].
Qed.

Lemma pp_ext {A} (r r' : PerProgram A) : (forall k, get r k = get r' k) -> r = r'.
Proof.
  intros H. destruct r, r'.
  pose proof (H K_latam). pose proof (H K_smiles). pose proof (H K_livelo).
  pose proof (H K_esfera). pose proof (H K_azul). pose proof (H K_iberia).
  pose proof (H K_aa). pose proof (H K_tap). pose proof (H K_flyingBlue).
  simpl in *. congruence.
Qed.

Lemma get_pp_map {A B} (f : A -> B) r k : get (pp_map f r) k = f (get r k).
Proof. destruct k; reflexivity. Qed.

Lemma get_per_program {A} (x : A) k : get (per_program x) k = x.
Proof. destruct k; reflexivity. Qed.

Lemma bounded_by_mono B B' r : bounded_by B r -> B <= B' -> bounded_by B' r.
Proof. intros H Hle k. specialize (H k). lia. Qed.

Section ExactDeltas.
Context `{RT : JSRuntime}.

Lemma credit_exact acc k v B :
  bounded_by B acc -> B + clamp_spec v < 2 ^ 53 ->
  upd (pp_map of_Z acc) k (fun x => PrimFloat.add x (clampPts v))
  = pp_map of_Z (upd acc k (fun x => x + clamp_spec v))
  /\ bounded_by (B + clamp_spec v) (upd acc k (fun x => x + clamp_spec v)).
Proof.
  intros Hb Hs. pose proof (clamp_spec_nonneg v) as Hc. split.
  - apply pp_ext. intros k'. rewrite get_pp_map, !get_upd, get_pp_map.
    destruct (decide (k = k')); [|reflexivity].
    specialize (Hb k'). rewrite clampPts_small by lia.
    apply of_Z_add; lia.
  - intros k'. rewrite get_upd. specialize (Hb k').
    destruct (decide (k = k')); lia.
Qed.

Lemma debit_exact acc k v B :
  bounded_by B acc -> B + clamp_spec v < 2 ^ 53 ->
  upd (pp_map of_Z acc) k (fun x => PrimFloat.sub x (clampPts v))
  = pp_map of_Z (upd acc k (fun x => x - clamp_spec v))
  /\ bounded_by (B + clamp_spec v) (upd acc k (fun x => x - clamp_spec v)).
Proof.
  intros Hb Hs. pose proof (clamp_spec_nonneg v) as Hc. split.
  - apply pp_ext. intros k'. rewrite get_pp_map, !get_upd, get_pp_map.
    destruct (decide (k = k')); [|reflexivity].
    specialize (Hb k'). rewrite clampPts_small by lia.
    apply of_Z_sub; lia.
  - intros k'. rewrite get_upd. specialize (Hb k').
    destruct (decide (k = k')); lia.
Qed.

Lemma moved_nonneg it : 0 <= moved it.
Proof.
  unfold moved.
  pose proof (clamp_spec_nonneg (pointsFinal it)).
  pose proof (clamp_spec_nonneg (pointsDebitedFromOrigin it)).
  destruct (is_canceled it), (toProgramKey (programTo it)), (toProgramKey (programFrom it)); lia.
Qed.

Lemma volume_nonneg l : 0 <= volume l.
Proof. induction l as [|it l IH]; simpl; [lia|]. pose proof (moved_nonneg it). lia. Qed.

Lemma delta_step_exact acc it B :
  bounded_by B acc -> B + moved it < 2 ^ 53 ->
  delta_step (pp_map of_Z acc) it = pp_map of_Z (delta_stepZ acc it)
  /\ bounded_by (B + moved it) (delta_stepZ acc it).
Proof.
  intros Hb Hs. unfold delta_step, delta_stepZ, credit, debit. revert Hs. unfold moved.
  pose proof (clamp_spec_nonneg (pointsFinal it)) as Hc.
  pose proof (clamp_spec_nonneg (pointsDebitedFromOrigin it)) as Hd.
  destruct (is_canceled it).
  { intros _. split; [reflexivity|]. eapply bounded_by_mono; [eassumption|lia]. }
  destruct (toProgramKey (programTo it)) as [kt|], (toProgramKey (programFrom it)) as [kf|];
    intros Hs.
  - destruct (credit_exact acc kt (pointsFinal it) B Hb ltac:(lia)) as [E1 B1].
    rewrite E1.
    destruct (debit_exact _ kf (pointsDebitedFromOrigin it) _ B1 ltac:(lia)) as [E2 B2].
    rewrite E2. split; [reflexivity|].
    eapply bounded_by_mono; [eassumption|lia].
  - destruct (credit_exact acc kt (pointsFinal it) B Hb ltac:(lia)) as [E1 B1].
    rewrite E1. split; [reflexivity|].
    eapply bounded_by_mono; [eassumption|lia].
  - destruct (debit_exact acc kf (pointsDebitedFromOrigin it) B Hb ltac:(lia)) as [E2 B2].
    rewrite E2. split; [reflexivity|].
    eapply bounded_by_mono; [eassumption|lia].
  - split; [reflexivity|]. eapply bounded_by_mono; [eassumption|lia].
Qed.

Lemma fold_delta_step_exact l : forall acc B,
  bounded_by B acc -> B + volume l < 2 ^ 53 ->
  fold_left delta_step l (pp_map of_Z acc) = pp_map of_Z (fold_left delta_stepZ l acc).
Proof.
  induction l as [|it l IH]; intros acc B Hb Hs; [reflexivity|].
  simpl in *. pose proof (volume_nonneg l) as Hv. pose proof (moved_nonneg it) as Hm.
  destruct (delta_step_exact acc it B Hb ltac:(lia)) as [E Hb'].
  rewrite E. apply (IH _ (B + moved it)); [assumption|lia].
Qed.

(** While the points moved stay below 2^53, the deltas are exact. *)
Lemma computeProgramDeltas_exact l :
  volume l < 2 ^ 53 ->
  computeProgramDeltas l = pp_map of_Z (exact_deltas l).
Proof.
  intros Hs. unfold computeProgramDeltas, exact_deltas.
  change (per_program PrimFloat.zero) with (pp_map of_Z (per_program 0)).
  apply (fold_delta_step_exact l _ 0); [|lia].
  intros k. rewrite get_per_program. simpl. lia.
Qed.

Lemma get_delta_stepZ it k : exists c, forall acc, get (delta_stepZ acc it) k = get acc k + c.
Proof.
  unfold delta_stepZ.
  destruct (is_canceled it); [exists 0; intros; lia|].
  destruct (toProgramKey (programTo it)) as [kt|], (toProgramKey (programFrom it)) as [kf|].
  - exists ((if decide (kt = k) then clamp_spec (pointsFinal it) else 0)
            - (if decide (kf = k) then clamp_spec (pointsDebitedFromOrigin it) else 0)).
    intros acc. rewrite !get_upd.
    destruct (decide (kt = k)), (decide (kf = k)); lia.
  - exists (if decide (kt = k) then clamp_spec (pointsFinal it) else 0).
    intros acc. rewrite !get_upd. destruct (decide (kt = k)); lia.
  - exists (- (if decide (kf = k) then clamp_spec (pointsDebitedFromOrigin it) else 0)).
    intros acc. rewrite !get_upd. destruct (decide (kf = k)); lia.
  - exists 0. intros; lia.
Qed.

Lemma delta_stepZ_comm acc x y :
  delta_stepZ (delta_stepZ acc x) y = delta_stepZ (delta_stepZ acc y) x.
Proof.
  apply pp_ext. intros k.
  destruct (get_delta_stepZ x k) as [cx Hx], (get_delta_stepZ y k) as [cy Hy].
  rewrite Hy, Hx, Hx, Hy. lia.
Qed.

Lemma exact_deltas_perm l l' :
  Permutation l l' -> forall acc, fold_left delta_stepZ l acc = fold_left delta_stepZ l' acc.
Proof.
  induction 1 as [|x l l' _ IH|x y l|l l' l'' _ IH1 _ IH2]; intros acc; simpl.
  - reflexivity.
  - apply IH.
  - rewrite delta_stepZ_comm. reflexivity.
  - rewrite IH1. apply IH2.
Qed.

Lemma volume_perm l l' : Permutation l l' -> volume l = volume l'.
Proof.
  induction 1 as [|x l l' _ IH|x y l|l l' l'' _ IH1 _ IH2]; simpl; lia.
Qed.

End ExactDeltas.

(* ===================================================================== *)
(** ** The transaction and the handler *)
(* ===================================================================== *)

Ltac tx_unfold :=
  unfold release_tx, tx_purchase_findUnique, tx_cedente_update,
    tx_purchaseItem_updateMany, tx_purchase_update, tx_cedenteCommission_upsert,
    attempt, purchase_findUnique;
  unfold mbind, Tx_bind, mret, Tx_ret, throw, read, write.

Lemma status_open_eqb s : negb (String.eqb s "OPEN") = false <-> s = "OPEN"%string.
Proof. rewrite negb_false_iff. apply String.eqb_eq. Qed.

Lemma status_not_open_eqb s : s <> "OPEN"%string -> negb (String.eqb s "OPEN") = true.
Proof. intros H. apply negb_true_iff, String.eqb_neq, H. Qed.

Section HandlerFacts.
Context `{RT : JSRuntime}.

(** What a transaction that returns has done. *)
Lemma release_tx_ok w id u b db r db' :
  release_tx w id u b db = inr (r, db') ->
  exists p cid ced,
    purchases db !! id = Some p /\ purchase_status p = "OPEN"%string /\
    cedenteId p = Some cid /\ cedentes db !! cid = Some ced /\
    let applied := applied_balances b p (current_balances ced)
                     (computeProgramDeltas (items_of id db)) in
    let p' := close_purchase p (now w) u applied in
    let amount := Number (js_or (cedentePayCents p) (VNum 0%float)) in
    cedentes db' = <[cid := set_points ced applied]> (cedentes db) /\
    purchaseItems db' = map (release_item id) (purchaseItems db) /\
    purchases db' = <[id := p']> (purchases db) /\
    row (compra r) = p' /\
    (if (0 <? amount)%float
     then exists c, commission r = Some c /\
            commissions db' = <[purchase_id p := c]> (commissions db) /\
            c = match commissions db !! purchase_id p with
                | None => create_commission p' amount u (now w)
                | Some old => update_commission old amount u
                end
     else commission r = None /\ commissions db' = commissions db).
Proof.
  tx_unfold. intros H.
  repeat (case_match; simplify_eq/=; try done).
  all: match goal with
       | H : <[_:=_]> _ !! _ = Some _ |- _ => rewrite lookup_insert_eq in H; simplify_eq/=
       end.
  all: match goal with
       | H : negb _ = false |- _ => apply status_open_eqb in H
       end.
  all: eexists _, _, _; repeat (split; [by eauto|]).
  all: match goal with H : PrimFloat.ltb _ _ = _ |- _ => rewrite H end.
  all: try (eexists; repeat split; eauto).
  all: try match goal with H : commissions _ !! _ = _ |- _ => rewrite H end; eauto.
Qed.

(** The check inside the transaction. *)
Lemma release_tx_not_open w id u b db p :
  storage_fault w Op_txFind = None ->
  purchases db !! id = Some p -> purchase_status p <> "OPEN"%string ->
  release_tx w id u b db = inl "Compra já não está OPEN (possível dupla liberação)."%string.
Proof.
  intros Hf Hp Hs. tx_unfold. rewrite Hf. simpl. rewrite Hp. simpl.
  rewrite (status_not_open_eqb _ Hs). reflexivity.
Qed.

Lemma release_tx_no_cedente w id u b db v :
  storage_fault w Op_txFind = None ->
  purchase_findUnique true id db = Some v ->
  purchase_status (row v) = "OPEN"%string -> cedente v = None ->
  release_tx w id u b db = inl "Cedente não encontrado na compra."%string.
Proof.
  intros Hf Hv Hs Hc. unfold release_tx, tx_purchase_findUnique, attempt.
  unfold mbind, Tx_bind, mret, Tx_ret, throw, read, write.
  rewrite Hf. simpl. rewrite Hv. rewrite Hs, Hc. reflexivity.
Qed.

Lemma findUnique_row wi id db v :
  purchase_findUnique wi id db = Some v ->
  purchases db !! id = Some (row v)
  /\ cedente v = match cedenteId (row v) with
                 | Some c => cedentes db !! c
                 | None => None
                 end.
Proof.
  unfold purchase_findUnique. destruct (purchases db !! id); [|discriminate].
  intros [= <-]. split; reflexivity.
Qed.

(** A failure of the store at one of the four writes aborts the
    transaction with that failure. *)
Lemma release_tx_faults w id u b db v ced :
  storage_fault w Op_txFind = None ->
  purchase_findUnique true id db = Some v ->
  purchase_status (row v) = "OPEN"%string -> cedente v = Some ced ->
  (forall e, storage_fault w Op_cedenteUpdate = Some e ->
             release_tx w id u b db = inl e)
  /\ (forall e, storage_fault w Op_cedenteUpdate = None ->
                storage_fault w Op_itemUpdateMany = Some e ->
                release_tx w id u b db = inl e)
  /\ (forall e, storage_fault w Op_cedenteUpdate = None ->
                storage_fault w Op_itemUpdateMany = None ->
                storage_fault w Op_purchaseUpdate = Some e ->
                release_tx w id u b db = inl e)
  /\ (forall e, storage_fault w Op_cedenteUpdate = None ->
                storage_fault w Op_itemUpdateMany = None ->
                storage_fault w Op_purchaseUpdate = None ->
                (0 <? Number (js_or (cedentePayCents (row v)) (VNum 0%float)))%float = true ->
                storage_fault w Op_commissionUpsert = Some e ->
                release_tx w id u b db = inl e).
Proof.
  intros Hf Hv Hs Hc.
  destruct (findUnique_row _ _ _ _ Hv) as [Hp Hced]. rewrite Hc in Hced.
  destruct (cedenteId (row v)) as [cid|] eqn:Hcid; [|discriminate].
  assert (Hhead : forall k : PurchaseView -> Tx ReleaseResult,
    (found ← tx_purchase_findUnique w id;
     match found with
     | None => throw "Compra não encontrada."%string
     | Some stillOpen => k stillOpen
     end) db = k v db).
  { intros k. unfold tx_purchase_findUnique, attempt.
    unfold mbind, Tx_bind, mret, Tx_ret, throw, read, write.
    rewrite Hf. simpl. rewrite Hv. reflexivity. }
  unfold release_tx. rewrite Hhead. rewrite Hs, Hc. cbn [String.eqb Ascii.eqb negb].
  simpl negb. cbv iota.
  unfold tx_cedente_update, tx_purchaseItem_updateMany, tx_purchase_update,
    tx_cedenteCommission_upsert, attempt.
  unfold mbind, Tx_bind, mret, Tx_ret, throw, read, write.
  repeat split.
  - intros e ->. reflexivity.
  - intros e -> ->. rewrite Hcid. simpl. rewrite <- Hced. reflexivity.
  - intros e -> -> ->. rewrite Hcid. simpl. rewrite <- Hced. reflexivity.
  - intros e -> -> -> Hpos ->. rewrite Hcid. simpl. rewrite <- Hced. simpl.
    rewrite Hp. simpl. unfold purchase_findUnique. simpl.
    rewrite lookup_insert_eq. simpl. rewrite Hpos. reflexivity.
Qed.

(** When the handler gets to its transaction, its reply is the
    transaction's outcome. *)
Lemma POST_at_tx w req db :
  reaches_tx w req db ->
  POST w req db =
  match transaction (release_tx w (param_id req) (userId_of req) (body req))
          (state_before_tx w (param_id req) db) with
  | (inl e, db') => (release_failed e, db')
  | (inr result, db') => (ok result, db')
  end.
Proof.
  intros ((Hid & Hu & Hf1 & (v1 & Hv1 & Hs1) & Hrc & Hf2) & (v2 & (Hv2 & Hs2) & Hc2)).
  unfold POST, prisma_purchase_findUnique.
  apply String.eqb_neq in Hid. apply String.eqb_neq in Hu.
  rewrite Hid, Hu, Hf1, Hv1, Hs1. cbn [negb String.eqb Ascii.eqb].
  simpl negb. cbv iota.
  destruct (recomputeCompra w (param_id req) (concurrent w 1 db)) as [db1 o] eqn:Er.
  simpl in Hrc. subst o.
  unfold state_at_reread in Hv2. rewrite Er in Hv2. simpl in Hv2.
  rewrite Hf2, Hv2, Hs2. simpl negb. cbv iota.
  destruct Hc2 as [ced Hc2]. rewrite Hc2.
  unfold state_before_tx, state_at_reread. rewrite Er. reflexivity.
Qed.

(** When the handler gets to its second read and finds the purchase OPEN
    without a cedente, it replies 400 and starts no transaction. *)
Lemma POST_no_cedente_at_reread w req db v :
  reaches_reread w req db ->
  open_view (param_id req) (state_at_reread w (param_id req) db) v ->
  cedente v = None ->
  POST w req db =
  (badRequest "Cedente não encontrado na compra.",
   state_at_reread w (param_id req) db).
Proof.
  intros (Hid & Hu & Hf1 & (v1 & Hv1 & Hs1) & Hrc & Hf2) (Hv2 & Hs2) Hc2.
  unfold POST, prisma_purchase_findUnique.
  apply String.eqb_neq in Hid. apply String.eqb_neq in Hu.
  rewrite Hid, Hu, Hf1, Hv1, Hs1. simpl negb. cbv iota.
  destruct (recomputeCompra w (param_id req) (concurrent w 1 db)) as [db1 o] eqn:Er.
  simpl in Hrc. subst o.
  unfold state_at_reread in *. rewrite Er in *. simpl in *.
  rewrite Hf2, Hv2, Hs2, Hc2. reflexivity.
Qed.

(** A release of a purchase that is not OPEN is refused at the first
    check, before anything is written. *)
Lemma POST_not_open w req db p :
  storage_fault w Op_findBase = None ->
  purchases db !! param_id req = Some p ->
  purchase_status p <> "OPEN"%string ->
  exists msg, POST w req db = (badRequest msg, db).
Proof.
  intros Hf Hp Hs. unfold POST, prisma_purchase_findUnique, purchase_findUnique.
  destruct (String.eqb (param_id req) ""); [eauto|].
  destruct (String.eqb (userId_of req) ""); [eauto|].
  rewrite Hf, Hp. simpl. rewrite (status_not_open_eqb _ Hs). eauto.
Qed.

(** A release that succeeds got to its transaction, which returned. *)
Lemma POST_ok_inv w req db r db' :
  POST w req db = (ok r, db') ->
  reaches_tx w req db
  /\ release_tx w (param_id req) (userId_of req) (body req)
       (state_before_tx w (param_id req) db) = inr (r, db').
Proof.
  unfold POST, prisma_purchase_findUnique, transaction, reaches_tx, reaches_reread,
    open_view, state_before_tx, state_at_reread.
  intros H.
  repeat (case_match; simplify_eq/=; try done).
  repeat match goal with
         | H : negb _ = false |- _ => apply status_open_eqb in H
         | H : String.eqb _ _ = false |- _ => apply String.eqb_neq in H
         end.
  repeat split; eauto.
Qed.
End HandlerFacts.

(* ===================================================================== *)
(** ** What a successful release has done *)
(* ===================================================================== *)

Section ReleaseEffect.
Context `{RT : JSRuntime}.

Lemma POST_ok_effect w req db r db' :
  POST w req db = (ok r, db') ->
  let id := param_id req in
  let u := userId_of req in
  let db3 := state_before_tx w id db in
  exists p cid ced,
    purchases db3 !! id = Some p /\ purchase_status p = "OPEN"%string /\
    cedenteId p = Some cid /\ cedentes db3 !! cid = Some ced /\
    let applied := applied_balances (body req) p (current_balances ced)
                     (computeProgramDeltas (items_of id db3)) in
    let p' := close_purchase p (now w) u applied in
    let amount := Number (js_or (cedentePayCents p) (VNum 0%float)) in
    cedentes db' = <[cid := set_points ced applied]> (cedentes db3) /\
    purchaseItems db' = map (release_item id) (purchaseItems db3) /\
    purchases db' = <[id := p']> (purchases db3) /\
    row (compra r) = p' /\
    (if (0 <? amount)%float
     then exists c, commission r = Some c /\
            commissions db' = <[purchase_id p := c]> (commissions db3) /\
            c = match commissions db3 !! purchase_id p with
                | None => create_commission p' amount u (now w)
                | Some old => update_commission old amount u
                end
     else commission r = None /\ commissions db' = commissions db3).
Proof.
  intros H. apply POST_ok_inv in H as [_ H]. apply release_tx_ok in H. exact H.
Qed.

(** Whatever the reply, the store is either the one a committed
    transaction left or one the handler never wrote to. *)
Lemma POST_outcomes w req db resp db' :
  POST w req db = (resp, db') ->
  (exists r, resp = ok r)
  \/ db' = db
  \/ db' = fst (recomputeCompra w (param_id req) (concurrent w 1 db))
  \/ db' = state_at_reread w (param_id req) db
  \/ db' = state_before_tx w (param_id req) db.
Proof.
  unfold POST, prisma_purchase_findUnique, transaction, state_before_tx, state_at_reread.
  intros H.
  repeat (case_match; simplify_eq/=; eauto 6).
Qed.

Lemma applied_get b p current deltas k :
  get (applied_balances b p current deltas) k
  = clampPts (resolved_balance b p current deltas k).
Proof.
  unfold resolved_balance, override_of, coalesce.
  destruct k; cbn [get applied_balances latam smiles livelo esfera azul iberia aa tap
                    flyingBlue legacy predicted andb];
    unfold coalesce;
    repeat match goal with
           | |- context [nullish ?v] => destruct (nullish v)
           end; reflexivity.
Qed.

Lemma is_zero_SF n :
  is_zero n = match Prim2SF n with S754_zero _ => true | _ => false end.
Proof.
  unfold is_zero. rewrite FloatAxioms.eqb_spec.
  change (Prim2SF PrimFloat.zero) with (S754_zero false).
  destruct (Prim2SF n) as [s|s| |s m e]; try destruct s; reflexivity.
Qed.

(** For a payable amount that is a number, [Number(x || 0) > 0] is [x > 0]. *)
Lemma payable_number n :
  (0 <? Number (js_or (VNum n) (VNum 0%float)))%float = (0 <? n)%float.
Proof.
  unfold js_or. cbn [truthy].
  destruct (is_zero n || is_nan n) eqn:E; cbn [negb Number]; [|reflexivity].
  rewrite is_zero_SF, is_nan_SF in E.
  pose proof (ltb_zero_SF n) as Hl. change PrimFloat.zero with 0%float in Hl.
  rewrite Hl.
  destruct (Prim2SF n) as [s|s| |s m e]; try discriminate; reflexivity.
Qed.

Lemma clampPts_number n :
  clampPts (VNum n) =
  match Prim2SF n with
  | S754_finite false m e => if 0 <=? e then n else of_Z (Zpos m / 2 ^ (- e))
  | _ => PrimFloat.zero
  end.
Proof. apply clampPts_cases. Qed.

End ReleaseEffect.

(* ===================================================================== *)
(** ** Strings and program keys *)
(* ===================================================================== *)

Section KeyFacts.
Context `{RT : JSRuntime}.

Lemma String_or_empty s : String_ (js_or (VStr s) (VStr "")) = s.
Proof.
  unfold js_or. cbn [truthy].
  destruct (String.eqb_spec s ""); subst; reflexivity.
Qed.

Lemma toProgramKey_wire v k :
  toProgramKey v = Some k
  <-> toUpperCase (trim (String_ (js_or v (VStr "")))) = wire_name k.
Proof.
  unfold toProgramKey. set (up := toUpperCase _). split.
  - repeat match goal with
           | |- context [String.eqb up ?s] =>
               destruct (String.eqb_spec up s) as [?|?]; [intros [= <-]; assumption|]
           end.
    intros [=].
  - intros ->. destruct k; reflexivity.
Qed.

Lemma get_delta_step out it k :
  get (delta_step out it) k = item_effect it k (get out k).
Proof.
  unfold delta_step, item_effect, credit, debit.
  destruct (is_canceled it); [reflexivity|].
  destruct (toProgramKey (programTo it)) as [kt|],
           (toProgramKey (programFrom it)) as [kf|];
    rewrite ?get_upd; repeat case_decide; reflexivity.
Qed.

Lemma computeProgramDeltas_snoc l it :
  computeProgramDeltas (l ++ [it]) = delta_step (computeProgramDeltas l) it.
Proof. unfold computeProgramDeltas. rewrite fold_left_app. reflexivity. Qed.

End KeyFacts.


(* ===================================================================== *)
(** ** The delta of one program *)
(* ===================================================================== *)

Section PerProgram.
Context `{RT : JSRuntime}.

Lemma credited_cons it l k : credited (it :: l) k = credit_of it k + credited l k.
Proof. reflexivity. Qed.

Lemma debited_cons it l k : debited (it :: l) k = debit_of it k + debited l k.
Proof. reflexivity. Qed.

Lemma credit_of_nonneg it k : 0 <= credit_of it k.
Proof.
  unfold credit_of. pose proof (clamp_spec_nonneg (pointsFinal it)).
  destruct (is_canceled it); [lia|].
  destruct (toProgramKey (programTo it)); [case_decide|]; lia.
Qed.

Lemma debit_of_nonneg it k : 0 <= debit_of it k.
Proof.
  unfold debit_of. pose proof (clamp_spec_nonneg (pointsDebitedFromOrigin it)).
  destruct (is_canceled it); [lia|].
  destruct (toProgramKey (programFrom it)); [case_decide|]; lia.
Qed.

Lemma credited_nonneg l k : 0 <= credited l k.
Proof.
  induction l as [|it l IH]; [reflexivity|].
  rewrite credited_cons. pose proof (credit_of_nonneg it k). lia.
Qed.

Lemma debited_nonneg l k : 0 <= debited l k.
Proof.
  induction l as [|it l IH]; [reflexivity|].
  rewrite debited_cons. pose proof (debit_of_nonneg it k). lia.
Qed.

(** The delta of a program only depends on what the items do to it. *)
Lemma get_fold_delta_step l k : forall acc,
  get (fold_left delta_step l acc) k
  = fold_left (fun d it => item_effect it k d) l (get acc k).
Proof.
  induction l as [|it l IH]; intros acc; [reflexivity|].
  cbn [fold_left]. rewrite IH, get_delta_step. reflexivity.
Qed.

(** One item, on integers that stay below 2^53. *)
Lemma item_effect_exact it k z :
  Z.abs z + credit_of it k + debit_of it k < 2 ^ 53 ->
  item_effect it k (of_Z z) = of_Z (z + credit_of it k - debit_of it k).
Proof.
  unfold item_effect, credit_of, debit_of.
  pose proof (clamp_spec_nonneg (pointsFinal it)) as Hc.
  pose proof (clamp_spec_nonneg (pointsDebitedFromOrigin it)) as Hd.
  destruct (is_canceled it); [intros _; f_equal; lia|].
  destruct (toProgramKey (programTo it)) as [kt|],
           (toProgramKey (programFrom it)) as [kf|];
    repeat case_decide; intros Hb;
    rewrite ?(clampPts_small (pointsFinal it)) by lia;
    rewrite ?(clampPts_small (pointsDebitedFromOrigin it)) by lia;
    rewrite ?of_Z_add by lia; rewrite ?of_Z_sub by lia; f_equal; lia.
Qed.

Lemma fold_item_effect_exact l k : forall z,
  Z.abs z + credited l k + debited l k < 2 ^ 53 ->
  fold_left (fun d it => item_effect it k d) l (of_Z z)
  = of_Z (z + credited l k - debited l k).
Proof.
  induction l as [|it l IH]; intros z Hb.
  - cbn [fold_left credited debited fold_right]. f_equal. lia.
  - rewrite credited_cons, debited_cons in Hb |- *.
    pose proof (credit_of_nonneg it k). pose proof (debit_of_nonneg it k).
    pose proof (credited_nonneg l k). pose proof (debited_nonneg l k).
    cbn [fold_left]. rewrite item_effect_exact by lia.
    rewrite IH by lia. f_equal. lia.
Qed.

(** While the points moved on a program stay below 2^53, its delta is
    exact, whatever the items do to the other programs. *)
Lemma get_computeProgramDeltas_exact l k :
  volume_on l k < 2 ^ 53 ->
  get (computeProgramDeltas l) k = of_Z (credited l k - debited l k).
Proof.
  unfold volume_on, computeProgramDeltas. intros Hb.
  rewrite get_fold_delta_step, get_per_program.
  change PrimFloat.zero with (of_Z 0).
  rewrite fold_item_effect_exact by (cbn [Z.abs]; lia). reflexivity.
Qed.

Lemma credited_perm l l' k : Permutation l l' -> credited l k = credited l' k.
Proof.
  induction 1 as [|x l l' _ IH|x y l|l l' l'' _ IH1 _ IH2];
    rewrite ?credited_cons; lia.
Qed.

Lemma debited_perm l l' k : Permutation l l' -> debited l k = debited l' k.
Proof.
  induction 1 as [|x l l' _ IH|x y l|l l' l'' _ IH1 _ IH2];
    rewrite ?debited_cons; lia.
Qed.

End PerProgram.
(* ===================================================================== *)
(** ** The claims *)
(* ===================================================================== *)

Section Claims.
Context `{RT : JSRuntime}.

(** C1 — Applied-balance precedence.  For each of the nine programs the
    balance a release applies is the clamp of: the caller's override for
    that program when it is present (not null or undefined); otherwise,
    for LATAM, SMILES, LIVELO and ESFERA only, the purchase's stored
    predicted balance when present; otherwise the cedente's clamped current
    balance plus the computed delta.  A successful release writes exactly
    these balances to the cedente of the purchase.  With current 100, delta
    +20 and predicted 150 the result is 150 without an override and 999 with
    an override of 999; for the five other programs the stored predictions
    play no part.  The current balance of the third tier is the stored
    balance of the cedente as [clampPts] reads it: with -30 stored and a
    delta of +20 the result is 20, not 0. *)
Theorem applied_balance_precedence :
  (forall b p current deltas k,
      get (applied_balances b p current deltas) k
      = clampPts (resolved_balance b p current deltas k))
  /\ (forall w req db r db',
        POST w req db = (ok r, db') ->
        let id := param_id req in
        let db3 := state_before_tx w id db in
        exists p cid ced,
          purchases db3 !! id = Some p /\ purchase_status p = "OPEN"%string /\
          cedenteId p = Some cid /\ cedentes db3 !! cid = Some ced /\
          cedentes db' !! cid =
            Some (set_points ced
                    (applied_balances (body req) p (current_balances ced)
                       (computeProgramDeltas (items_of id db3)))))
  /\ (forall b p current deltas k,
        legacy k = true ->
        nullish (override_of b k) = true ->
        get current k = 100%float -> get deltas k = 20%float ->
        predicted p k = VNum 150%float ->
        get (applied_balances b p current deltas) k = 150%float)
  /\ (forall b p current deltas k,
        override_of b k = VNum 999%float ->
        get (applied_balances b p current deltas) k = 999%float)
  /\ (forall b p current deltas k,
        nullish (override_of b k) = true ->
        legacy k = false \/ nullish (predicted p k) = true ->
        get current k = 100%float -> get deltas k = 20%float ->
        get (applied_balances b p current deltas) k = 120%float)
  /\ (forall b p p' current deltas k,
        legacy k = false ->
        get (applied_balances b p current deltas) k
        = get (applied_balances b p' current deltas) k)
  /\ (forall ced k,
        get (current_balances ced) k = clampPts (VNum (get (points ced) k)))
  /\ (forall b p ced deltas k,
        nullish (override_of b k) = true ->
        legacy k = false \/ nullish (predicted p k) = true ->
        get (applied_balances b p (current_balances ced) deltas) k
        = clampPts (VNum (clampPts (VNum (get (points ced) k)) + get deltas k)%float))
  /\ (forall b p ced deltas k,
        nullish (override_of b k) = true ->
        legacy k = false \/ nullish (predicted p k) = true ->
        get (points ced) k = (-30)%float -> get deltas k = 20%float ->
        get (applied_balances b p (current_balances ced) deltas) k = 20%float).
Proof.
  assert (Hcur : forall ced k,
             get (current_balances ced) k = clampPts (VNum (get (points ced) k)))
    by (intros ced k; destruct k; reflexivity).
  assert (Hthird : forall b p ced deltas k,
             nullish (override_of b k) = true ->
             legacy k = false \/ nullish (predicted p k) = true ->
             get (applied_balances b p (current_balances ced) deltas) k
             = clampPts (VNum (clampPts (VNum (get (points ced) k))
                               + get deltas k)%float)).
  { intros b p ced deltas k Ho Hp.
    rewrite applied_get. unfold resolved_balance. rewrite Ho, Hcur.
    destruct Hp as [-> | ->]; rewrite ?andb_false_r; reflexivity. }
  split; [exact applied_get|].
  split; [|split; [|split; [|split; [|split; [|split; [exact Hcur|split]]]]]];
    [| | | | |exact Hthird|].
  - intros w req db r db' H.
    destruct (POST_ok_effect _ _ _ _ _ H) as (p & cid & ced & Hp & Hs & Hc & Hced & Hced' & _).
    exists p, cid, ced. repeat (split; [assumption|]).
    rewrite Hced'. apply lookup_insert_eq.
  - intros b p current deltas k Hl Ho _ _ Hp.
    rewrite applied_get. unfold resolved_balance.
    rewrite Ho, Hl, Hp. reflexivity.
  - intros b p current deltas k Ho.
    rewrite applied_get. unfold resolved_balance. rewrite Ho. reflexivity.
  - intros b p current deltas k Ho Hp Hc Hd.
    rewrite applied_get. unfold resolved_balance. rewrite Ho, Hc, Hd.
    destruct Hp as [-> | ->]; rewrite ?andb_false_r; reflexivity.
  - intros b p p' current deltas k Hl.
    rewrite !applied_get. unfold resolved_balance. rewrite Hl. reflexivity.
  - intros b p ced deltas k Ho Hp Hc Hd.
    rewrite (Hthird b p ced deltas k Ho Hp), Hc, Hd. reflexivity.
Qed.


(** C2 — The Delta Resolver.  [computeProgramDeltas] starts from zero on
    the nine keys and, item after item, adds [clampPts(pointsFinal)] to the
    program [programTo] resolves to and subtracts
    [clampPts(pointsDebitedFromOrigin)] from the program [programFrom]
    resolves to, unless the status of the item is CANCELED in any casing: a
    CANCELED item changes nothing whatever its fields hold.  A name resolves
    to a key when, trimmed and upper-cased, it is the wire name of the key
    (FLYING_BLUE for flyingBlue), so resolution does not depend on casing; a
    name that does not resolve is skipped without an error.  [clampPts]
    returns the integer of the specification's clamp: 0 when the coerced
    number is not finite, otherwise its integral part towards zero, floored
    at 0. *)
Theorem delta_resolver_correct :
  computeProgramDeltas [] = per_program 0%float
  /\ (forall l it k,
        get (computeProgramDeltas (l ++ [it])) k
        = item_effect it k (get (computeProgramDeltas l) k))
  /\ (forall l it,
        is_canceled it = true ->
        computeProgramDeltas (l ++ [it]) = computeProgramDeltas l)
  /\ (forall it,
        is_canceled it = true
        <-> toUpperCase (String_ (js_or (status it) (VStr ""))) = "CANCELED"%string)
  /\ (forall l it,
        toProgramKey (programTo it) = None ->
        toProgramKey (programFrom it) = None ->
        computeProgramDeltas (l ++ [it]) = computeProgramDeltas l)
  /\ (forall v k,
        toProgramKey v = Some k
        <-> toUpperCase (trim (String_ (js_or v (VStr "")))) = wire_name k)
  /\ (forall s s',
        toUpperCase s = toUpperCase s' ->
        toProgramKey (VStr s) = toProgramKey (VStr s'))
  /\ (forall v, to_Z (clampPts v) = Some (clamp_spec v)).
Proof.
  split; [reflexivity|].
  split; [intros; rewrite computeProgramDeltas_snoc; apply get_delta_step|].
  split.
  { intros l it Hc. rewrite computeProgramDeltas_snoc.
    unfold delta_step. rewrite Hc. reflexivity. }
  split; [intros it; unfold is_canceled; apply String.eqb_eq|].
  split.
  { intros l it Ht Hf. rewrite computeProgramDeltas_snoc.
    unfold delta_step, credit, debit. rewrite Ht, Hf.
    destruct (is_canceled it); reflexivity. }
  split; [exact toProgramKey_wire|].
  split; [|exact to_Z_clampPts].
  intros s s' Hs. unfold toProgramKey.
  rewrite !String_or_empty, <- !trim_upper, Hs. reflexivity.
Qed.

(** C10, as amended — Order of the items.  When, for each program, the
    points the items move on it (their clamped credits to it plus their
    clamped debits from it, CANCELED items and unresolved names apart) sum
    to less than 2^53, that is to Number.MAX_SAFE_INTEGER at most, every
    permutation of the list gives the same deltas.  The bound is on each
    program by itself: what the items move on the other programs does not
    count. *)
Theorem deltas_order_independent_when_safe l l' :
  Permutation l l' ->
  (forall k, volume_on l k < safe_bound) ->
  computeProgramDeltas l = computeProgramDeltas l'.
Proof.
  intros Hp Hv. change safe_bound with (2 ^ 53) in Hv.
  apply pp_ext. intros k.
  assert (Hv' : volume_on l' k < 2 ^ 53).
  { specialize (Hv k). unfold volume_on in *.
    rewrite <- (credited_perm _ _ k Hp), <- (debited_perm _ _ k Hp). exact Hv. }
  rewrite (get_computeProgramDeltas_exact l k (Hv k)).
  rewrite (get_computeProgramDeltas_exact l' k Hv').
  rewrite (credited_perm _ _ k Hp), (debited_perm _ _ k Hp). reflexivity.
Qed.

(** C5 — Non-negativity.  Whatever its argument, [clampPts] returns a
    non-negative integer; so does each of the nine applied balances, even
    when the inputs compute a negative value (current 10, delta -50 gives
    0).  After a successful release every cedente of the store is either
    untouched or holds nine non-negative integer counters; a release that
    fails leaves the store as the handler found it. *)
Theorem balances_stay_non_negative :
  (forall v, is_nonneg_int (clampPts v) = true)
  /\ (forall b p current deltas k,
        is_nonneg_int (get (applied_balances b p current deltas) k) = true)
  /\ (forall w req db r db' cid c',
        POST w req db = (ok r, db') ->
        cedentes db' !! cid = Some c' ->
        cedentes (state_before_tx w (param_id req) db) !! cid = Some c'
        \/ (forall k, is_nonneg_int (get (points c') k) = true))
  /\ (forall w req db resp db',
        POST w req db = (resp, db') ->
        (forall r, resp <> ok r) ->
        db' = db
        \/ db' = fst (recomputeCompra w (param_id req) (concurrent w 1 db))
        \/ db' = state_at_reread w (param_id req) db
        \/ db' = state_before_tx w (param_id req) db)
  /\ (forall b p current deltas k,
        nullish (override_of b k) = true ->
        legacy k = false \/ nullish (predicted p k) = true ->
        get current k = 10%float -> get deltas k = (-50)%float ->
        get (applied_balances b p current deltas) k = 0%float).
Proof.
  split; [exact clampPts_nonneg_int|]. split; [|split; [|split]].
  - intros. rewrite applied_get. apply clampPts_nonneg_int.
  - intros w req db r db' cid c' H Hc'.
    destruct (POST_ok_effect _ _ _ _ _ H)
      as (p & cid0 & ced & _ & _ & _ & _ & Hced' & _).
    rewrite Hced' in Hc'.
    destruct (decide (cid0 = cid)) as [->|Hne].
    + rewrite lookup_insert_eq in Hc'. injection Hc' as <-. right. intros k.
      replace (get (points (set_points ced _)) k)
        with (get (applied_balances (body req) p (current_balances ced)
                     (computeProgramDeltas
                        (items_of (param_id req)
                           (state_before_tx w (param_id req) db)))) k)
        by (destruct k; reflexivity).
      rewrite applied_get. apply clampPts_nonneg_int.
    + rewrite lookup_insert_ne in Hc' by assumption. left. exact Hc'.
  - intros w req db resp db' H Hno.
    destruct (POST_outcomes _ _ _ _ _ H) as [[r ->]|Hs]; [|exact Hs].
    exfalso. exact (Hno r eq_refl).
  - intros b p current deltas k Ho Hp Hc Hd.
    rewrite applied_get. unfold resolved_balance. rewrite Ho, Hc, Hd.
    destruct Hp as [-> | ->]; rewrite ?andb_false_r; reflexivity.
Qed.

(** C9 — An override is present when its value is neither null nor
    undefined.  A supplied 0 is present and forces the applied balance to 0,
    whatever the predicted and the computed balances; a null, undefined or
    missing override is skipped, and the result is the one of a request
    without overrides; any other supplied value is clamped, so a non-finite
    or negative number gives 0. *)
Theorem override_presence_is_nullish :
  (forall b p current deltas k,
      override_of b k = VNum 0%float ->
      get (applied_balances b p current deltas) k = 0%float)
  /\ (forall b p current deltas k,
        nullish (override_of b k) = true ->
        get (applied_balances b p current deltas) k
        = get (applied_balances {| saldosAplicados := None |} p current deltas) k)
  /\ (forall b k,
        nullish (override_of b k) = true <->
        saldosAplicados b = None
        \/ (exists o, saldosAplicados b = Some o
                      /\ (get o k = VNull \/ get o k = VUndefined)))
  /\ (forall b p current deltas k,
        nullish (override_of b k) = false ->
        get (applied_balances b p current deltas) k = clampPts (override_of b k))
  /\ (forall b p current deltas k n,
        override_of b k = VNum n ->
        is_finite n = false \/ (n <? 0)%float = true ->
        get (applied_balances b p current deltas) k = 0%float).
Proof.
  split; [|split; [|split; [|split]]].
  - intros b p current deltas k Ho.
    rewrite applied_get. unfold resolved_balance. rewrite Ho. reflexivity.
  - intros b p current deltas k Ho.
    rewrite !applied_get. unfold resolved_balance. rewrite Ho. reflexivity.
  - intros b k. unfold override_of, override.
    destruct (saldosAplicados b) as [o|].
    + split.
      * intros H. right. exists o. split; [reflexivity|].
        destruct (get o k); try discriminate; auto.
      * intros [H|(o' & [= <-] & [-> | ->])]; [discriminate| |]; reflexivity.
    + split; [auto | reflexivity].
  - intros b p current deltas k Ho.
    rewrite applied_get. unfold resolved_balance. rewrite Ho. reflexivity.
  - intros b p current deltas k n Ho Hn.
    rewrite applied_get. unfold resolved_balance. rewrite Ho. cbn [nullish negb].
    destruct Hn as [Hn|Hn].
    + unfold clampPts, Number_isFinite. cbn [Number]. rewrite Hn. reflexivity.
    + rewrite clampPts_number. rewrite ltb_x_zero_SF in Hn.
      destruct (Prim2SF n) as [s|s| |s m e]; try reflexivity.
      destruct s; [reflexivity|discriminate].
Qed.


(** C3 — Release is one-way.  A release of a purchase whose status is not
    OPEN is refused with a 400 reply at the first check and the store is
    left as it was; so after a successful release a second release of the
    same purchase is refused and changes nothing.  The status is checked
    again on the read inside the transaction: if the purchase is not OPEN
    there, the transaction throws and commits nothing. *)
Theorem release_is_one_way :
  (forall w req db p,
      storage_fault w Op_findBase = None ->
      purchases db !! param_id req = Some p ->
      purchase_status p <> "OPEN"%string ->
      exists msg, POST w req db = (badRequest msg, db)
                  /\ http_status (badRequest msg) = 400)
  /\ (forall w w' req req' db r db',
        POST w req db = (ok r, db') ->
        param_id req' = param_id req ->
        storage_fault w' Op_findBase = None ->
        exists msg, POST w' req' db' = (badRequest msg, db'))
  /\ (forall w id u b db p,
        storage_fault w Op_txFind = None ->
        purchases db !! id = Some p ->
        purchase_status p <> "OPEN"%string ->
        transaction (release_tx w id u b) db
        = (inl "Compra já não está OPEN (possível dupla liberação)."%string, db)).
Proof.
  split; [|split].
  - intros w req db p Hf Hp Hs.
    destruct (POST_not_open w req db p Hf Hp Hs) as [msg H]. eauto.
  - intros w w' req req' db r db' H Hid Hf.
    destruct (POST_ok_effect _ _ _ _ _ H)
      as (p & cid & ced & _ & _ & _ & _ & _ & _ & Hp' & _).
    apply (POST_not_open w' req' db' (close_purchase p (now w) (userId_of req)
             (applied_balances (body req) p (current_balances ced)
                (computeProgramDeltas
                   (items_of (param_id req) (state_before_tx w (param_id req) db)))))).
    + exact Hf.
    + rewrite Hid, Hp'. apply lookup_insert_eq.
    + discriminate.
  - intros w id u b db p Hf Hp Hs. unfold transaction.
    rewrite (release_tx_not_open w id u b db p Hf Hp Hs). reflexivity.
Qed.

(** C4 — Atomicity.  Once the handler has got to its transaction, an
    exception raised inside it, at the update of the balances, the bulk
    update of the items, the close of the purchase or the upsert of the
    commission, leaves the store exactly as the transaction found it, and
    the reply is the generic failure carrying the message of the exception;
    the reply is otherwise the result of a transaction that committed all
    its writes. *)
Theorem release_is_atomic w req db :
  reaches_tx w req db ->
  let id := param_id req in
  let tx := release_tx w id (userId_of req) (body req) in
  let db3 := state_before_tx w id db in
  (forall e, tx db3 = inl e ->
             POST w req db = (serverError "Falha ao liberar compra." e, db3))
  /\ (forall v ced,
        storage_fault w Op_txFind = None ->
        purchase_findUnique true id db3 = Some v ->
        purchase_status (row v) = "OPEN"%string ->
        cedente v = Some ced ->
        (forall e, storage_fault w Op_cedenteUpdate = Some e ->
                   POST w req db = (release_failed e, db3))
        /\ (forall e, storage_fault w Op_cedenteUpdate = None ->
                      storage_fault w Op_itemUpdateMany = Some e ->
                      POST w req db = (release_failed e, db3))
        /\ (forall e, storage_fault w Op_cedenteUpdate = None ->
                      storage_fault w Op_itemUpdateMany = None ->
                      storage_fault w Op_purchaseUpdate = Some e ->
                      POST w req db = (release_failed e, db3))
        /\ (forall e, storage_fault w Op_cedenteUpdate = None ->
                      storage_fault w Op_itemUpdateMany = None ->
                      storage_fault w Op_purchaseUpdate = None ->
                      (0 <? Number (js_or (cedentePayCents (row v)) (VNum 0%float)))%float
                      = true ->
                      storage_fault w Op_commissionUpsert = Some e ->
                      POST w req db = (release_failed e, db3)))
  /\ (forall resp db',
        POST w req db = (resp, db') ->
        (exists r, resp = ok r /\ tx db3 = inr (r, db'))
        \/ (exists e, resp = release_failed e /\ tx db3 = inl e /\ db' = db3)).
Proof.
  intros Hr id tx db3.
  assert (Hfail : forall e, tx db3 = inl e -> POST w req db = (release_failed e, db3)).
  { intros e He. rewrite (POST_at_tx w req db Hr). unfold transaction.
    fold id tx db3. rewrite He. reflexivity. }
  split; [exact Hfail|]. split.
  - intros v ced Hf Hv Hs Hc.
    destruct (release_tx_faults w id (userId_of req) (body req) db3 v ced Hf Hv Hs Hc)
      as (H1 & H2 & H3 & H4).
    repeat split; intros; apply Hfail; unfold tx; auto.
  - intros resp db' H. rewrite (POST_at_tx w req db Hr) in H. unfold transaction in H.
    fold id tx db3 in H.
    destruct (tx db3) as [e|[r d]] eqn:E; injection H as <- <-; eauto 7.
Qed.

(** C6 — The commission.  After a successful release, when the payable
    amount of the purchase, read as a number, is positive, the release
    returns a commission and that commission is the one the table holds for
    the purchase: PENDING, for that amount, with no payment recorded; it is
    a new row when the purchase had none and the old row updated in place
    otherwise, and the other commissions are untouched.  When the amount is
    not positive the release returns no commission and the table is
    unchanged.  For an amount that is a number, positive means [> 0]. *)
Theorem commission_conditional_upsert w req db r db' :
  POST w req db = (ok r, db') ->
  let db3 := state_before_tx w (param_id req) db in
  let closed := row (compra r) in
  let amount := Number (js_or (cedentePayCents closed) (VNum 0%float)) in
  let key := purchase_id closed in
  ((0 <? amount)%float = true ->
   exists c,
     commission r = Some c
     /\ commissions db' !! key = Some c
     /\ (forall k, k <> key -> commissions db' !! k = commissions db3 !! k)
     /\ amountCents c = amount
     /\ commission_status c = "PENDING"%string
     /\ paidAt c = None /\ paidById c = None
     /\ match commissions db3 !! key with
        | None => c = create_commission closed amount (userId_of req) (now w)
                  /\ size (commissions db') = S (size (commissions db3))
        | Some old => c = update_commission old amount (userId_of req)
                      /\ size (commissions db') = size (commissions db3)
        end)
  /\ ((0 <? amount)%float = false ->
      commission r = None /\ commissions db' = commissions db3)
  /\ (forall n, cedentePayCents closed = VNum n ->
                (0 <? amount)%float = (0 <? n)%float).
Proof.
  intros H db3 closed amount key.
  destruct (POST_ok_effect _ _ _ _ _ H)
    as (p & cid & ced & _ & _ & _ & _ & _ & _ & _ & Hrow & Hcom).
  cbv zeta in Hrow, Hcom. fold db3 in Hrow, Hcom.
  assert (Hamt : amount = Number (js_or (cedentePayCents p) (VNum 0%float)))
    by (unfold amount, closed; rewrite Hrow; reflexivity).
  assert (Hkey : key = purchase_id p)
    by (unfold key, closed; rewrite Hrow; reflexivity).
  rewrite <- Hamt, <- Hkey in Hcom.
  split; [|split].
  - intros Hpos. rewrite Hpos in Hcom. destruct Hcom as (c & Hc & Hm & Hdef).
    exists c. split; [exact Hc|].
    split; [rewrite Hm; apply lookup_insert_eq|].
    split; [intros k Hk; rewrite Hm; apply lookup_insert_ne; congruence|].
    destruct (commissions db3 !! key) as [old|] eqn:Eold.
    + subst c. repeat split.
      rewrite Hm. apply map_size_insert_Some. eauto.
    + subst c. repeat split.
      * unfold closed. rewrite Hrow. reflexivity.
      * rewrite Hm. apply map_size_insert_None. exact Eold.
  - intros Hneg. rewrite Hneg in Hcom. exact Hcom.
  - intros n Hn. unfold amount. rewrite Hn. apply payable_number.
Qed.

(** C7 — The items.  A successful release turns the items of the purchase
    whose status is PENDING into RELEASED and changes nothing else: an item
    with another status, CANCELED for one, and an item of another purchase
    are left exactly as they were.  Row by row: the table keeps its length,
    a PENDING item of the purchase has the status RELEASED afterwards and
    its other fields as before, every other row is the row it was, and no
    item of the purchase is PENDING any more. *)
Theorem release_frames_items w req db r db' :
  POST w req db = (ok r, db') ->
  let id := param_id req in
  purchaseItems db'
  = map (release_item id) (purchaseItems (state_before_tx w id db))
  /\ (forall it, purchaseId it = id -> status it = VStr "PENDING" ->
                 release_item id it = set_status it (VStr "RELEASED"))
  /\ (forall it, status it <> VStr "PENDING" -> release_item id it = it)
  /\ (forall it, purchaseId it <> id -> release_item id it = it)
  /\ (forall it, purchaseId it = id -> status it = VStr "PENDING" ->
        release_item id it
        = mkItem (item_id it) id (VStr "RELEASED") (programTo it) (programFrom it)
            (pointsFinal it) (pointsDebitedFromOrigin it))
  /\ length (purchaseItems db')
     = length (purchaseItems (state_before_tx w id db))
  /\ (forall i it,
        purchaseItems (state_before_tx w id db) !! i = Some it ->
        exists it',
          purchaseItems db' !! i = Some it'
          /\ (purchaseId it = id -> status it = VStr "PENDING" ->
              status it' = VStr "RELEASED"
              /\ item_id it' = item_id it /\ purchaseId it' = id
              /\ programTo it' = programTo it /\ programFrom it' = programFrom it
              /\ pointsFinal it' = pointsFinal it
              /\ pointsDebitedFromOrigin it' = pointsDebitedFromOrigin it)
          /\ (purchaseId it <> id \/ status it <> VStr "PENDING" -> it' = it))
  /\ (forall it', In it' (purchaseItems db') ->
                  purchaseId it' = id -> status it' <> VStr "PENDING").
Proof.
  intros H id.
  destruct (POST_ok_effect _ _ _ _ _ H)
    as (p & cid & ced & _ & _ & _ & _ & _ & Hit & _).
  fold id in Hit.
  assert (Hpend : forall it, purchaseId it = id -> status it = VStr "PENDING" ->
            release_item id it
            = mkItem (item_id it) id (VStr "RELEASED") (programTo it) (programFrom it)
                (pointsFinal it) (pointsDebitedFromOrigin it)).
  { intros it Hid Hs. unfold release_item.
    rewrite Hid, Hs, String.eqb_refl. cbn [is_str String.eqb andb].
    unfold set_status. rewrite Hid. reflexivity. }
  assert (Hother : forall it, status it <> VStr "PENDING" -> release_item id it = it).
  { intros it Hs. unfold release_item. destruct (status it) as [| | | |s] eqn:E;
      rewrite ?andb_false_r; try reflexivity.
    cbn [is_str]. destruct (String.eqb_spec s "PENDING") as [->|Hne];
      [congruence|]. rewrite andb_false_r. reflexivity. }
  assert (Helse : forall it, purchaseId it <> id -> release_item id it = it).
  { intros it Hid. unfold release_item.
    apply String.eqb_neq in Hid. rewrite Hid. reflexivity. }
  split; [exact Hit|]. split; [|split; [exact Hother|split; [exact Helse|]]].
  { intros it Hid Hs. unfold release_item.
    rewrite Hid, Hs, String.eqb_refl. reflexivity. }
  split; [exact Hpend|].
  split; [rewrite Hit; apply length_map|]. split.
  - intros i it Hi. exists (release_item id it). split.
    + rewrite Hit, list_lookup_fmap, Hi. reflexivity.
    + split.
      * intros Hid Hs. rewrite (Hpend it Hid Hs). repeat split.
      * intros [Hid|Hs]; [apply Helse, Hid | apply Hother, Hs].
  - intros it' Hin Hid. rewrite Hit in Hin.
    apply in_map_iff in Hin as (it & <- & _).
    destruct (String.eqb_spec (purchaseId it) id) as [Hi|Hi].
    + destruct (status it) as [| | | |s] eqn:E;
        try (rewrite Hother by (rewrite E; discriminate); rewrite E; discriminate).
      destruct (String.eqb_spec s "PENDING") as [->|Hne].
      * rewrite (Hpend it Hi E). discriminate.
      * rewrite Hother by (rewrite E; congruence). rewrite E. congruence.
    + rewrite (Helse it Hi) in Hid. contradiction.
Qed.

(** C8, as amended — A purchase without a cedente.  When the handler gets
    to its second read and finds the purchase OPEN without a cedente, it
    replies 400 and the store is as [recomputeCompra] and the other requests
    left it: the handler wrote nothing.  When the cedente is missing only on
    the read inside the transaction, the transaction throws, nothing is
    written, and the reply is the generic failure, a 500, with the message
    as its detail. *)
Theorem missing_cedente_is_refused w req db v :
  reaches_reread w req db ->
  cedente v = None ->
  let id := param_id req in
  (open_view id (state_at_reread w id db) v ->
   POST w req db
   = (badRequest "Cedente não encontrado na compra.", state_at_reread w id db)
   /\ http_status (fst (POST w req db)) = 400)
  /\ (reaches_tx w req db ->
      storage_fault w Op_txFind = None ->
      purchase_findUnique true id (state_before_tx w id db) = Some v ->
      purchase_status (row v) = "OPEN"%string ->
      POST w req db
      = (serverError "Falha ao liberar compra." "Cedente não encontrado na compra.",
         state_before_tx w id db)
      /\ http_status (fst (POST w req db)) = 500).
Proof.
  intros Hr Hc id. split.
  - intros Hv. rewrite (POST_no_cedente_at_reread w req db v Hr Hv Hc).
    split; reflexivity.
  - intros Htx Hf Hv Hs.
    rewrite (POST_at_tx w req db Htx). unfold transaction. fold id.
    rewrite (release_tx_no_cedente w id (userId_of req) (body req) _ v Hf Hv Hs Hc).
    split; reflexivity.
Qed.

End Claims.

(* ===================================================================== *)
(** ** The claims on the sample store *)
(* ===================================================================== *)

Section OnTheSample.
Import Sample Sample2.
Local Open Scope string_scope.

#[local] Existing Instance decimal_runtime.

Lemma sample_reaches_tx : reaches_tx quiet request store.
Proof.
  repeat split; try discriminate; try reflexivity.
  - eexists. split; reflexivity.
  - eexists. split; [split; reflexivity|]. eexists. reflexivity.
Qed.

Lemma sample_reaches_tx_failing : reaches_tx failing_items request store.
Proof.
  repeat split; try discriminate; try reflexivity.
  - eexists. split; reflexivity.
  - eexists. split; [split; reflexivity|]. eexists. reflexivity.
Qed.

Lemma sample_reaches_tx_racing : reaches_tx racing request store.
Proof.
  repeat split; try discriminate; try reflexivity.
  - eexists. split; reflexivity.
  - eexists. split; [split; reflexivity|]. eexists. reflexivity.
Qed.

Lemma sample_released :
  exists r db', POST quiet request store = (ok r, db').
Proof.
  destruct (POST quiet request store) as [resp db'] eqn:E.
  pose proof E as E'. vm_compute in E'. injection E' as <- <-.
  eexists _, _. reflexivity.
Qed.

(** C10 — the claim as stated fails: with a credit of 2^53 points and two
    credits of 1 point to LATAM, the delta of LATAM is 2^53 when the large
    credit comes first and 2^53 + 2 when it comes last. *)
Lemma deltas_depend_on_order :
  Permutation [huge; one; one] [one; one; huge]
  /\ latam (computeProgramDeltas [huge; one; one]) = 9007199254740992%float
  /\ latam (computeProgramDeltas [one; one; huge]) = 9007199254740994%float
  /\ computeProgramDeltas [huge; one; one] <> computeProgramDeltas [one; one; huge].
Proof.
  split; [apply (Permutation_cons_append [one; one] huge)|].
  split; [reflexivity|]. split; [reflexivity|].
  intros H. apply (f_equal (fun r => to_Z (latam r))) in H.
  vm_compute in H. discriminate H.
Qed.

(** C8 — the claim as stated fails: when another request takes the
    cedente off the purchase between the second read and the transaction,
    the read inside the transaction finds the purchase OPEN without a
    cedente and the reply is a 500, not a 4xx. *)
Lemma missing_cedente_in_tx_is_500 :
  reaches_tx racing request store
  /\ (exists v, purchase_findUnique true "p1" (state_before_tx racing "p1" store) = Some v
                /\ purchase_status (row v) = "OPEN"
                /\ cedente v = None)
  /\ POST racing request store
     = (serverError "Falha ao liberar compra." "Cedente não encontrado na compra.",
        state_before_tx racing "p1" store)
  /\ http_status (fst (POST racing request store)) = 500.
Proof.
  split; [exact sample_reaches_tx_racing|].
  split; [eexists; repeat split; reflexivity|].
  split; reflexivity.
Qed.

Lemma sample_released_overdrawn :
  exists r db', POST quiet request3 store3 = (ok r, db').
Proof.
  destruct (POST quiet request3 store3) as [resp db'] eqn:E.
  pose proof E as E'. vm_compute in E'. injection E' as <- <-.
  eexists _, _. reflexivity.
Qed.

Lemma applied_balance_precedence_witness :
  get (applied_balances no_overrides compra1
         (per_program 100%float) (per_program 20%float)) K_latam = 150%float
  /\ get (applied_balances latam_999 compra1
            (per_program 100%float) (per_program 20%float)) K_latam = 999%float
  /\ get (applied_balances no_overrides compra1
            (per_program 100%float) (per_program 20%float)) K_azul = 120%float
  /\ get (applied_balances no_overrides compra1
            (per_program 100%float) (per_program 20%float)) K_tap
     = get (applied_balances no_overrides compra2
              (per_program 100%float) (per_program 20%float)) K_tap
  /\ (exists r db',
       POST quiet request store = (ok r, db')
       /\ cedentes db' !! "c1" = Some (mkCedente "c1" 150 0 0 0 10 0 0 0 0))
  /\ get (current_balances bia) K_azul = 0%float
  /\ get (applied_balances no_overrides compra3 (current_balances bia)
            (per_program 20%float)) K_azul = 20%float
  /\ get (applied_balances no_overrides compra3 (current_balances bia)
            (per_program 20%float)) K_smiles = 32%float
  /\ exists r db',
       POST quiet request3 store3 = (ok r, db')
       /\ cedentes db' !! "c2" = Some (mkCedente "c2" 0 0 0 0 3 0 0 0 0).
Proof.
  destruct (applied_balance_precedence (RT := decimal_runtime))
    as (H1 & H2 & H3 & H4 & H5 & H6 & H7 & H8 & H9).
  split; [apply H3; reflexivity|].
  split; [apply H4; reflexivity|].
  split; [apply H5; [reflexivity | left; reflexivity | reflexivity | reflexivity]|].
  split; [apply H6; reflexivity|].
  split.
  { destruct sample_released as (r & db' & E). exists r, db'. split; [exact E|].
    destruct (H2 _ _ _ _ _ E) as (p & cid & ced & Hp & Hs & Hc & Hced & Hres).
    vm_compute in Hp. injection Hp as <-.
    vm_compute in Hc. injection Hc as <-.
    vm_compute in Hced. injection Hced as <-.
    rewrite Hres. vm_compute. reflexivity. }
  split; [rewrite H7; reflexivity|].
  split; [apply H9; [reflexivity | left; reflexivity | reflexivity | reflexivity]|].
  split; [rewrite H8; [reflexivity | reflexivity | right; reflexivity]|].
  destruct sample_released_overdrawn as (r & db' & E). exists r, db'.
  split; [exact E|].
  destruct (H2 _ _ _ _ _ E) as (p & cid & ced & Hp & Hs & Hc & Hced & Hres).
  vm_compute in Hp. injection Hp as <-.
  vm_compute in Hc. injection Hc as <-.
  vm_compute in Hced. injection Hced as <-.
  rewrite Hres. vm_compute. reflexivity.
Defined.

Lemma delta_resolver_correct_witness :
  computeProgramDeltas ([item1] ++ [item2]) = computeProgramDeltas [item1]
  /\ computeProgramDeltas ([item1] ++ [item5]) = computeProgramDeltas [item1]
  /\ get (computeProgramDeltas ([item1] ++ [item4])) K_azul = 3%float
  /\ toProgramKey (VStr " Flying_Blue ") = Some K_flyingBlue
  /\ toProgramKey (VStr "latam") = toProgramKey (VStr "LATAM").
Proof.
  destruct (delta_resolver_correct (RT := decimal_runtime))
    as (H0 & Hstep & Hcan & Hst & Hun & Hkey & Hcase & Hclamp).
  split; [apply Hcan; reflexivity|].
  split; [apply Hun; reflexivity|].
  split; [rewrite Hstep; reflexivity|].
  split; [apply Hkey; reflexivity|].
  apply Hcase. reflexivity.
Defined.

Lemma release_is_one_way_witness :
  (exists msg, POST quiet request2 store = (badRequest msg, store))
  /\ (exists r db' msg,
        POST quiet request store = (ok r, db')
        /\ POST quiet request db' = (badRequest msg, db'))
  /\ transaction (release_tx quiet "p2" "u1" no_overrides) store
     = (inl "Compra já não está OPEN (possível dupla liberação).", store).
Proof.
  destruct (release_is_one_way (RT := decimal_runtime)) as (H1 & H2 & H3).
  split; [|split].
  - destruct (H1 quiet request2 store compra2) as (msg & Hm & _);
      [reflexivity | reflexivity | discriminate |].
    exists msg. exact Hm.
  - destruct sample_released as (r & db' & E).
    destruct (H2 quiet quiet request request store r db' E) as (msg & Hm);
      [reflexivity | reflexivity |].
    exists r, db', msg. split; assumption.
  - apply (H3 quiet "p2" "u1" no_overrides store compra2);
      [reflexivity | reflexivity | discriminate].
Defined.

Lemma release_is_atomic_witness :
  reaches_tx failing_items request store
  /\ POST failing_items request store
     = (serverError "Falha ao liberar compra." "connection lost", store).
Proof.
  split; [exact sample_reaches_tx_failing|].
  destruct (release_is_atomic failing_items request store sample_reaches_tx_failing)
    as (H1 & H2 & H3).
  edestruct H2 as (_ & Hitems & _);
    [reflexivity | reflexivity | reflexivity | reflexivity |].
  apply Hitems; reflexivity.
Defined.

Lemma balances_stay_non_negative_witness :
  is_nonneg_int (clampPts (VNum (-3.5)%float)) = true
  /\ get (applied_balances no_overrides compra1
            (per_program 10%float) (per_program (-50)%float)) K_smiles = 0%float
  /\ (exists r db',
        POST quiet request store = (ok r, db')
        /\ forall c', cedentes db' !! "c1" = Some c' ->
                      forall k, is_nonneg_int (get (points c') k) = true)
  /\ snd (POST failing_items request store) = store.
Proof.
  destruct (balances_stay_non_negative (RT := decimal_runtime))
    as (H1 & H2 & H3 & H4 & H5).
  split; [apply H1|].
  split; [apply H5; [reflexivity | right; reflexivity | reflexivity | reflexivity]|].
  split.
  - destruct sample_released as (r & db' & E). exists r, db'. split; [exact E|].
    intros c' Hc'. destruct (H3 _ _ _ _ _ _ _ E Hc') as [Hsame|Hok]; [|exact Hok].
    vm_compute in Hsame. injection Hsame as <-. intros k. destruct k; reflexivity.
  - destruct (POST failing_items request store) as [resp db'] eqn:E.
    pose proof E as E'. vm_compute in E'. injection E' as <- <-.
    destruct (H4 _ _ _ _ _ E) as [Hd|[Hd|[Hd|Hd]]];
      [discriminate | exact Hd ..].
Defined.

(** The purchase a release of [p1] returns keeps the id, the cedente and
    the amount to pay, on each of the three sample stores. *)
Lemma sample_released_closed :
  exists r db',
    POST quiet request store = (ok r, db')
    /\ cedentePayCents (row (compra r)) = VNum 5000
    /\ purchase_id (row (compra r)) = "p1"
    /\ cedenteId (row (compra r)) = Some "c1".
Proof.
  destruct (POST quiet request store) as [resp db'] eqn:E.
  pose proof E as E'. vm_compute in E'. injection E' as <- <-.
  eexists _, _. repeat split; reflexivity.
Qed.

Lemma sample_released_closed_paid :
  exists r db',
    POST quiet request store_paid = (ok r, db')
    /\ cedentePayCents (row (compra r)) = VNum 5000
    /\ purchase_id (row (compra r)) = "p1"
    /\ cedenteId (row (compra r)) = Some "c1".
Proof.
  destruct (POST quiet request store_paid) as [resp db'] eqn:E.
  pose proof E as E'. vm_compute in E'. injection E' as <- <-.
  eexists _, _. repeat split; reflexivity.
Qed.

Lemma sample_released_closed_free :
  exists r db',
    POST quiet request store_free = (ok r, db')
    /\ cedentePayCents (row (compra r)) = VNum 0
    /\ purchase_id (row (compra r)) = "p1"
    /\ cedenteId (row (compra r)) = Some "c1".
Proof.
  destruct (POST quiet request store_free) as [resp db'] eqn:E.
  pose proof E as E'. vm_compute in E'. injection E' as <- <-.
  eexists _, _. repeat split; reflexivity.
Qed.

Lemma commission_conditional_upsert_witness :
  (exists r db',
      POST quiet request store = (ok r, db')
      /\ commission r
         = Some (mkCommission (Some "c1") "p1" 5000 "PENDING" "u1" 1767225600000 None None)
      /\ commissions db' !! "p1" = commission r
      /\ size (commissions db') = 1%nat)
  /\ (exists r db',
        POST quiet request store_paid = (ok r, db')
        /\ commission r
           = Some (mkCommission (Some "c1") "p1" 5000 "PENDING" "u1" 1766000000000 None None)
        /\ commissions db' !! "p1" = commission r
        /\ size (commissions db') = 1%nat)
  /\ (exists r db',
        POST quiet request store_free = (ok r, db')
        /\ commission r = None
        /\ commissions db' = ∅).
Proof.
  split; [|split].
  - destruct sample_released_closed
      as (r & db' & E & Hpay & Hid & Hcid).
    exists r, db'. split; [exact E|].
    destruct (commission_conditional_upsert _ _ _ _ _ E) as (Hpos & _ & _).
    cbv zeta in Hpos. rewrite Hpay, Hid in Hpos.
    destruct Hpos as (c & Hc & Hl & _ & _ & _ & _ & _ & Hnew); [reflexivity|].
    change (commissions (state_before_tx quiet (param_id request) store) !! _)
      with (@None CedenteCommission) in Hnew.
    destruct Hnew as [Hnew Hsize]. unfold create_commission in Hnew.
    rewrite Hcid, Hid in Hnew. rewrite Hc, Hl, Hsize, Hnew.
    repeat split; reflexivity.
  - destruct sample_released_closed_paid
      as (r & db' & E & Hpay & Hid & Hcid).
    exists r, db'. split; [exact E|].
    destruct (commission_conditional_upsert _ _ _ _ _ E) as (Hpos & _ & _).
    cbv zeta in Hpos. rewrite Hpay, Hid in Hpos.
    destruct Hpos as (c & Hc & Hl & _ & _ & _ & _ & _ & Hold); [reflexivity|].
    change (commissions (state_before_tx quiet (param_id request) store_paid) !! _)
      with (Some paid) in Hold.
    destruct Hold as [Hold Hsize]. rewrite Hc, Hl, Hsize, Hold.
    repeat split; reflexivity.
  - destruct sample_released_closed_free
      as (r & db' & E & Hpay & Hid & Hcid).
    exists r, db'. split; [exact E|].
    destruct (commission_conditional_upsert _ _ _ _ _ E) as (_ & Hzero & _).
    cbv zeta in Hzero. rewrite Hpay in Hzero.
    destruct Hzero as [Hn Hc]; [reflexivity|].
    split; [exact Hn|]. rewrite Hc. reflexivity.
Defined.

Lemma release_frames_items_witness :
  exists r db',
    POST quiet request store = (ok r, db')
    /\ purchaseItems db'
       = [mkItem "i1" "p1" (VStr "RELEASED") (VStr "LATAM") (VStr "SMILES")
            (VNum 20) (VNum 50);
          mkItem "i2" "p1" (VStr "CANCELED") (VStr "AZUL") VNull (VNum 900) (VNum 0);
          mkItem "i3" "p2" (VStr "PENDING") (VStr "TAP") VNull (VNum 5) (VNum 0);
          mkItem "i4" "p1" (VStr "RELEASED") (VStr "azul") (VStr "unknown")
            (VNum 3) (VNum 9)]
    /\ (forall it', In it' (purchaseItems db') ->
                    purchaseId it' = "p1" -> status it' <> VStr "PENDING")
    /\ status (release_item "p1" item1) = VStr "RELEASED".
Proof.
  destruct sample_released as (r & db' & E). exists r, db'. split; [exact E|].
  destruct (release_frames_items _ _ _ _ _ E)
    as (Hmap & _ & Hother & Helse & Hpend & _ & _ & Hnone).
  split; [|split; [exact Hnone | reflexivity]].
  rewrite Hmap.
  change (purchaseItems (state_before_tx quiet (param_id request) store))
    with [item1; item2; item3; item4].
  cbn [map].
  rewrite (Hpend item1 eq_refl eq_refl), (Hpend item4 eq_refl eq_refl).
  rewrite (Hother item2) by discriminate.
  rewrite (Helse item3) by discriminate.
  reflexivity.
Defined.

Lemma missing_cedente_is_refused_witness :
  POST quiet request store_unlinked
  = (badRequest "Cedente não encontrado na compra.", store_unlinked)
  /\ POST racing request store
     = (serverError "Falha ao liberar compra." "Cedente não encontrado na compra.",
        unlink store).
Proof.
  split.
  - eapply (missing_cedente_is_refused quiet request store_unlinked).
    + repeat split; try discriminate; try reflexivity.
      eexists. split; reflexivity.
    + instantiate (1 := mkView (mkPurchase "p1" None "OPEN"
                 (VNum 150) VNull VNull VNull VNull VNull VNull VNull
                 (VNum 5000) None None) None []). reflexivity.
    + split; reflexivity.
  - eapply (missing_cedente_is_refused racing request store).
    + apply sample_reaches_tx_racing.
    + instantiate (1 := mkView (mkPurchase "p1" None "OPEN"
                 (VNum 150) VNull VNull VNull VNull VNull VNull VNull
                 (VNum 5000) None None) None [item1; item2; item4]). reflexivity.
    + exact sample_reaches_tx_racing.
    + reflexivity.
    + reflexivity.
    + reflexivity.
Defined.

Lemma override_presence_is_nullish_witness :
  get (applied_balances
         {| saldosAplicados := Some (upd (per_program VUndefined) K_latam
                                       (fun _ => VNum 0%float)) |}
         compra1 (per_program 100%float) (per_program 20%float)) K_latam = 0%float
  /\ get (applied_balances
            {| saldosAplicados := Some (upd (per_program VUndefined) K_latam
                                          (fun _ => VNull)) |}
            compra1 (per_program 100%float) (per_program 20%float)) K_latam = 150%float
  /\ get (applied_balances
            {| saldosAplicados := Some (upd (per_program VUndefined) K_latam
                                          (fun _ => VNum (-7)%float)) |}
            compra1 (per_program 100%float) (per_program 20%float)) K_latam = 0%float
  /\ get (applied_balances
            {| saldosAplicados := Some (upd (per_program VUndefined) K_latam
                                          (fun _ => VNum infinity)) |}
            compra1 (per_program 100%float) (per_program 20%float)) K_latam = 0%float.
Proof.
  destruct (override_presence_is_nullish (RT := decimal_runtime))
    as (H1 & H2 & H3 & H4 & H5).
  split; [apply H1; reflexivity|].
  split; [rewrite H2; reflexivity|].
  split; [apply (H5 _ _ _ _ _ (-7)%float); [reflexivity | right; reflexivity]|].
  apply (H5 _ _ _ _ _ infinity); [reflexivity | left; reflexivity].
Defined.

Lemma deltas_order_independent_when_safe_witness :
  computeProgramDeltas [item1; one; item4; one]
  = computeProgramDeltas [one; one; item4; item1]
  /\ get (computeProgramDeltas [item1; one; item4; one]) K_latam = 22%float
  /\ computeProgramDeltas [half_latam; half_smiles; half_azul]
     = computeProgramDeltas [half_azul; half_latam; half_smiles]
  /\ safe_bound < volume [half_latam; half_smiles; half_azul].
Proof.
  split; [|split; [|split]].
  - apply deltas_order_independent_when_safe.
    + eapply perm_trans; [apply (Permutation_cons_append [one; item4; one] item1)|].
      apply perm_skip, perm_swap.
    + intros k. destruct k; vm_compute; reflexivity.
  - reflexivity.
  - apply deltas_order_independent_when_safe.
    + apply Permutation_sym.
      apply (Permutation_cons_append [half_latam; half_smiles] half_azul).
    + intros k. destruct k; vm_compute; reflexivity.
  - vm_compute. reflexivity.
Defined.

End OnTheSample.

(* ===================================================================== *)
(** ** More on the clamp and the deltas *)
(* ===================================================================== *)

Section ClampAgain.
Context `{RT : JSRuntime}.

Lemma clamp_spec_of_to_Z y z : to_Z y = Some z -> clamp_spec (VNum y) = Z.max 0 z.
Proof.
  unfold to_Z, clamp_spec. cbn [Number].
  destruct (is_finite y); [|discriminate].
  destruct (Z.eqb_spec (num y mod den y) 0) as [Hm|]; [|discriminate].
  intros [= <-].
  assert (Hd : 0 < den y).
  { unfold den. destruct (Prim2SF y); try lia; apply Z.pow_pos_nonneg; lia. }
  apply Z.div_exact in Hm; [|lia].
  rewrite Hm at 1. rewrite Z.mul_comm, Z.quot_mul by lia. reflexivity.
Qed.

Lemma clamp_spec_of_Z z : Z.abs z < 2 ^ 53 -> clamp_spec (VNum (of_Z z)) = Z.max 0 z.
Proof. intros Hz. apply clamp_spec_of_to_Z, to_Z_of_Z, Hz. Qed.

Lemma clampPts_of_Z z : 0 <= z < 2 ^ 53 -> clampPts (VNum (of_Z z)) = of_Z z.
Proof.
  intros Hz. rewrite clampPts_small; rewrite clamp_spec_of_Z by lia;
    [f_equal; lia | lia].
Qed.

(** X1 — Clamping twice.  [clampPts] of a result of [clampPts] is that
    result: a balance the handler has written is read back by [clampPts]
    as it is. *)
Theorem clampPts_idem v : clampPts (VNum (clampPts v)) = clampPts v.
Proof.
  pose proof (to_Z_clampPts v) as Hz. pose proof (clamp_spec_nonneg v) as H0.
  destruct (Z.lt_ge_cases (clamp_spec v) (2 ^ 53)) as [Hs|Hb].
  - rewrite (clampPts_small v Hs). apply clampPts_of_Z. lia.
  - rewrite (clampPts_cases (VNum (clampPts v))). cbn [Number].
    rewrite to_Z_SF in Hz.
    assert (Hpos : 0 < 2 ^ 53) by (apply Z.pow_pos_nonneg; lia).
    destruct (Prim2SF (clampPts v)) as [s|s| |s m e] eqn:E; try discriminate.
    + injection Hz as Hz. lia.
    + destruct (Prim2SF_finite_valid _ _ _ _ E) as (Hdig & _ & _).
      destruct (Z.leb_spec 0 e) as [He|He].
      * destruct s; [|reflexivity]. injection Hz as Hz. cbn [cond_Zopp] in Hz.
        assert (0 < 2 ^ e) by (apply Z.pow_pos_nonneg; lia). lia.
      * exfalso.
        pose proof (div_pow2_bound m (- e) ltac:(lia)) as [Hq0 Hqm].
        pose proof (digits_bounds m) as [_ Hm].
        assert (2 ^ digits m <= 2 ^ 53) by (apply Z.pow_le_mono_r; lia).
        destruct (Zpos m mod 2 ^ (- e) =? 0); [|discriminate].
        injection Hz as Hz. destruct s; cbn [cond_Zopp] in Hz; lia.
Qed.
End ClampAgain.

Section DeltaMore.
Context `{RT : JSRuntime}.

Lemma delta_step_inert acc it : inert it = true -> delta_step acc it = acc.
Proof.
  unfold inert, delta_step, credit, debit.
  destruct (is_canceled it); [reflexivity|]. cbn [orb].
  destruct (toProgramKey (programTo it)), (toProgramKey (programFrom it));
    (discriminate || reflexivity).
Qed.

Lemma fold_delta_step_inert l : forall acc,
  fold_left delta_step l acc
  = fold_left delta_step (filter (fun it => inert it = false) l) acc.
Proof.
  induction l as [|it l IH]; intros acc; [reflexivity|].
  rewrite filter_cons. destruct (decide (inert it = false)) as [Hf|Ht].
  - cbn [fold_left]. apply IH.
  - apply not_false_is_true in Ht. cbn [fold_left].
    rewrite (delta_step_inert _ _ Ht). apply IH.
Qed.

Lemma get_delta_stepZ_sum acc it k :
  get (delta_stepZ acc it) k = get acc k + credit_of it k - debit_of it k.
Proof.
  unfold delta_stepZ, credit_of, debit_of.
  destruct (is_canceled it); [lia|].
  destruct (toProgramKey (programTo it)) as [kt|],
           (toProgramKey (programFrom it)) as [kf|];
    rewrite ?get_upd; repeat case_decide; lia.
Qed.

Lemma volume_cons it l : volume (it :: l) = moved it + volume l.
Proof. reflexivity. Qed.

Lemma get_fold_delta_stepZ l : forall acc k,
  get (fold_left delta_stepZ l acc) k = get acc k + credited l k - debited l k.
Proof.
  induction l as [|it l IH]; intros acc k; [cbn; lia|].
  cbn [fold_left]. rewrite IH, get_delta_stepZ_sum, credited_cons, debited_cons. lia.
Qed.

Lemma credit_debit_le_moved it k :
  0 <= credit_of it k /\ 0 <= debit_of it k /\ credit_of it k + debit_of it k <= moved it.
Proof.
  unfold credit_of, debit_of, moved.
  pose proof (clamp_spec_nonneg (pointsFinal it)).
  pose proof (clamp_spec_nonneg (pointsDebitedFromOrigin it)).
  destruct (is_canceled it); [lia|].
  destruct (toProgramKey (programTo it)) as [kt|],
           (toProgramKey (programFrom it)) as [kf|];
    repeat case_decide; lia.
Qed.

Lemma credited_debited_le_volume l k :
  0 <= credited l k /\ 0 <= debited l k /\ credited l k + debited l k <= volume l.
Proof.
  induction l as [|it l IH]; [cbn; lia|].
  rewrite credited_cons, debited_cons, volume_cons.
  pose proof (credit_debit_le_moved it k). lia.
Qed.

Lemma credited_app l1 l2 k : credited (l1 ++ l2) k = credited l1 k + credited l2 k.
Proof.
  induction l1 as [|it l1 IH]; [reflexivity|].
  rewrite <- app_comm_cons, !credited_cons. lia.
Qed.

Lemma debited_app l1 l2 k : debited (l1 ++ l2) k = debited l1 k + debited l2 k.
Proof.
  induction l1 as [|it l1 IH]; [reflexivity|].
  rewrite <- app_comm_cons, !debited_cons. lia.
Qed.

Lemma volume_app l1 l2 : volume (l1 ++ l2) = volume l1 + volume l2.
Proof.
  induction l1 as [|it l1 IH]; [reflexivity|].
  rewrite <- app_comm_cons, !volume_cons. lia.
Qed.

Lemma get_computeProgramDeltas_safe l k :
  volume l < 2 ^ 53 ->
  get (computeProgramDeltas l) k = of_Z (credited l k - debited l k).
Proof.
  intros Hv. rewrite (computeProgramDeltas_exact l Hv), get_pp_map.
  unfold exact_deltas. rewrite get_fold_delta_stepZ, get_per_program. f_equal.
Qed.

(** X2 — Items that do not count.  An item that is CANCELED, or neither
    of whose programs resolves, can be taken out of the list without
    changing any delta. *)
Theorem inert_items_can_be_dropped l :
  computeProgramDeltas l
  = computeProgramDeltas (filter (fun it => inert it = false) l).
Proof. unfold computeProgramDeltas. apply fold_delta_step_inert. Qed.

(** X3 — The deltas in closed form.  When the points the items move sum
    to less than 2^53, the delta of a program is, as an exact integer, the
    sum of the clamped credits of the items to that program minus the sum
    of their clamped debits from it. *)
Theorem delta_is_credits_minus_debits l k :
  volume l < safe_bound ->
  to_Z (get (computeProgramDeltas l) k) = Some (credited l k - debited l k).
Proof.
  intros Hv. change safe_bound with (2 ^ 53) in Hv.
  rewrite (get_computeProgramDeltas_safe l k Hv).
  pose proof (credited_debited_le_volume l k).
  apply to_Z_of_Z. lia.
Qed.

(** X4 — Batches.  Under the same bound, the deltas of two lists put end
    to end are the sums of the deltas of each. *)
Theorem deltas_of_batches_add_up l1 l2 k :
  volume (l1 ++ l2) < safe_bound ->
  get (computeProgramDeltas (l1 ++ l2)) k
  = (get (computeProgramDeltas l1) k + get (computeProgramDeltas l2) k)%float.
Proof.
  intros Hv. change safe_bound with (2 ^ 53) in Hv.
  pose proof (volume_app l1 l2) as Ha.
  pose proof (volume_nonneg l1). pose proof (volume_nonneg l2).
  pose proof (credited_debited_le_volume l1 k).
  pose proof (credited_debited_le_volume l2 k).
  rewrite !get_computeProgramDeltas_safe by lia.
  rewrite credited_app, debited_app.
  rewrite of_Z_add by lia. f_equal. lia.
Qed.

Lemma get_current_balances ced k :
  get (current_balances ced) k = clampPts (VNum (get (points ced) k)).
Proof. destruct k; reflexivity. Qed.

(** X5 — The computed tier in integers.  For a program with no override
    and no predicted balance, when the clamped balance of the cedente plus
    the points the items move is below 2^53, the balance written is
    max(0, current + credits - debits). *)
Theorem computed_balance_in_integers b p ced l k :
  nullish (override_of b k) = true ->
  legacy k = false \/ nullish (predicted p k) = true ->
  clamp_spec (VNum (get (points ced) k)) + volume l < safe_bound ->
  to_Z (get (applied_balances b p (current_balances ced) (computeProgramDeltas l)) k)
  = Some (Z.max 0 (clamp_spec (VNum (get (points ced) k))
                   + credited l k - debited l k)).
Proof.
  intros Ho Hp Hv. change safe_bound with (2 ^ 53) in Hv.
  pose proof (clamp_spec_nonneg (VNum (get (points ced) k))) as Hc.
  pose proof (volume_nonneg l) as Hvol.
  pose proof (credited_debited_le_volume l k) as (Hcr & Hde & Hle).
  assert (Hcur : clampPts (VNum (get (points ced) k))
                 = of_Z (clamp_spec (VNum (get (points ced) k))))
    by (apply clampPts_small; lia).
  assert (Hdel : get (computeProgramDeltas l) k = of_Z (credited l k - debited l k))
    by (apply get_computeProgramDeltas_safe; lia).
  rewrite applied_get. unfold resolved_balance. rewrite Ho. cbn [negb].
  replace (legacy k && negb (nullish (predicted p k))) with false
    by (destruct Hp as [-> | ->]; rewrite ?andb_false_r; reflexivity).
  rewrite get_current_balances, Hcur, Hdel.
  rewrite of_Z_add by lia.
  rewrite to_Z_clampPts, clamp_spec_of_Z by lia. f_equal. f_equal. lia.
Qed.
End DeltaMore.

(* ===================================================================== *)
(** ** More on program keys and released items *)
(* ===================================================================== *)

Section KeyMore.
Context `{RT : JSRuntime}.

(** X6 — Resolving a program name.  A falsy value (null, undefined, the
    empty string, 0, NaN, false) resolves to no key, and what resolves is
    truthy; a name resolves as what [trim] makes of it and as what
    [toUpperCase] makes of it, whatever the white space and the letters in
    it; each of the nine keys is reached by its wire name. *)
Theorem toProgramKey_is_forgiving :
  (forall v, truthy v = false -> toProgramKey v = None)
  /\ (forall s, toProgramKey (VStr (trim s)) = toProgramKey (VStr s))
  /\ (forall s, toProgramKey (VStr (toUpperCase s)) = toProgramKey (VStr s))
  /\ (forall k, toProgramKey (VStr (wire_name k)) = Some k)
  /\ (forall v k, toProgramKey v = Some k -> truthy v = true).
Proof.
  assert (Hempty : toProgramKey (VStr "") = None).
  { unfold toProgramKey. rewrite String_or_empty.
    rewrite (trim_ascii "") by reflexivity.
    rewrite (toUpperCase_ascii (ascii_trim "")) by reflexivity. reflexivity. }
  assert (Hfalsy : forall v, truthy v = false -> toProgramKey v = None).
  { intros v Hv. rewrite <- Hempty. unfold toProgramKey, js_or. rewrite Hv.
    reflexivity. }
  split; [exact Hfalsy|].
  split; [intros s; unfold toProgramKey; rewrite !String_or_empty, trim_idem;
          reflexivity|].
  split; [intros s; unfold toProgramKey;
          rewrite !String_or_empty, trim_upper, toUpperCase_idem; reflexivity|].
  split.
  { intros k. unfold toProgramKey. rewrite String_or_empty.
    rewrite (trim_ascii (wire_name k)) by (destruct k; reflexivity).
    rewrite (toUpperCase_ascii (ascii_trim (wire_name k)))
      by (destruct k; reflexivity).
    destruct k; reflexivity. }
  intros v k H. destruct (truthy v) eqn:E; [reflexivity|].
  rewrite (Hfalsy v E) in H. discriminate H.
Qed.

(** [toUpperCase] on a word of capitals. *)
Lemma toUpperCase_capitals s :
  is_ascii s = true -> ascii_toUpperCase s = s -> toUpperCase s = s.
Proof. intros Ha Hs. rewrite (toUpperCase_ascii s Ha). exact Hs. Qed.

Lemma is_canceled_set_status it s :
  is_canceled (set_status it (VStr s)) = String.eqb (toUpperCase s) "CANCELED".
Proof.
  unfold is_canceled. cbn [status set_status]. rewrite String_or_empty. reflexivity.
Qed.

Lemma delta_step_release id acc it :
  delta_step acc (release_item id it) = delta_step acc it.
Proof.
  unfold release_item.
  destruct (String.eqb (purchaseId it) id); [|reflexivity]. cbn [andb].
  destruct (status it) as [| | | |s] eqn:E; try reflexivity. cbn [is_str].
  destruct (String.eqb_spec s "PENDING") as [->|]; [|reflexivity].
  unfold delta_step, credit, debit. rewrite is_canceled_set_status.
  unfold is_canceled. rewrite E, String_or_empty.
  rewrite (toUpperCase_capitals "RELEASED"), (toUpperCase_capitals "PENDING")
    by reflexivity.
  reflexivity.
Qed.

Lemma fold_delta_step_release id l : forall acc,
  fold_left delta_step (map (release_item id) l) acc = fold_left delta_step l acc.
Proof.
  induction l as [|it l IH]; intros acc; [reflexivity|].
  cbn [map fold_left]. rewrite delta_step_release. apply IH.
Qed.

(** X7 — Releasing does not move the deltas.  Turning the PENDING items
    of a purchase into RELEASED ones leaves the deltas of any list of
    items as they were. *)
Theorem release_keeps_deltas id l :
  computeProgramDeltas (map (release_item id) l) = computeProgramDeltas l.
Proof. unfold computeProgramDeltas. apply fold_delta_step_release. Qed.

Lemma release_item_idem id it :
  release_item id (release_item id it) = release_item id it.
Proof.
  destruct (String.eqb (purchaseId it) id && is_str (status it) "PENDING") eqn:E;
    unfold release_item; rewrite E; [|rewrite E; reflexivity].
  cbn [set_status purchaseId status]. simpl is_str.
  rewrite andb_false_r. reflexivity.
Qed.

End KeyMore.

(* ===================================================================== *)
(** ** More on the handler *)
(* ===================================================================== *)

Section HandlerMore.
Context `{RT : JSRuntime}.

Lemma userId_of_falsy req : truthy (session_id req) = false -> userId_of req = ""%string.
Proof. unfold userId_of, js_or. intros ->. reflexivity. Qed.

(** X8 — Early refusals.  When the request has no id or no session, or
    the purchase is missing or not OPEN at the first read, the reply is a
    400 or a 404 and the store is untouched; the reply is the same in any
    two worlds whose first read succeeds, so [recomputeCompra], the clock
    and the later queries play no part in it. *)
Theorem early_refusals_skip_recompute w w' req db :
  storage_fault w Op_findBase = None ->
  storage_fault w' Op_findBase = None ->
  param_id req = ""%string
  \/ truthy (session_id req) = false
  \/ purchases db !! param_id req = None
  \/ (exists p, purchases db !! param_id req = Some p
                /\ purchase_status p <> "OPEN"%string) ->
  POST w req db = POST w' req db
  /\ snd (POST w req db) = db
  /\ (http_status (fst (POST w req db)) = 400
      \/ http_status (fst (POST w req db)) = 404).
Proof.
  intros Hf Hf' Hcase.
  unfold POST, prisma_purchase_findUnique, purchase_findUnique.
  rewrite Hf, Hf'.
  destruct (String.eqb_spec (param_id req) "") as [Hid|Hid]; [auto|].
  destruct (String.eqb_spec (userId_of req) "") as [Hu|Hu]; [auto|].
  destruct Hcase as [Hc|[Hc|[Hc|(p & Hp & Hs)]]].
  - contradiction.
  - apply userId_of_falsy in Hc. contradiction.
  - rewrite Hc. auto.
  - rewrite Hp. cbn [row]. rewrite (status_not_open_eqb _ Hs). auto.
Qed.

(** X9 — Failures outside the transaction.  A failure of the first read,
    an exception of [recomputeCompra] or a failure of the second read gives
    the generic 500 with the message as its detail, and the handler has
    written nothing: the store is as the failing step found or left it. *)
Theorem failures_outside_the_transaction w req db :
  param_id req <> ""%string -> userId_of req <> ""%string ->
  (forall e, storage_fault w Op_findBase = Some e ->
             POST w req db = (serverError "Falha ao liberar compra." e, db))
  /\ (forall v e,
         storage_fault w Op_findBase = None ->
         open_view (param_id req) db v ->
         snd (recomputeCompra w (param_id req) (concurrent w 1 db)) = Some e ->
         POST w req db
         = (serverError "Falha ao liberar compra." e,
            fst (recomputeCompra w (param_id req) (concurrent w 1 db))))
  /\ (forall v e,
         storage_fault w Op_findBase = None ->
         open_view (param_id req) db v ->
         snd (recomputeCompra w (param_id req) (concurrent w 1 db)) = None ->
         storage_fault w Op_findCompra = Some e ->
         POST w req db
         = (serverError "Falha ao liberar compra." e,
            state_at_reread w (param_id req) db)).
Proof.
  intros Hid Hu. apply String.eqb_neq in Hid. apply String.eqb_neq in Hu.
  unfold POST, prisma_purchase_findUnique, state_at_reread.
  rewrite Hid, Hu. repeat split.
  - intros e ->. reflexivity.
  - intros v e -> [Hv Hs] Hr. rewrite Hv, Hs. simpl negb. cbv iota.
    destruct (recomputeCompra w (param_id req) (concurrent w 1 db)) as [d o].
    simpl in Hr. subst o. reflexivity.
  - intros v e -> [Hv Hs] Hr He. rewrite Hv, Hs. simpl negb. cbv iota.
    destruct (recomputeCompra w (param_id req) (concurrent w 1 db)) as [d o].
    simpl in Hr. subst o. rewrite He. reflexivity.
Qed.

(** X10 — The checks after the recompute.  If the purchase is gone at
    the second read, the reply is the 404 of that read; if it is no longer
    OPEN, the 400; either way the handler has written nothing. *)
Theorem checks_after_recompute w req db :
  reaches_reread w req db ->
  let id := param_id req in
  let db2 := state_at_reread w id db in
  (purchases db2 !! id = None ->
   POST w req db = (notFound "Compra não encontrada (pós-recompute).", db2))
  /\ (forall p, purchases db2 !! id = Some p ->
                purchase_status p <> "OPEN"%string ->
                POST w req db = (badRequest "Só pode liberar compra OPEN.", db2)).
Proof.
  intros (Hid & Hu & Hf1 & (v1 & Hv1 & Hs1) & Hrc & Hf2) id db2.
  apply String.eqb_neq in Hid. apply String.eqb_neq in Hu.
  unfold db2, id, POST, prisma_purchase_findUnique, state_at_reread.
  rewrite Hid, Hu, Hf1, Hv1, Hs1. simpl negb. cbv iota.
  destruct (recomputeCompra w (param_id req) (concurrent w 1 db)) as [d o].
  simpl in Hrc. subst o. cbn [fst]. rewrite Hf2. unfold purchase_findUnique. split.
  - intros ->. reflexivity.
  - intros p -> Hs. cbn [row]. rewrite (status_not_open_eqb _ Hs). reflexivity.
Qed.

Lemma release_tx_not_found w id u b db :
  storage_fault w Op_txFind = None ->
  purchases db !! id = None ->
  release_tx w id u b db = inl "Compra não encontrada."%string.
Proof.
  intros Hf Hp. tx_unfold. rewrite Hf. simpl. rewrite Hp. reflexivity.
Qed.

(** X11 — Losing a race.  If another request deletes or releases the
    purchase between the second read and the transaction, the transaction
    throws, the reply is the generic 500 with the message of the exception,
    and nothing is written. *)
Theorem race_losers_write_nothing w req db :
  reaches_tx w req db ->
  storage_fault w Op_txFind = None ->
  let id := param_id req in
  let db3 := state_before_tx w id db in
  (purchases db3 !! id = None ->
   POST w req db
   = (serverError "Falha ao liberar compra." "Compra não encontrada.", db3))
  /\ (forall p, purchases db3 !! id = Some p ->
                purchase_status p <> "OPEN"%string ->
                POST w req db
                = (serverError "Falha ao liberar compra."
                     "Compra já não está OPEN (possível dupla liberação).", db3)).
Proof.
  intros Hr Hf id db3. rewrite (POST_at_tx w req db Hr). unfold transaction.
  fold id db3. split.
  - intros Hp. rewrite (release_tx_not_found _ _ _ _ _ Hf Hp). reflexivity.
  - intros p Hp Hs. rewrite (release_tx_not_open _ _ _ _ _ p Hf Hp Hs). reflexivity.
Qed.

(** What the transaction does when nothing fails. *)
Lemma release_tx_head w id db v (k : PurchaseView -> Tx ReleaseResult) :
  storage_fault w Op_txFind = None ->
  purchase_findUnique true id db = Some v ->
  (found ← tx_purchase_findUnique w id;
   match found with
   | None => throw "Compra não encontrada."%string
   | Some stillOpen => k stillOpen
   end) db = k v db.
Proof.
  intros Hf Hv. unfold tx_purchase_findUnique, attempt.
  unfold mbind, Tx_bind, mret, Tx_ret, throw, read, write.
  rewrite Hf. simpl. rewrite Hv. reflexivity.
Qed.

Lemma release_tx_runs w id u b db v ced :
  (forall op, storage_fault w op = None) ->
  purchase_findUnique true id db = Some v ->
  purchase_status (row v) = "OPEN"%string -> cedente v = Some ced ->
  exists r db',
    release_tx w id u b db = inr (r, db')
    /\ purchase_findUnique true id db' = Some (compra r).
Proof.
  intros Hf Hv Hs Hc.
  destruct (findUnique_row _ _ _ _ Hv) as [Hp Hced]. rewrite Hc in Hced.
  destruct (cedenteId (row v)) as [cid|] eqn:Hcid; [|discriminate].
  unfold release_tx. rewrite (release_tx_head _ _ _ _ _ (Hf _) Hv).
  rewrite Hs, Hc. cbn [String.eqb Ascii.eqb negb]. simpl negb. cbv iota.
  unfold tx_cedente_update, tx_purchaseItem_updateMany, tx_purchase_update,
    tx_cedenteCommission_upsert, attempt.
  unfold mbind, Tx_bind, mret, Tx_ret, throw, read, write.
  rewrite (Hf Op_cedenteUpdate), (Hf Op_itemUpdateMany), (Hf Op_purchaseUpdate),
    (Hf Op_commissionUpsert).
  rewrite Hcid. simpl. rewrite <- Hced. simpl. rewrite Hp. simpl.
  unfold purchase_findUnique. simpl. rewrite lookup_insert_eq. simpl.
  destruct (0 <? Number (js_or (cedentePayCents (row v)) (VNum 0)))%float;
    eexists _, _; (split; [reflexivity|]); simpl;
    rewrite lookup_insert_eq; reflexivity.
Qed.

(** A transaction that returns hands back a read of the store it leaves. *)
Lemma release_tx_reply w id u b db r db' :
  release_tx w id u b db = inr (r, db') ->
  purchase_findUnique true id db' = Some (compra r).
Proof.
  tx_unfold. intros H.
  repeat (case_match; simplify_eq/=; try done).
Qed.

(** X12 — A release goes through.  When the handler gets to its
    transaction, the store fails nowhere and the read inside the
    transaction finds the purchase OPEN with its cedente, the reply is a
    200 that carries the result. *)
Theorem release_succeeds w req db v ced :
  reaches_tx w req db ->
  (forall op, storage_fault w op = None) ->
  let id := param_id req in
  purchase_findUnique true id (state_before_tx w id db) = Some v ->
  purchase_status (row v) = "OPEN"%string ->
  cedente v = Some ced ->
  exists r db',
    POST w req db = (ok r, db')
    /\ http_status (fst (POST w req db)) = 200.
Proof.
  intros Hr Hf id Hv Hs Hc.
  destruct (release_tx_runs w id (userId_of req) (body req) _ v ced Hf Hv Hs Hc)
    as (r & db' & Htx & _).
  exists r, db'. rewrite (POST_at_tx w req db Hr). unfold transaction.
  fold id. rewrite Htx. split; reflexivity.
Qed.

(** X13 — The reply is a read of the committed store.  After a
    successful release the purchase of the reply is what a read of the
    final store gives, with its cedente and its items; these items are the
    items of the purchase in the final store, and none of them is PENDING. *)
Theorem reply_is_read_of_committed_store w req db r db' :
  POST w req db = (ok r, db') ->
  let id := param_id req in
  purchase_findUnique true id db' = Some (compra r)
  /\ items (compra r) = items_of id db'
  /\ (forall it, In it (items (compra r)) ->
                 purchaseId it = id /\ status it <> VStr "PENDING").
Proof.
  intros H id.
  destruct (POST_ok_inv _ _ _ _ _ H) as [_ Htx].
  pose proof (release_tx_reply _ _ _ _ _ _ _ Htx) as Hread. fold id in Hread.
  destruct (release_tx_ok _ _ _ _ _ _ _ Htx)
    as (p & cid & ced & _ & _ & _ & _ & _ & Hit & _).
  fold id in Hit.
  assert (Hitems : items (compra r) = items_of id db').
  { unfold purchase_findUnique in Hread.
    destruct (purchases db' !! id); [|discriminate].
    injection Hread as <-. reflexivity. }
  split; [exact Hread|]. split; [exact Hitems|].
  intros it Hin. rewrite Hitems in Hin. unfold items_of in Hin.
  apply list_elem_of_In, list_elem_of_filter in Hin as [Hid Hin].
  split; [exact Hid|].
  rewrite Hit in Hin. apply list_elem_of_In, in_map_iff in Hin as (it0 & <- & _).
  unfold release_item.
  destruct (String.eqb (purchaseId it0) id) eqn:E1; simpl.
  - destruct (status it0) as [| | | |s] eqn:E2; simpl; rewrite ?E2; try discriminate.
    destruct (String.eqb_spec s "PENDING") as [->|Hne]; simpl.
    + discriminate.
    + rewrite E2. congruence.
  - apply String.eqb_neq in E1. unfold release_item in Hid.
    apply String.eqb_neq in E1. rewrite E1 in Hid. simpl in Hid.
    apply String.eqb_neq in E1. contradiction.
Qed.


(** X14 — The closed purchase.  After a successful release the purchase
    is CLOSED, released by the user of the session at the time of the
    clock, with its id, cedente and payable amount unchanged; the four
    applied balances it records are the balances its cedente now holds for
    LATAM, SMILES, LIVELO and ESFERA, and the reply shows that cedente. *)
Theorem release_closes_and_audits w req db r db' :
  POST w req db = (ok r, db') ->
  let id := param_id req in
  let db3 := state_before_tx w id db in
  exists p p' cid ced',
    purchases db3 !! id = Some p
    /\ purchases db' !! id = Some p'
    /\ row (compra r) = p'
    /\ purchase_status p' = "CLOSED"%string
    /\ liberadoPorId p' = Some (userId_of req)
    /\ liberadoEm p' = Some (now w)
    /\ purchase_id p' = purchase_id p
    /\ cedenteId p' = Some cid
    /\ cedenteId p = Some cid
    /\ cedentePayCents p' = cedentePayCents p
    /\ cedentes db' !! cid = Some ced'
    /\ cedente (compra r) = Some ced'
    /\ saldoAplicadoLatam p' = VNum (pontosLatam ced')
    /\ saldoAplicadoSmiles p' = VNum (pontosSmiles ced')
    /\ saldoAplicadoLivelo p' = VNum (pontosLivelo ced')
    /\ saldoAplicadoEsfera p' = VNum (pontosEsfera ced').
Proof.
  intros H id db3.
  destruct (POST_ok_inv _ _ _ _ _ H) as [_ Htx].
  pose proof (release_tx_reply _ _ _ _ _ _ _ Htx) as Hread. fold id in Hread.
  destruct (release_tx_ok _ _ _ _ _ _ _ Htx)
    as (p & cid & ced & Hp & _ & Hcid & Hced & Hc' & _ & Hp' & Hrow & _).
  fold id db3 in Hp, Hced, Hc', Hp', Hrow.
  eexists p, _, cid, _.
  split; [exact Hp|].
  split; [rewrite Hp'; apply lookup_insert_eq|].
  split; [exact Hrow|].
  do 3 (split; [reflexivity|]).
  split; [reflexivity|].
  split; [exact Hcid|]. split; [exact Hcid|].
  split; [reflexivity|].
  split; [rewrite Hc'; apply lookup_insert_eq|].
  split; [|repeat split; reflexivity].
  unfold purchase_findUnique in Hread. rewrite Hp', lookup_insert_eq in Hread.
  injection Hread as <-. cbn [cedente close_purchase cedenteId]. rewrite Hcid, Hc'.
  apply lookup_insert_eq.
Qed.

(** X15 — Frame.  A successful release leaves every other purchase and
    every other cedente as they were, creates and deletes no purchase, no
    cedente and no item, and moves no item to another purchase. *)
Theorem release_frames_other_rows w req db r db' :
  POST w req db = (ok r, db') ->
  let id := param_id req in
  let db3 := state_before_tx w id db in
  (forall k, k <> id -> purchases db' !! k = purchases db3 !! k)
  /\ (forall c, cedenteId (row (compra r)) <> Some c ->
                cedentes db' !! c = cedentes db3 !! c)
  /\ dom (purchases db') = dom (purchases db3)
  /\ dom (cedentes db') = dom (cedentes db3)
  /\ map item_id (purchaseItems db') = map item_id (purchaseItems db3)
  /\ map purchaseId (purchaseItems db') = map purchaseId (purchaseItems db3).
Proof.
  intros H id db3.
  destruct (POST_ok_inv _ _ _ _ _ H) as [_ Htx].
  destruct (release_tx_ok _ _ _ _ _ _ _ Htx)
    as (p & cid & ced & Hp & _ & Hcid & Hced & Hc' & Hit & Hp' & Hrow & _).
  fold id db3 in Hp, Hced, Hc', Hp', Hrow, Hit.
  split; [intros k Hk; rewrite Hp'; apply lookup_insert_ne; congruence|].
  split.
  { intros c Hc. rewrite Hrow in Hc. cbn [close_purchase cedenteId] in Hc.
    rewrite Hc'. apply lookup_insert_ne. congruence. }
  split; [rewrite Hp'; apply dom_insert_lookup_L; eauto|].
  split; [rewrite Hc'; apply dom_insert_lookup_L; eauto|].
  rewrite Hit, !map_map. split; apply map_ext; intros it;
    unfold release_item; destruct (_ && _); reflexivity.
Qed.

End HandlerMore.

Section HandlerMore2.
Context `{RT : JSRuntime}.

Lemma items_of_release id db :
  filter (fun it => purchaseId it = id) (map (release_item id) (purchaseItems db))
  = map (release_item id) (items_of id db).
Proof.
  unfold items_of. induction (purchaseItems db) as [|it l IH]; [reflexivity|].
  cbn [map]. rewrite !filter_cons.
  assert (Hid : purchaseId (release_item id it) = purchaseId it)
    by (unfold release_item; destruct (_ && _); reflexivity).
  rewrite Hid. destruct (decide (purchaseId it = id)); cbn [map]; rewrite IH; reflexivity.
Qed.

(** X16 — Refusals.  A reply with status 400 or 404 is sent before the
    transaction starts: the store is as the handler found it, or as
    [recomputeCompra] and the other requests left it, and the reply is
    never the generic failure. *)
Theorem refusals_come_before_the_transaction w req db resp db' :
  POST w req db = (resp, db') ->
  http_status resp = 400 \/ http_status resp = 404 ->
  (db' = db \/ db' = state_at_reread w (param_id req) db)
  /\ forall e, resp <> release_failed e.
Proof.
  unfold POST, prisma_purchase_findUnique, transaction, state_at_reread, release_failed.
  intros H Hs.
  repeat (case_match; simplify_eq/=; try (destruct Hs; discriminate); auto).
Qed.

(** X17 — No amount, no commission.  When the payable amount of the
    released purchase is falsy (null, 0, NaN, the empty string), the
    release returns no commission and leaves the commissions as they
    were. *)
Theorem no_commission_without_amount w req db r db' :
  POST w req db = (ok r, db') ->
  truthy (cedentePayCents (row (compra r))) = false ->
  commission r = None
  /\ commissions db' = commissions (state_before_tx w (param_id req) db).
Proof.
  intros H Hv.
  destruct (POST_ok_effect _ _ _ _ _ H)
    as (p & cid & ced & _ & _ & _ & _ & _ & _ & _ & Hrow & Hcom).
  cbv zeta in Hrow, Hcom. rewrite Hrow in Hv. cbn [close_purchase cedentePayCents] in Hv.
  unfold js_or in Hcom. rewrite Hv in Hcom. exact Hcom.
Qed.

(** X18 — The items of the reply.  The items of the reply are the items
    the deltas were computed from, with the PENDING ones RELEASED; they
    give the same deltas; and a second bulk update would change no item. *)
Theorem released_items_are_stable w req db r db' :
  POST w req db = (ok r, db') ->
  let id := param_id req in
  let db3 := state_before_tx w id db in
  items (compra r) = map (release_item id) (items_of id db3)
  /\ computeProgramDeltas (items (compra r)) = computeProgramDeltas (items_of id db3)
  /\ map (release_item id) (purchaseItems db') = purchaseItems db'.
Proof.
  intros H id db3.
  destruct (POST_ok_inv _ _ _ _ _ H) as [_ Htx].
  pose proof (release_tx_reply _ _ _ _ _ _ _ Htx) as Hread. fold id in Hread.
  destruct (POST_ok_effect _ _ _ _ _ H)
    as (p & cid & ced & _ & _ & _ & _ & _ & Hit & _).
  fold id db3 in Hit.
  assert (Hl : items (compra r) = map (release_item id) (items_of id db3)).
  { unfold purchase_findUnique in Hread.
    destruct (purchases db' !! id); [|discriminate].
    injection Hread as <-. cbn [items]. unfold items_of at 1. rewrite Hit.
    apply items_of_release. }
  split; [exact Hl|]. split.
  - rewrite Hl. unfold computeProgramDeltas. apply fold_delta_step_release.
  - rewrite Hit, map_map. apply map_ext. intros it. apply release_item_idem.
Qed.

End HandlerMore2.

(* ===================================================================== *)
(** ** The further properties on the sample store *)
(* ===================================================================== *)

Section MoreOnTheSample.
Import Sample Sample2.
Local Open Scope string_scope.

#[local] Existing Instance decimal_runtime.

Lemma toProgramKey_is_forgiving_witness :
  toProgramKey VNull = None
  /\ toProgramKey (VStr "  Flying_Blue ") = Some K_flyingBlue
  /\ truthy (VStr "smiles") = true.
Proof.
  destruct (toProgramKey_is_forgiving (RT := decimal_runtime))
    as (H1 & H2 & H3 & H4 & H5).
  split; [apply H1; reflexivity|]. split.
  - rewrite <- H2, <- H3. apply (H4 K_flyingBlue).
  - apply (H5 _ K_smiles). reflexivity.
Defined.

Lemma delta_is_credits_minus_debits_witness :
  volume [item1; item2; item4] < safe_bound
  /\ to_Z (get (computeProgramDeltas [item1; item2; item4]) K_smiles) = Some (-50)
  /\ to_Z (get (computeProgramDeltas [item1; item2; item4]) K_azul) = Some 3.
Proof.
  assert (Hv : volume [item1; item2; item4] < safe_bound) by (vm_compute; reflexivity).
  split; [exact Hv|]. split.
  - rewrite (delta_is_credits_minus_debits [item1; item2; item4] K_smiles Hv).
    vm_compute. reflexivity.
  - rewrite (delta_is_credits_minus_debits [item1; item2; item4] K_azul Hv).
    vm_compute. reflexivity.
Defined.

Lemma deltas_of_batches_add_up_witness :
  volume ([item1; item2] ++ [item4; item1]) < safe_bound
  /\ get (computeProgramDeltas ([item1; item2] ++ [item4; item1])) K_latam
     = (get (computeProgramDeltas [item1; item2]) K_latam
        + get (computeProgramDeltas [item4; item1]) K_latam)%float.
Proof.
  assert (Hv : volume ([item1; item2] ++ [item4; item1]) < safe_bound)
    by (vm_compute; reflexivity).
  split; [exact Hv|].
  apply (deltas_of_batches_add_up [item1; item2] [item4; item1] K_latam Hv).
Defined.

Lemma computed_balance_in_integers_witness :
  to_Z (get (applied_balances no_overrides compra1 (current_balances ana)
               (computeProgramDeltas [item1; item2; item4])) K_smiles) = Some 0
  /\ to_Z (get (applied_balances no_overrides compra1 (current_balances ana)
                  (computeProgramDeltas [item1; item2; item4])) K_azul) = Some 10.
Proof.
  split.
  - rewrite (computed_balance_in_integers no_overrides compra1 ana
               [item1; item2; item4] K_smiles);
      [vm_compute; reflexivity | reflexivity | right; reflexivity
      | vm_compute; reflexivity].
  - rewrite (computed_balance_in_integers no_overrides compra1 ana
               [item1; item2; item4] K_azul);
      [vm_compute; reflexivity | reflexivity | left; reflexivity
      | vm_compute; reflexivity].
Defined.

Lemma early_refusals_skip_recompute_witness :
  POST recompute_throws request2 store = POST quiet request2 store
  /\ snd (POST recompute_throws request2 store) = store
  /\ POST recompute_throws anonymous store = POST quiet anonymous store.
Proof.
  destruct (early_refusals_skip_recompute recompute_throws quiet request2 store)
    as (H1 & H2 & _);
    [reflexivity | reflexivity
    | right; right; right; exists compra2; split; [reflexivity | discriminate] |].
  destruct (early_refusals_skip_recompute recompute_throws quiet anonymous store)
    as (H3 & _); [reflexivity | reflexivity | right; left; reflexivity |].
  split; [exact H1|]. split; [exact H2 | exact H3].
Defined.

Lemma failures_outside_the_transaction_witness :
  POST (failing_at Op_findBase) request store
  = (serverError "Falha ao liberar compra." "connection lost", store)
  /\ POST recompute_throws request store
     = (serverError "Falha ao liberar compra." "recompute failed", store)
  /\ POST (failing_at Op_findCompra) request store
     = (serverError "Falha ao liberar compra." "connection lost", store).
Proof.
  split; [|split].
  - destruct (failures_outside_the_transaction (failing_at Op_findBase) request store)
      as (H & _); [discriminate | discriminate |].
    apply H. reflexivity.
  - destruct (failures_outside_the_transaction recompute_throws request store)
      as (_ & H & _); [discriminate | discriminate |].
    apply (H (mkView compra1 (Some ana) [])); [reflexivity | split; reflexivity
                                               | reflexivity].
  - destruct (failures_outside_the_transaction (failing_at Op_findCompra) request store)
      as (_ & _ & H); [discriminate | discriminate |].
    apply (H (mkView compra1 (Some ana) [])); [reflexivity | split; reflexivity
                                               | reflexivity | reflexivity].
Defined.

Lemma sample_reaches_reread (f : DB -> DB) :
  reaches_reread (interleaved 2 f) request store.
Proof.
  repeat split; try discriminate; try reflexivity.
  eexists. split; reflexivity.
Qed.

Lemma checks_after_recompute_witness :
  POST (interleaved 2 drop_p1) request store
  = (notFound "Compra não encontrada (pós-recompute).", drop_p1 store)
  /\ POST (interleaved 2 close_p1) request store
     = (badRequest "Só pode liberar compra OPEN.", close_p1 store).
Proof.
  split.
  - destruct (checks_after_recompute (interleaved 2 drop_p1) request store
                (sample_reaches_reread drop_p1)) as (H & _).
    apply H. reflexivity.
  - destruct (checks_after_recompute (interleaved 2 close_p1) request store
                (sample_reaches_reread close_p1)) as (_ & H).
    eapply H; [reflexivity | discriminate].
Defined.

Lemma sample_reaches_tx_late (f : DB -> DB) :
  reaches_tx (interleaved 3 f) request store.
Proof.
  repeat split; try discriminate; try reflexivity.
  - eexists. split; reflexivity.
  - eexists. split; [split; reflexivity|]. eexists. reflexivity.
Qed.

Lemma race_losers_write_nothing_witness :
  POST (interleaved 3 drop_p1) request store
  = (serverError "Falha ao liberar compra." "Compra não encontrada.", drop_p1 store)
  /\ POST (interleaved 3 close_p1) request store
     = (serverError "Falha ao liberar compra."
          "Compra já não está OPEN (possível dupla liberação).", close_p1 store).
Proof.
  split.
  - destruct (race_losers_write_nothing (interleaved 3 drop_p1) request store
                (sample_reaches_tx_late drop_p1)) as (H & _); [reflexivity|].
    apply H. reflexivity.
  - destruct (race_losers_write_nothing (interleaved 3 close_p1) request store
                (sample_reaches_tx_late close_p1)) as (_ & H); [reflexivity|].
    eapply H; [reflexivity | discriminate].
Defined.

Lemma release_succeeds_witness :
  exists r db', POST quiet request store = (ok r, db').
Proof.
  destruct (release_succeeds quiet request store
              (mkView compra1 (Some ana) [item1; item2; item4]) ana)
    as (r & db' & H & _);
    [exact sample_reaches_tx | reflexivity | reflexivity | reflexivity | reflexivity |].
  exists r, db'. exact H.
Defined.

Lemma reply_is_read_of_committed_store_witness :
  exists r db',
    POST quiet request store = (ok r, db')
    /\ purchase_findUnique true "p1" db' = Some (compra r)
    /\ Forall (fun it => status it <> VStr "PENDING") (items (compra r)).
Proof.
  destruct sample_released as (r & db' & E). exists r, db'.
  destruct (reply_is_read_of_committed_store _ _ _ _ _ E) as (H1 & _ & H3).
  split; [exact E|]. split; [exact H1|].
  apply List.Forall_forall. intros it Hin. apply (H3 it Hin).
Defined.

Lemma release_closes_and_audits_witness :
  exists r db' p',
    POST quiet request store = (ok r, db')
    /\ purchases db' !! "p1" = Some p'
    /\ purchase_status p' = "CLOSED"
    /\ liberadoPorId p' = Some "u1".
Proof.
  destruct sample_released as (r & db' & E).
  destruct (release_closes_and_audits _ _ _ _ _ E)
    as (p & p' & cid & ced' & _ & H2 & _ & H4 & H5 & _).
  exists r, db', p'. repeat split; assumption.
Defined.

Lemma release_frames_other_rows_witness :
  exists r db',
    POST quiet request store = (ok r, db')
    /\ purchases db' !! "p2" = Some compra2
    /\ map item_id (purchaseItems db') = ["i1"; "i2"; "i3"; "i4"].
Proof.
  destruct sample_released as (r & db' & E). exists r, db'.
  destruct (release_frames_other_rows _ _ _ _ _ E) as (H1 & _ & _ & _ & H5 & _).
  split; [exact E|]. split.
  - rewrite (H1 "p2"); [reflexivity | discriminate].
  - rewrite H5. reflexivity.
Defined.

Lemma refusals_come_before_the_transaction_witness :
  exists msg, POST quiet request2 store = (badRequest msg, store).
Proof.
  destruct (POST quiet request2 store) as [resp db'] eqn:E.
  pose proof E as E'. vm_compute in E'. injection E' as <- <-.
  destruct (refusals_come_before_the_transaction _ _ _ _ _ E) as [_ _];
    [left; reflexivity|].
  eexists. reflexivity.
Defined.

Lemma sample_released_free :
  exists r db', POST quiet request store_free = (ok r, db')
                /\ cedentePayCents (row (compra r)) = VNum 0.
Proof.
  destruct (POST quiet request store_free) as [resp db'] eqn:E.
  pose proof E as E'. vm_compute in E'. injection E' as <- <-.
  eexists _, _. split; reflexivity.
Qed.

Lemma no_commission_without_amount_witness :
  exists r db',
    POST quiet request store_free = (ok r, db')
    /\ commission r = None /\ commissions db' = ∅.
Proof.
  destruct sample_released_free as (r & db' & E & Hz). exists r, db'.
  destruct (no_commission_without_amount _ _ _ _ _ E) as (H1 & H2);
    [rewrite Hz; reflexivity|].
  split; [exact E|]. split; [exact H1|]. rewrite H2. reflexivity.
Defined.

Lemma released_items_are_stable_witness :
  exists r db',
    POST quiet request store = (ok r, db')
    /\ items (compra r)
       = [set_status item1 (VStr "RELEASED"); item2;
          set_status item4 (VStr "RELEASED")].
Proof.
  destruct sample_released as (r & db' & E). exists r, db'.
  destruct (released_items_are_stable _ _ _ _ _ E) as (H1 & _).
  split; [exact E|]. rewrite H1. reflexivity.
Defined.

End MoreOnTheSample.

(* ===================================================================== *)
(** ** The cedentes list *)
(* ===================================================================== *)

Section CedentesListFacts.
Local Open Scope string_scope.

Lemma all_digits_digits_of s : all_digits (digits_of s) = true.
Proof.
  induction s as [|c s IH]; [reflexivity|]. cbn [digits_of].
  destruct (is_digit c) eqn:E; [cbn [all_digits]; rewrite E|]; exact IH.
Qed.

Lemma digits_of_all_digits s : all_digits s = true -> digits_of s = s.
Proof.
  induction s as [|c s IH]; [reflexivity|]. cbn [all_digits digits_of].
  intros [-> H]%andb_true_iff. rewrite (IH H). reflexivity.
Qed.

Lemma digits_of_idem s : digits_of (digits_of s) = digits_of s.
Proof. apply digits_of_all_digits, all_digits_digits_of. Qed.

Lemma length_11 s :
  String.length s = 11%nat ->
  exists c1 c2 c3 c4 c5 c6 c7 c8 c9 c10 c11,
    s = String c1 (String c2 (String c3 (String c4 (String c5 (String c6
        (String c7 (String c8 (String c9 (String c10 (String c11 "")))))))))).
Proof.
  intros H.
  do 11 (destruct s as [|? s]; [discriminate H|]).
  destruct s; [|discriminate H]. repeat eexists.
Qed.

(** The mask of a CPF of eleven digits, however it is punctuated. *)
Lemma maskCpf_11 cpf c1 c2 c3 c4 c5 c6 c7 c8 c9 c10 c11 :
  digits_of cpf
  = String c1 (String c2 (String c3 (String c4 (String c5 (String c6
      (String c7 (String c8 (String c9 (String c10 (String c11 "")))))))))) ->
  maskCpf cpf
  = "***.***." ++ String c7 (String c8 (String c9 ("-" ++ String c10 (String c11 "")))).
Proof. unfold maskCpf. intros ->. reflexivity. Qed.

Lemma maskCpf_other cpf :
  String.length (digits_of cpf) <> 11%nat ->
  maskCpf cpf = if String.eqb cpf "" then "-" else cpf.
Proof.
  unfold maskCpf. intros H. apply Nat.eqb_neq in H. rewrite H. reflexivity.
Qed.

(** X19 — The mask of a CPF.  A CPF of eleven digits, however it is
    punctuated, is shown as fourteen characters that depend on its last
    five digits only: two CPFs that end in the same five digits have the
    same mask, and the mask holds no digit but these five. *)
Theorem maskCpf_shows_last_five_only a b p q t :
  digits_of a = p ++ t -> digits_of b = q ++ t ->
  String.length p = 6%nat -> String.length q = 6%nat -> String.length t = 5%nat ->
  maskCpf a = maskCpf b
  /\ String.length (maskCpf a) = 14%nat
  /\ digits_of (maskCpf a) = t.
Proof.
  intros Ha Hb Hp Hq Ht.
  do 6 (destruct p as [|? p]; [discriminate Hp|]). destruct p; [|discriminate Hp].
  do 6 (destruct q as [|? q]; [discriminate Hq|]). destruct q; [|discriminate Hq].
  do 5 (destruct t as [|? t]; [discriminate Ht|]). destruct t; [|discriminate Ht].
  cbv [append] in Ha, Hb.
  pose proof (all_digits_digits_of a) as Hd. rewrite Ha in Hd.
  cbn [all_digits] in Hd. repeat (apply andb_true_iff in Hd as [? Hd]).
  rewrite (maskCpf_11 _ _ _ _ _ _ _ _ _ _ _ _ Ha).
  rewrite (maskCpf_11 _ _ _ _ _ _ _ _ _ _ _ _ Hb).
  split; [reflexivity|]. split; [reflexivity|].
  cbv [append]. cbn [digits_of].
  repeat match goal with H : is_digit _ = true |- _ => rewrite H; clear H end.
  reflexivity.
Qed.

(** X20 — Masking twice.  [maskCpf] leaves its own results as they are. *)
Theorem maskCpf_idempotent cpf : maskCpf (maskCpf cpf) = maskCpf cpf.
Proof.
  destruct (Nat.eq_dec (String.length (digits_of cpf)) 11%nat) as [H|H].
  - destruct (length_11 _ H)
      as (c1 & c2 & c3 & c4 & c5 & c6 & c7 & c8 & c9 & c10 & c11 & Hv).
    pose proof (all_digits_digits_of cpf) as Hd. rewrite Hv in Hd.
    cbn [all_digits] in Hd. repeat (apply andb_true_iff in Hd as [? Hd]).
    rewrite (maskCpf_11 _ _ _ _ _ _ _ _ _ _ _ _ Hv).
    rewrite maskCpf_other; [reflexivity|].
    cbv [append]. cbn [digits_of].
    repeat match goal with H : is_digit _ = true |- _ => rewrite H; clear H end.
    cbn. discriminate.
  - rewrite (maskCpf_other cpf H).
    destruct (String.eqb_spec cpf "") as [->|Hne]; [reflexivity|].
    rewrite (maskCpf_other cpf H). apply String.eqb_neq in Hne. rewrite Hne.
    reflexivity.
Qed.

Lemma strip00_head d :
  match strip00 d with
  | String a (String b _) => Ascii.eqb a "0" && Ascii.eqb b "0" = false
  | _ => True
  end.
Proof.
  revert d. fix IH 1. intros [|a [|b r]]; [exact I | exact I |].
  cbn [strip00]. destruct (Ascii.eqb a "0" && Ascii.eqb b "0") eqn:E.
  - apply IH.
  - exact E.
Qed.

Lemma all_digits_strip00 d : all_digits d = true -> all_digits (strip00 d) = true.
Proof.
  revert d. fix IH 1. intros [|a [|b r]]; [reflexivity | intros H; exact H |].
  cbn [strip00]. destruct (Ascii.eqb a "0" && Ascii.eqb b "0"); [|intros H; exact H].
  cbn [all_digits]. intros H.
  apply andb_true_iff in H as [_ H]. apply andb_true_iff in H as [_ H].
  apply IH, H.
Qed.

(** X21 — The WhatsApp link.  A link is the prefix [https://wa.me/]
    followed by twelve digits or more and nothing else, which do not start
    with 00; there is no link exactly when the digits of the phone number,
    without their leading pairs of zeros, are fewer than ten; a number of
    ten or eleven digits gets the country code 55. *)
Theorem whatsappHref_shape telefone :
  let d := strip00 (digits_of (default "" telefone)) in
  (whatsappHref telefone = None <-> (String.length d < 10)%nat)
  /\ (forall url, whatsappHref telefone = Some url ->
        exists n, url = "https://wa.me/" ++ n
                  /\ all_digits n = true
                  /\ (12 <= String.length n)%nat
                  /\ String.prefix "00" n = false)
  /\ (String.length d = 10%nat \/ String.length d = 11%nat ->
      whatsappHref telefone = Some ("https://wa.me/55" ++ d)).
Proof.
  intros d. unfold whatsappHref. fold d.
  assert (Hall : all_digits d = true)
    by (apply all_digits_strip00, all_digits_digits_of).
  pose proof (strip00_head (digits_of (default "" telefone))) as Hhead. fold d in Hhead.
  destruct (String.eqb_spec (digits_of (default "" telefone)) "") as [He|He].
  { assert (d = "") as -> by (unfold d; rewrite He; reflexivity).
    split; [split; [intros _; cbn; lia | reflexivity]|].
    split; [intros url [=]|]. cbn. intros [H|H]; discriminate H. }
  destruct (Nat.eqb_spec (String.length d) 10) as [H10|H10];
    [|destruct (Nat.eqb_spec (String.length d) 11) as [H11|H11]]; cbn [orb].
  - assert (String.length ("55" ++ d) = 12%nat) as Hl
      by (cbv [append]; cbn [String.length]; rewrite H10; reflexivity).
    rewrite Hl. cbn [Nat.ltb Nat.leb].
    split; [split; [intros [=] | lia]|].
    split; [|intros _; reflexivity].
    intros url [= <-]. exists ("55" ++ d).
    split; [reflexivity|]. split; [cbv [append]; cbn; exact Hall|].
    split; [lia | reflexivity].
  - assert (String.length ("55" ++ d) = 13%nat) as Hl
      by (cbv [append]; cbn [String.length]; rewrite H11; reflexivity).
    rewrite Hl. cbn [Nat.ltb Nat.leb].
    split; [split; [intros [=] | lia]|].
    split; [|intros _; reflexivity].
    intros url [= <-]. exists ("55" ++ d).
    split; [reflexivity|]. split; [cbv [append]; cbn; exact Hall|].
    split; [lia | reflexivity].
  - destruct (Nat.ltb_spec (String.length d) 12) as [Hlt|Hge].
    + split; [split; [lia | reflexivity]|].
      split; [intros url [=] | lia].
    + split; [split; [intros [=] | lia]|].
      split; [|lia].
      intros url [= <-]. exists d.
      split; [reflexivity|]. split; [exact Hall|]. split; [exact Hge|].
      destruct d as [|a [|b r]]; [reflexivity | cbn in Hge; lia |].
      cbn [String.prefix].
      destruct (ascii_dec "0" a) as [<-|]; [|reflexivity].
      destruct (ascii_dec "0" b) as [<-|]; [|reflexivity].
      discriminate Hhead.
Qed.

(** X22 — Ticking a row.  [toggleOne] flips the row it is given and no
    other, so ticking a row twice restores the selection. *)
Theorem toggleOne_flips_one id prev :
  (forall x, x ∈ toggleOne id prev
             <-> (x = id /\ id ∉ prev) \/ (x <> id /\ x ∈ prev))
  /\ toggleOne id (toggleOne id prev) = prev.
Proof.
  assert (H : forall s x,
             x ∈ toggleOne id s <-> (x = id /\ id ∉ s) \/ (x <> id /\ x ∈ s)).
  { intros s x. unfold toggleOne. destruct (decide (id ∈ s)) as [Hin|Hin].
    - rewrite elem_of_difference, elem_of_singleton.
      destruct (decide (x = id)) as [->|]; tauto.
    - rewrite elem_of_union, elem_of_singleton.
      destruct (decide (x = id)) as [->|]; tauto. }
  split; [apply H|].
  apply set_eq. intros x. rewrite H, (H prev id).
  destruct (decide (x = id)) as [->|Hne].
  - destruct (decide (id ∈ prev)); tauto.
  - rewrite H. tauto.
Qed.

(** X23 — The box of the header.  [toggleAll] compares sizes, not
    members: it clears the selection whenever the selection and the list
    have the same size, and selects the whole list otherwise.  For a
    non-empty list of distinct rows, it selects them all from an empty
    selection and clears a full one. *)
Theorem toggleAll_alternates ids prev :
  (size prev = length ids -> toggleAll ids prev = ∅)
  /\ (ids <> [] -> size prev <> length ids -> toggleAll ids prev = list_to_set ids)
  /\ (NoDup ids -> toggleAll ids (list_to_set ids) = ∅)
  /\ (ids <> [] -> toggleAll ids (toggleAll ids ∅) = toggleAll ids (list_to_set ids)).
Proof.
  assert (H1 : forall s, size s = length ids -> toggleAll ids s = ∅).
  { intros s Hs. unfold toggleAll. rewrite Hs, Nat.eqb_refl.
    destruct (Nat.eqb (length ids) 0); reflexivity. }
  assert (H2 : forall s, ids <> [] -> size s <> length ids ->
                         toggleAll ids s = list_to_set ids).
  { intros s Hne Hs. unfold toggleAll.
    destruct ids as [|i l]; [contradiction|]. cbn [length Nat.eqb].
    apply Nat.eqb_neq in Hs. cbn [length] in Hs. rewrite Hs. reflexivity. }
  split; [apply H1|]. split; [apply H2|]. split.
  - intros Hnd. apply H1. apply size_list_to_set, Hnd.
  - intros Hne. rewrite (H2 ∅ Hne); [reflexivity|].
    rewrite size_empty. destruct ids; [contradiction | discriminate].
Qed.

End CedentesListFacts.

(* ===================================================================== *)
(** ** The session route *)
(* ===================================================================== *)

Section AuthFacts.
Import Auth.
Context `{RT : JSRuntime} `{CR : Crypto}.
Local Open Scope string_scope.

Lemma norm_str_idem s : norm_str (norm_str s) = norm_str s.
Proof.
  unfold norm_str. rewrite trim_lower, toLowerCase_idem, trim_idem. reflexivity.
Qed.

Lemma norm_str_rafael : norm_str "rafael" = "rafael".
Proof.
  unfold norm_str. rewrite (trim_ascii "rafael") by reflexivity.
  rewrite (toLowerCase_ascii (ascii_trim "rafael")) by reflexivity. reflexivity.
Qed.

Lemma norm_str_empty : norm_str "" = "".
Proof.
  unfold norm_str. rewrite (trim_ascii "") by reflexivity.
  rewrite (toLowerCase_ascii (ascii_trim "")) by reflexivity. reflexivity.
Qed.

Lemma fold_delete_quietly_lookup w L : forall db l,
  fold_left (delete_quietly w) L db !! l
  = if decide (l ∈ L)
    then (if delete_fails w l then db !! l else None)
    else db !! l.
Proof.
  induction L as [|x L IH]; intros db l.
  - rewrite decide_False by apply not_elem_of_nil. reflexivity.
  - cbn [fold_left]. rewrite IH. unfold delete_quietly.
    destruct (decide (l = x)) as [->|Hne].
    + rewrite (decide_True (P := x ∈ x :: L)) by apply list_elem_of_here.
      destruct (delete_fails w x); [destruct (decide (x ∈ L)); reflexivity|].
      destruct (decide (x ∈ L)); [reflexivity | apply lookup_delete_eq].
    + assert (Hx : (if delete_fails w x then db else delete x db) !! l = db !! l).
      { destruct (delete_fails w x); [reflexivity|].
        apply lookup_delete_ne. congruence. }
      rewrite Hx.
      destruct (decide (l ∈ L)) as [Hin|Hin].
      * rewrite decide_True by (apply list_elem_of_further, Hin). reflexivity.
      * rewrite decide_False; [reflexivity|].
        intros [?|?]%elem_of_cons; contradiction.
Qed.

Lemma prune_lookup w db l :
  pruneOldSeedUsers w db !! l
  = if decide (l ∈ OLD_SEED_LOGINS)
    then (if delete_fails w l then db !! l else None)
    else db !! l.
Proof. apply fold_delete_quietly_lookup. Qed.

Lemma prune_idem w db :
  pruneOldSeedUsers w (pruneOldSeedUsers w db) = pruneOldSeedUsers w db.
Proof.
  apply map_eq. intros l. rewrite !prune_lookup.
  destruct (decide (l ∈ OLD_SEED_LOGINS)); [|reflexivity].
  destruct (delete_fails w l); reflexivity.
Qed.

Lemma prune_insert w db l u :
  l ∉ OLD_SEED_LOGINS ->
  pruneOldSeedUsers w (<[l := u]> db) = <[l := u]> (pruneOldSeedUsers w db).
Proof.
  intros Hl. apply map_eq. intros k. rewrite prune_lookup.
  destruct (decide (k = l)) as [->|Hne].
  - rewrite decide_False by exact Hl. rewrite !lookup_insert_eq. reflexivity.
  - rewrite !lookup_insert_ne by congruence. rewrite prune_lookup. reflexivity.
Qed.

(** The row [seedUsersToDb] creates, and the one it makes of a row it
    finds. *)
Lemma seed_unfold w db :
  let m := pruneOldSeedUsers w db in
  seedUsersToDb w db
  = match fault w Op_seedFind with
    | Some e => (inl e, m)
    | None =>
        match m !! "rafael" with
        | None =>
            match fault w Op_seedCreate with
            | Some e => (inl e, m)
            | None =>
                (inr tt,
                 <["rafael" := mkUser (new_id w m) "rafael" "Rafael Nascimento" None
                                 TEAM "admin" (sha256 "1234")]> m)
            end
        | Some old =>
            match fault w Op_seedUpdate with
            | Some e => (inl e, m)
            | None =>
                (inr tt,
                 <["rafael" := mkUser (user_id old) (login old) "Rafael Nascimento" None
                                 TEAM "admin" (passwordHash old)]> m)
            end
        end
    end.
Proof.
  intros m. unfold seedUsersToDb, SEED_USERS, for_each, seed_one, attempt.
  unfold mbind, IO_bind, mret, IO_ret, raise, get_users, put_users. fold m.
  cbn [seed_login seed_name seed_email seed_role seed_password].
  rewrite norm_str_rafael.
  destruct (fault w Op_seedFind); [reflexivity|].
  destruct (m !! "rafael").
  - destruct (fault w Op_seedUpdate); reflexivity.
  - destruct (fault w Op_seedCreate); reflexivity.
Qed.

Lemma rafael_not_old : "rafael" ∉ OLD_SEED_LOGINS.
Proof.
  unfold OLD_SEED_LOGINS. rewrite !elem_of_cons, elem_of_nil.
  intros [H|[H|[H|[H|[]]]]]; discriminate H.
Qed.

(** What [seedUsersToDb] leaves at a login. *)
Lemma seeded_lookup w db l :
  seeded w db !! l = pruneOldSeedUsers w db !! l
  \/ (l = "rafael"
      /\ match db !! "rafael" with
         | None => fault w Op_seedFind = None /\ fault w Op_seedCreate = None
                   /\ seeded w db !! l
                      = Some (mkUser (new_id w (pruneOldSeedUsers w db)) "rafael"
                                "Rafael Nascimento" None TEAM "admin" (sha256 "1234"))
         | Some old => seeded w db !! l
                       = Some (mkUser (user_id old) (login old) "Rafael Nascimento" None
                                 TEAM "admin" (passwordHash old))
         end).
Proof.
  unfold seeded. rewrite seed_unfold. cbv zeta.
  assert (Hr : pruneOldSeedUsers w db !! "rafael" = db !! "rafael")
    by (rewrite prune_lookup, decide_False by apply rafael_not_old; reflexivity).
  rewrite Hr.
  destruct (fault w Op_seedFind); [left; reflexivity|].
  destruct (db !! "rafael") as [old|] eqn:E.
  - destruct (fault w Op_seedUpdate); [left; reflexivity|]. cbn [snd].
    destruct (decide (l = "rafael")) as [->|Hne].
    + right. split; [reflexivity|]. apply lookup_insert_eq.
    + left. apply lookup_insert_ne. congruence.
  - destruct (fault w Op_seedCreate); [left; reflexivity|]. cbn [snd].
    destruct (decide (l = "rafael")) as [->|Hne].
    + right. split; [reflexivity|]. split; [reflexivity|]. split; [reflexivity|].
      apply lookup_insert_eq.
    + left. apply lookup_insert_ne. congruence.
Qed.

(** Where the rows of a seeded table come from. *)
Lemma seeded_row_origin w db l u' :
  seeded w db !! l = Some u' ->
  (exists u, db !! l = Some u
             /\ passwordHash u' = passwordHash u
             /\ user_id u' = user_id u
             /\ login u' = login u
             /\ (l <> "rafael" -> u' = u))
  \/ (l = "rafael" /\ db !! l = None
      /\ passwordHash u' = sha256 "1234" /\ role u' = "admin").
Proof.
  pose proof (prune_lookup w db l) as Hp. intros Hu'.
  destruct (seeded_lookup w db l) as [H|[-> H]].
  - rewrite H, Hp in Hu'. left. exists u'.
    destruct (decide (l ∈ OLD_SEED_LOGINS));
      [destruct (delete_fails w l); [|discriminate Hu']|]; auto.
  - destruct (db !! "rafael") as [old|] eqn:E.
    + rewrite H in Hu'. injection Hu' as <-. left. exists old.
      repeat split; try reflexivity. intros Hne. contradiction.
    + destruct H as (_ & _ & H). rewrite H in Hu'. injection Hu' as <-.
      right. repeat split; reflexivity.
Qed.

Lemma seeded_row_stays w db l u :
  db !! l = Some u -> l ∉ OLD_SEED_LOGINS -> is_Some (seeded w db !! l).
Proof.
  intros Hu Hl.
  destruct (seeded_lookup w db l) as [H|[-> H]].
  - rewrite H, prune_lookup, decide_False by exact Hl. rewrite Hu. eauto.
  - rewrite Hu in H. rewrite H. eauto.
Qed.

(** X24 — Seeding and credentials.  Whatever fails, a row the table holds
    after [seedUsersToDb] is either a row it held before, with the same
    id, login and password hash (and untouched unless it is the seed user),
    or the seed user, created with the seed password because the table had
    no such login.  A row goes away only if its login is one of the old
    seed logins. *)
Theorem seed_preserves_credentials w db l :
  (forall u', seeded w db !! l = Some u' ->
     (exists u, db !! l = Some u
                /\ passwordHash u' = passwordHash u
                /\ user_id u' = user_id u
                /\ login u' = login u
                /\ (l <> "rafael" -> u' = u))
     \/ (l = "rafael" /\ db !! l = None
         /\ passwordHash u' = sha256 "1234" /\ role u' = "admin"))
  /\ (forall u, db !! l = Some u -> l ∉ OLD_SEED_LOGINS -> is_Some (seeded w db !! l)).
Proof.
  split; [intros u'; apply seeded_row_origin | intros u; apply seeded_row_stays].
Qed.

(** X25 — Seeding twice.  Once a run of [seedUsersToDb] has returned, a
    later run, in a world of its own, leaves the table as the first one
    left it, whatever fails in the later run, provided the later run deletes
    no row of an old seed login that the first one left in place; so does a
    [GET] after a [GET]. *)
Theorem seed_is_idempotent w w' db :
  fst (seedUsersToDb w db) = inr tt ->
  (forall l, l ∈ OLD_SEED_LOGINS -> is_Some (seeded w db !! l) ->
             delete_fails w' l = true) ->
  seeded w' (seeded w db) = seeded w db
  /\ snd (GET w' (snd (GET w db))) = snd (GET w db).
Proof.
  intros Hret Hkeep.
  assert (HG : forall v m, snd (GET v m) = seeded v m).
  { intros v m. unfold GET, seeded. destruct (seedUsersToDb v m) as [[e|u] m'];
      reflexivity. }
  rewrite !HG.
  cut (seeded w' (seeded w db) = seeded w db); [intros H; split; exact H|].
  set (m1 := seeded w db) in *.
  assert (Hraf : exists old,
             m1 !! "rafael"
             = Some (mkUser (user_id old) (login old) "Rafael Nascimento" None
                       TEAM "admin" (passwordHash old))).
  { revert Hret. unfold m1, seeded. rewrite seed_unfold. cbv zeta.
    destruct (fault w Op_seedFind); [discriminate|].
    destruct (pruneOldSeedUsers w db !! "rafael") as [old|].
    - destruct (fault w Op_seedUpdate); [discriminate|]. intros _. cbn [snd].
      exists old. apply lookup_insert_eq.
    - destruct (fault w Op_seedCreate); [discriminate|]. intros _. cbn [snd].
      eexists (mkUser _ _ "" None "" "" _). cbn [user_id login passwordHash].
      apply lookup_insert_eq. }
  destruct Hraf as [old Hraf].
  assert (Hprune : pruneOldSeedUsers w' m1 = m1).
  { apply map_eq. intros l. rewrite prune_lookup.
    destruct (decide (l ∈ OLD_SEED_LOGINS)) as [Hin|]; [|reflexivity].
    destruct (delete_fails w' l) eqn:Ef; [reflexivity|].
    destruct (m1 !! l) as [u|] eqn:El; [|reflexivity].
    rewrite (Hkeep l Hin) in Ef by eauto. discriminate Ef. }
  unfold seeded at 1. rewrite seed_unfold. cbv zeta. rewrite Hprune, Hraf.
  destruct (fault w' Op_seedFind); [reflexivity|].
  destruct (fault w' Op_seedUpdate); [reflexivity|].
  cbn [snd user_id login passwordHash]. apply insert_id. exact Hraf.
Qed.

Lemma is_str_true v s : is_str v s = true <-> v = VStr s.
Proof.
  destruct v as [| | | |s']; cbn [is_str]; try (split; [discriminate | intros [=]]).
  rewrite String.eqb_eq. split; [intros ->; reflexivity | intros [= ->]; reflexivity].
Qed.

(** The seeding, as the branches of [POST] see it. *)
Lemma seed_outcome w db :
  exists o, seedUsersToDb w db = (o, seeded w db)
            /\ (no_faults w -> o = inr tt).
Proof.
  unfold seeded. rewrite seed_unfold. cbv zeta.
  destruct (fault w Op_seedFind) eqn:E1.
  { eexists. split; [reflexivity|]. intros H. rewrite H in E1. discriminate E1. }
  destruct (pruneOldSeedUsers w db !! "rafael").
  - destruct (fault w Op_seedUpdate) eqn:E2.
    + eexists. split; [reflexivity|]. intros H. rewrite H in E2. discriminate E2.
    + eexists. split; [reflexivity|]. reflexivity.
  - destruct (fault w Op_seedCreate) eqn:E2.
    + eexists. split; [reflexivity|]. intros H. rewrite H in E2. discriminate E2.
    + eexists. split; [reflexivity|]. reflexivity.
Qed.

(** The login branch when the store answers. *)
Lemma do_login_runs w db b l :
  no_faults w -> norm w (body_login b) = inr l -> l <> "" ->
  String_ (body_password b ?? VStr "") <> "" ->
  do_login w b db
  = (inr match seeded w db !! l with
         | None => refuse 401 "Usuário não encontrado"
         | Some u =>
             if String.eqb (passwordHash u)
                  (sha256 (String_ (body_password b ?? VStr "")))
             then mkReply 200 J_ok (SetSession (session_of u))
             else refuse 401 "Senha inválida"
         end, seeded w db).
Proof.
  intros Hw Hn Hl Hp. unfold do_login.
  destruct (seed_outcome w db) as (o & Hs & Ho). rewrite (Ho Hw) in Hs.
  unfold mbind, IO_bind. rewrite Hs, Hn.
  apply String.eqb_neq in Hl. apply String.eqb_neq in Hp. rewrite Hl, Hp. cbn [orb].
  unfold attempt. rewrite (Hw Op_loginFind).
  unfold mret, IO_ret, get_users.
  destruct (seeded w db !! l) as [u|]; [|reflexivity].
  destruct (String.eqb (passwordHash u) _); reflexivity.
Qed.

Lemma POST_login w db b :
  action b = VStr "login" ->
  POST w (Some b) db
  = match do_login w b db with
    | (inl e, db') => (refuse 500 e, db')
    | (inr r, db') => (r, db')
    end.
Proof. intros Ha. unfold POST, isApiBody, dispatch. rewrite Ha. reflexivity. Qed.

Lemma POST_setPassword w db b :
  action b = VStr "setPassword" ->
  POST w (Some b) db
  = match do_setPassword w b db with
    | (inl e, db') => (refuse 500 e, db')
    | (inr r, db') => (r, db')
    end.
Proof. intros Ha. unfold POST, isApiBody, dispatch. rewrite Ha. reflexivity. Qed.

(** X26 — The session cookie.  Whatever fails, a reply sets the session
    cookie only for a login request, with status 200, when the table that
    the seeding left holds the normalised login with the hash of the
    password of the request; the cookie is made of that row. *)
Theorem session_cookie_is_earned w raw db r db' c :
  POST w raw db = (r, db') ->
  cookie r = SetSession c ->
  exists b l u,
    raw = Some b
    /\ action b = VStr "login"
    /\ norm w (body_login b) = inr l
    /\ db' = seeded w db
    /\ db' !! l = Some u
    /\ passwordHash u = sha256 (String_ (body_password b ?? VStr ""))
    /\ c = session_of u
    /\ status r = 200.
Proof.
  intros H Hc.
  destruct raw as [b|]; [|injection H as <- <-; discriminate Hc].
  destruct (seed_outcome w db) as (o & Hs & _).
  unfold POST, isApiBody, dispatch in H.
  destruct (is_str (action b) "resetSeed") eqn:Er;
    [|destruct (is_str (action b) "login") eqn:El;
      [|destruct (is_str (action b) "setPassword") eqn:Ep;
        [|destruct (is_str (action b) "logout") eqn:Eo]]];
    cbn [orb negb] in H; rewrite ?orb_true_r in H; cbn [negb] in H;
    unfold do_login, do_setPassword, attempt in H;
    unfold mbind, IO_bind, mret, IO_ret, raise, get_users, put_users in H;
    try rewrite Hs in H;
    repeat (case_match; simplify_eq/=; try discriminate).
  all: simplify_eq/=.
  match goal with
  | H : negb (String.eqb _ _) = false |- _ =>
      apply negb_false_iff, String.eqb_eq in H
  end.
  apply is_str_true in El.
  eexists _, _, _. repeat split; eauto.
Qed.

(** X27 — Logging in.  When the store answers, a user of the table whose
    login is not an old seed login logs in with a password exactly when
    the hash the table holds for the login is the hash of that password:
    seeding before the check does not change who gets in.  The cookie
    carries the id and the login of the row, and the reply is the one the
    login gets in its normal form, trimmed and in lower case. *)
Theorem login_checks_the_stored_hash w db b l u :
  no_faults w ->
  action b = VStr "login" ->
  norm w (body_login b) = inr l ->
  l <> "" ->
  String_ (body_password b ?? VStr "") <> "" ->
  l ∉ OLD_SEED_LOGINS ->
  db !! l = Some u ->
  let password := String_ (body_password b ?? VStr "") in
  (passwordHash u = sha256 password ->
   exists c,
     POST w (Some b) db = (mkReply 200 J_ok (SetSession c), seeded w db)
     /\ cookie_id c = user_id u /\ cookie_login c = login u
     /\ (l <> "rafael" -> c = session_of u))
  /\ (passwordHash u <> sha256 password ->
      POST w (Some b) db = (refuse 401 "Senha inválida", seeded w db))
  /\ POST w (Some (mkApiBody (action b) (VStr l) (body_password b))) db
     = POST w (Some b) db.
Proof.
  intros Hw Ha Hn Hl Hp Hold Hu password.
  assert (Hsame : POST w (Some (mkApiBody (action b) (VStr l) (body_password b))) db
                  = POST w (Some b) db).
  { assert (Hn' : norm w (VStr l) = inr l).
    { destruct (body_login b) as [| | | |s]; cbn [norm] in Hn; try discriminate Hn;
        injection Hn as <-; [contradiction Hl; apply norm_str_empty ..|].
      cbn [norm]. rewrite norm_str_idem. reflexivity. }
    rewrite (POST_login w db b Ha), (do_login_runs w db b l Hw Hn Hl Hp).
    rewrite (POST_login w db (mkApiBody (action b) (VStr l) (body_password b)) Ha).
    rewrite (do_login_runs w db (mkApiBody (action b) (VStr l) (body_password b)) l
               Hw Hn' Hl Hp). reflexivity. }
  assert (Hrow : exists u', seeded w db !! l = Some u'
                            /\ passwordHash u' = passwordHash u
                            /\ user_id u' = user_id u
                            /\ login u' = login u
                            /\ (l <> "rafael" -> u' = u)).
  { destruct (seeded_row_stays w db l u Hu Hold) as [u' Hu']. exists u'.
    split; [exact Hu'|].
    destruct (seeded_row_origin w db l u' Hu') as [(u0 & Hu0 & H)|(_ & Hnone & _)];
      [|rewrite Hu in Hnone; discriminate Hnone].
    rewrite Hu in Hu0. injection Hu0 as <-. exact H. }
  destruct Hrow as (u' & Hu' & Hh & Hi & Hlg & Hrest).
  unfold password. clear password.
  split; [|split; [|exact Hsame]].
  - intros Hpw.
    rewrite (POST_login w db b Ha), (do_login_runs w db b l Hw Hn Hl Hp), Hu', Hh, Hpw.
    rewrite String.eqb_refl. eexists. split; [reflexivity|].
    cbn [session_of cookie_id cookie_login]. split; [exact Hi|]. split; [exact Hlg|].
    intros Hne. rewrite (Hrest Hne). reflexivity.
  - intros Hne. apply String.eqb_neq in Hne.
    rewrite (POST_login w db b Ha), (do_login_runs w db b l Hw Hn Hl Hp), Hu', Hh, Hne.
    reflexivity.
Qed.

(** What a seeding makes of a row whose hash has just been set, when it
    does not delete the row. *)
Lemma seeded_after_set_hash w' (m : gmap string User) l u h :
  l ∉ OLD_SEED_LOGINS \/ delete_fails w' l = true ->
  exists u', seeded w' (<[l := set_hash u h]> m) !! l = Some u'
             /\ passwordHash u' = h
             /\ user_id u' = user_id u
             /\ login u' = login u.
Proof.
  intros Hl. set (db1 := <[l := set_hash u h]> m).
  assert (H1 : db1 !! l = Some (set_hash u h)) by apply lookup_insert_eq.
  destruct (seeded_lookup w' db1 l) as [H|[-> H]].
  - rewrite H, prune_lookup, H1.
    destruct (decide (l ∈ OLD_SEED_LOGINS)) as [Hin|].
    + destruct Hl as [Hl|Hl]; [contradiction|]. rewrite Hl. eexists. repeat split.
    + eexists. repeat split.
  - rewrite H1 in H. rewrite H. eexists. repeat split.
Qed.

(** X28 — Setting a password.  When the store answers, a request to set
    the password of a login the seeded table holds is carried out with
    nothing but the login and the new password; and a later login request,
    in a world of its own where the store answers and the row is not
    deleted, under a spelling of that login and with that password gets the
    session of the row. *)
Theorem setPassword_asks_for_no_proof w w' db b b' l u :
  no_faults w ->
  action b = VStr "setPassword" ->
  norm w (body_login b) = inr l ->
  l <> "" ->
  String_ (body_password b ?? VStr "") <> "" ->
  seeded w db !! l = Some u ->
  no_faults w' ->
  l ∉ OLD_SEED_LOGINS \/ delete_fails w' l = true ->
  action b' = VStr "login" ->
  norm w' (body_login b') = inr l ->
  String_ (body_password b' ?? VStr "") = String_ (body_password b ?? VStr "") ->
  let password := String_ (body_password b ?? VStr "") in
  let db1 := <[l := set_hash u (sha256 password)]> (seeded w db) in
  POST w (Some b) db = (mkReply 200 J_ok NoCookie, db1)
  /\ exists c,
       POST w' (Some b') db1 = (mkReply 200 J_ok (SetSession c), seeded w' db1)
       /\ cookie_id c = user_id u /\ cookie_login c = login u.
Proof.
  intros Hw Ha Hn Hl Hp Hu Hw' Hsafe Ha' Hn' Hp' password db1. split.
  - rewrite (POST_setPassword w db b Ha). unfold do_setPassword.
    destruct (seed_outcome w db) as (o & Hs & Ho). rewrite (Ho Hw) in Hs.
    unfold mbind, IO_bind. rewrite Hs, Hn. fold password.
    apply String.eqb_neq in Hl. apply String.eqb_neq in Hp. fold password in Hp.
    rewrite Hl, Hp. cbn [orb].
    unfold attempt. rewrite (Hw Op_setPassword).
    unfold mret, IO_ret, get_users, put_users. rewrite Hu. reflexivity.
  - rewrite (POST_login w' db1 b' Ha').
    rewrite (do_login_runs w' db1 b' l Hw' Hn' Hl) by (rewrite Hp'; exact Hp).
    destruct (seeded_after_set_hash w' (seeded w db) l u (sha256 password) Hsafe)
      as (u' & Hu' & Hh & Hi & Hlg).
    fold db1 in Hu'. rewrite Hu', Hh, Hp'. fold password. rewrite String.eqb_refl.
    eexists. split; [reflexivity|]. split; [exact Hi | exact Hlg].
Qed.

(** X29 — The replies.  A reply has status 200, 400, 401 or 500; a 400
    says that the action is invalid or that a field is missing, so the
    last [return] of [POST], for an unknown action, is never reached.  A
    body that is not one of the four actions is refused before the store is
    touched, and logging out clears the cookie without touching it; no
    other reply clears the cookie. *)
Theorem replies_of_the_route w raw db :
  let r := fst (POST w raw db) in
  (status r = 200 \/ status r = 400 \/ status r = 401 \/ status r = 500)
  /\ (status r = 400 ->
      r = refuse 400 "Ação inválida" \/ r = refuse 400 "Campos obrigatórios ausentes")
  /\ (isApiBody raw = false -> POST w raw db = (refuse 400 "Ação inválida", db))
  /\ (cookie r = ClearSession <->
      exists b, raw = Some b /\ action b = VStr "logout")
  /\ (cookie r = ClearSession -> POST w raw db = (mkReply 200 J_ok ClearSession, db)).
Proof.
  intros r. unfold r. clear r.
  destruct raw as [b|]; cbn [POST isApiBody];
    [|repeat split; auto; try discriminate; intros (b & [=] & _)].
  destruct (seed_outcome w db) as (o & Hs & _).
  unfold dispatch.
  destruct (is_str (action b) "resetSeed") eqn:Er;
    [|destruct (is_str (action b) "login") eqn:El;
      [|destruct (is_str (action b) "setPassword") eqn:Ep;
        [|destruct (is_str (action b) "logout") eqn:Eo]]];
    cbn [orb negb]; rewrite ?orb_true_r; cbn [negb];
    unfold do_login, do_setPassword, attempt;
    unfold mbind, IO_bind, mret, IO_ret, raise, get_users, put_users;
    try rewrite Hs;
    repeat (case_match; simplify_eq/=);
    repeat match goal with
           | H : is_str _ _ = true |- _ => apply is_str_true in H
           end;
    (repeat split; auto; try discriminate;
     try (intros (b0 & [= <-] & Hb);
          first [congruence | apply is_str_true in Hb; congruence]);
     try (intros _; eexists; split; [reflexivity | assumption])).
Qed.

(** X30 — Who is kept out, and who is let in.  When the store answers,
    a login under an old seed login that the pruning deletes is refused,
    whatever the table held for it; so is a login the table does not hold,
    unless it is the seed user; and on a table without the seed user, the
    seed password opens a session for it as an admin. *)
Theorem old_and_unknown_logins_are_refused w db b l :
  no_faults w ->
  action b = VStr "login" ->
  norm w (body_login b) = inr l ->
  l <> "" ->
  String_ (body_password b ?? VStr "") <> "" ->
  (l ∈ OLD_SEED_LOGINS -> delete_fails w l = false ->
   POST w (Some b) db = (refuse 401 "Usuário não encontrado", seeded w db)
   /\ seeded w db !! l = None)
  /\ (db !! l = None -> l <> "rafael" ->
      POST w (Some b) db = (refuse 401 "Usuário não encontrado", seeded w db))
  /\ (db !! l = None -> l = "rafael" ->
      String_ (body_password b ?? VStr "") = "1234" ->
      exists c,
        POST w (Some b) db = (mkReply 200 J_ok (SetSession c), seeded w db)
        /\ cookie_login c = "rafael" /\ cookie_role c = "admin"
        /\ cookie_team c = TEAM).
Proof.
  intros Hw Ha Hn Hl Hp.
  rewrite (POST_login w db b Ha), (do_login_runs w db b l Hw Hn Hl Hp).
  split; [|split].
  - intros Hin Hdel.
    assert (Hnone : seeded w db !! l = None).
    { destruct (seeded_lookup w db l) as [H|[-> _]].
      - rewrite H, prune_lookup, decide_True, Hdel by exact Hin. reflexivity.
      - destruct (rafael_not_old Hin). }
    rewrite Hnone. split; reflexivity.
  - intros Hnone Hne.
    destruct (seeded w db !! l) as [u'|] eqn:Hu'; [|reflexivity].
    destruct (seeded_row_origin w db l u' Hu') as [(u & Hu & _)|(-> & _)];
      [rewrite Hnone in Hu; discriminate Hu | contradiction].
  - intros Hnone -> Hpw.
    destruct (seeded_lookup w db "rafael") as [H|[_ H]].
    + exfalso. revert H. unfold seeded. rewrite seed_unfold. cbv zeta.
      rewrite (Hw Op_seedFind), prune_lookup, decide_False by apply rafael_not_old.
      rewrite Hnone, (Hw Op_seedCreate). cbn [snd].
      rewrite lookup_insert_eq. discriminate.
    + rewrite Hnone in H. destruct H as (_ & _ & H). rewrite H, Hpw.
      cbn [passwordHash]. rewrite String.eqb_refl.
      eexists. split; [reflexivity|]. repeat split.
Qed.

End AuthFacts.

(* ===================================================================== *)
(** ** The list and the session route on samples *)
(* ===================================================================== *)

Section OtherSamples.
Import Sample Auth AuthSample.
Local Open Scope string_scope.

#[local] Existing Instance decimal_runtime.
#[local] Existing Instance tagging.

Lemma maskCpf_shows_last_five_only_witness :
  maskCpf "123.456.789-09" = maskCpf "98765478909"
  /\ maskCpf "123.456.789-09" = "***.***.789-09".
Proof.
  destruct (maskCpf_shows_last_five_only "123.456.789-09" "98765478909"
              "123456" "987654" "78909") as (H1 & _ & _); try reflexivity.
  split; [exact H1 | reflexivity].
Defined.

Lemma whatsappHref_shape_witness :
  whatsappHref (Some "(11) 98765-4321") = Some "https://wa.me/5511987654321"
  /\ whatsappHref (Some "3322-1100") = None.
Proof.
  split.
  - destruct (whatsappHref_shape (Some "(11) 98765-4321")) as (_ & _ & H).
    apply H. right. reflexivity.
  - destruct (whatsappHref_shape (Some "3322-1100")) as (H & _).
    apply H. vm_compute. lia.
Defined.

Lemma toggleAll_alternates_witness :
  toggleAll ["a"; "b"] ∅ = {[ "a"; "b" ]}
  /\ toggleAll ["a"; "b"] (list_to_set ["a"; "b"]) = ∅.
Proof.
  destruct (toggleAll_alternates ["a"; "b"] ∅) as (_ & H1 & _).
  destruct (toggleAll_alternates ["a"; "b"] (list_to_set ["a"; "b"])) as (_ & _ & H2 & _).
  split.
  - rewrite H1; [| discriminate | rewrite size_empty; discriminate].
    cbn [list_to_set]. rewrite (right_id_L ∅ (∪)). reflexivity.
  - apply H2. repeat constructor; rewrite ?elem_of_cons, ?elem_of_nil;
      intros H; repeat destruct H as [H|H]; try discriminate H; exact H.
Defined.

Lemma calm_no_faults : no_faults calm.
Proof. intros op. reflexivity. Qed.

Lemma maria_not_old : "maria" ∉ OLD_SEED_LOGINS.
Proof.
  unfold OLD_SEED_LOGINS. rewrite !elem_of_cons, elem_of_nil.
  intros [H|[H|[H|[H|[]]]]]; discriminate H.
Qed.

Lemma seeded_maria : seeded calm users !! "maria" = Some maria.
Proof. vm_compute. reflexivity. Qed.

Lemma sample_login :
  POST calm (Some (login_as " Maria " "segredo")) users
  = (mkReply 200 J_ok (SetSession (session_of maria)), seeded calm users).
Proof.
  rewrite (POST_login calm users (login_as " Maria " "segredo") eq_refl).
  rewrite (do_login_runs (RT := decimal_runtime) calm users
             (login_as " Maria " "segredo") "maria" calm_no_faults eq_refl)
    by discriminate.
  rewrite seeded_maria. reflexivity.
Qed.

Lemma session_cookie_is_earned_witness :
  exists c db' u,
    POST calm (Some (login_as " Maria " "segredo")) users
    = (mkReply 200 J_ok (SetSession c), db')
    /\ db' = seeded calm users
    /\ db' !! "maria" = Some u
    /\ passwordHash u = "sha256:segredo"
    /\ c = session_of u.
Proof.
  destruct (session_cookie_is_earned _ _ _ _ _ _ sample_login eq_refl)
    as (b & l & u & Hb & _ & Hl & Hdb & Hu & Hh & Hc & _).
  injection Hb as <-. injection Hl as <-.
  exists (session_of maria), (seeded calm users), u. repeat split; assumption.
Defined.

Lemma login_checks_the_stored_hash_witness :
  POST calm (Some (login_as " Maria " "segredo")) users
  = (mkReply 200 J_ok (SetSession (session_of maria)), seeded calm users)
  /\ POST calm (Some (login_as "maria" "errada")) users
     = (refuse 401 "Senha inválida", seeded calm users).
Proof.
  split.
  - destruct (login_checks_the_stored_hash calm users (login_as " Maria " "segredo")
                "maria" maria) as (H & _ & _);
      [exact calm_no_faults | reflexivity | reflexivity | discriminate | discriminate
      | exact maria_not_old | reflexivity |].
    destruct H as (c & Hc & _ & _ & Hs); [reflexivity|].
    rewrite Hc, Hs by discriminate. reflexivity.
  - destruct (login_checks_the_stored_hash calm users (login_as "maria" "errada")
                "maria" maria) as (_ & H & _);
      [exact calm_no_faults | reflexivity | reflexivity | discriminate | discriminate
      | exact maria_not_old | reflexivity |].
    apply H. discriminate.
Defined.

Lemma setPassword_asks_for_no_proof_witness :
  exists c db1,
    POST calm (Some (set_password "maria" "nova")) users
    = (mkReply 200 J_ok NoCookie, db1)
    /\ POST blocked (Some (login_as "MARIA" "nova")) db1
       = (mkReply 200 J_ok (SetSession c), seeded blocked db1)
    /\ cookie_id c = "u7".
Proof.
  destruct (setPassword_asks_for_no_proof calm blocked users
              (set_password "maria" "nova") (login_as "MARIA" "nova") "maria" maria)
    as (H1 & c & H2 & H3 & _);
    [exact calm_no_faults | reflexivity | reflexivity | discriminate | discriminate
    | exact seeded_maria | intros op; reflexivity | left; exact maria_not_old
    | reflexivity | reflexivity | reflexivity |].
  exists c. eexists. split; [exact H1|]. split; [exact H2 | exact H3].
Defined.

(** A later run whose deletes go through removes what the first one could not. *)
Lemma sample_later_run_deletes :
  seeded calm (seeded blocked users) !! "lucas" = None.
Proof. vm_compute. reflexivity. Qed.

Lemma seed_is_idempotent_witness :
  fst (seedUsersToDb blocked users) = inr tt
  /\ is_Some (seeded blocked users !! "lucas")
  /\ seeded stalled (seeded blocked users) = seeded blocked users
  /\ snd (GET stalled (snd (GET blocked users))) = snd (GET blocked users).
Proof.
  assert (H1 : fst (seedUsersToDb blocked users) = inr tt)
    by (vm_compute; reflexivity).
  assert (H2 : is_Some (seeded blocked users !! "lucas"))
    by (exists lucas; vm_compute; reflexivity).
  split; [exact H1|]. split; [exact H2|].
  apply (seed_is_idempotent blocked stalled users H1). intros l _ _. reflexivity.
Defined.

Lemma lucas_is_old : "lucas" ∈ OLD_SEED_LOGINS.
Proof. unfold OLD_SEED_LOGINS. rewrite !elem_of_cons. auto. Qed.

Lemma old_and_unknown_logins_are_refused_witness :
  POST calm (Some (login_as "lucas" "abcd")) users
  = (refuse 401 "Usuário não encontrado", seeded calm users)
  /\ POST calm (Some (login_as "joana" "abcd")) users
     = (refuse 401 "Usuário não encontrado", seeded calm users)
  /\ exists c, POST calm (Some (login_as "Rafael" "1234")) users
               = (mkReply 200 J_ok (SetSession c), seeded calm users)
               /\ cookie_role c = "admin".
Proof.
  split; [|split].
  - destruct (old_and_unknown_logins_are_refused calm users (login_as "lucas" "abcd")
                "lucas") as (H & _ & _);
      [exact calm_no_faults | reflexivity | reflexivity | discriminate | discriminate |].
    destruct H as [H _]; [exact lucas_is_old | reflexivity | exact H].
  - destruct (old_and_unknown_logins_are_refused calm users (login_as "joana" "abcd")
                "joana") as (_ & H & _);
      [exact calm_no_faults | reflexivity | reflexivity | discriminate | discriminate |].
    apply H; [reflexivity | discriminate].
  - destruct (old_and_unknown_logins_are_refused calm users (login_as "Rafael" "1234")
                "rafael") as (_ & _ & H);
      [exact calm_no_faults | reflexivity | reflexivity | discriminate | discriminate |].
    destruct H as (c & Hc & _ & Hr & _); [reflexivity | reflexivity | reflexivity |].
    exists c. split; [exact Hc | exact Hr].
Defined.

Lemma seed_preserves_credentials_witness :
  is_Some (seeded calm users !! "maria")
  /\ forall u', seeded calm users !! "maria" = Some u' -> u' = maria.
Proof.
  destruct (seed_preserves_credentials calm users "maria") as [Hfrom Hstay].
  split; [apply (Hstay maria); [reflexivity | exact maria_not_old]|].
  intros u' Hu'.
  destruct (Hfrom u' Hu') as [(u & Hu & _ & _ & _ & Hsame)|(Hne & _)];
    [|discriminate Hne].
  change (users !! "maria") with (Some maria) in Hu. injection Hu as <-.
  apply Hsame. discriminate.
Defined.

Lemma replies_of_the_route_witness :
  POST calm None users = (refuse 400 "Ação inválida", users)
  /\ POST calm (Some (mkApiBody (VStr "logout") VUndefined VUndefined)) users
     = (mkReply 200 J_ok ClearSession, users).
Proof.
  split.
  - destruct (replies_of_the_route calm None users) as (_ & _ & H & _).
    apply H. reflexivity.
  - destruct (replies_of_the_route calm
                (Some (mkApiBody (VStr "logout") VUndefined VUndefined)) users)
      as (_ & _ & _ & H1 & H2).
    apply H2, H1. eexists. split; reflexivity.
Defined.

End OtherSamples.
